(** * Zone formation and scoring engine ([zone_analyzer.py])

    A shallow embedding of [ZoneAnalyzer]: commune filtering, nearest-centre
    zone assignment, per-zone aggregation, zone filtering, scoring and
    ranking, followed by the properties stated about them.

    Conventions of the embedding.
    - A pandas [DataFrame] is a list of rows, each row a record; a [Series]
      is a list of values.  Row order is the positional order of the frame.
    - [float64] columns are real numbers ([R]), on which the sine, cosine,
      arc sine, square root and logarithm of the distance and market-size
      formulas are available; NaN, infinities and rounding are outside the
      model.
    - The analyzer object is an explicit state threaded through its methods;
      a Python exception is the [Raise] outcome of a method.
    - [config.py], [utils.py] and pandas itself are not part of the modelled
      file; what the analyzer uses of them enters through the classes
      [Config], [Utils] and [Pandas]. *)

From Stdlib Require Import String Ascii Decimal DecimalString.
From Stdlib Require Import Reals Lra Lia Bool Arith List Permutation Sorted.
Import ListNotations.

Open Scope string_scope.
Open Scope R_scope.

(** ** Comparisons on float columns *)

Definition Rge_bool (x y : R) : bool := if Rle_dec y x then true else false.
Definition Rle_bool (x y : R) : bool := if Rle_dec x y then true else false.
Definition Rlt_bool (x y : R) : bool := if Rlt_dec x y then true else false.

(** ** Exceptions and the analyzer monad *)

Inductive exn : Type := ValueError | TypeError.

Inductive result (A : Type) : Type :=
| Ok (a : A)
| Raise (e : exn).
Arguments Ok {A} a.
Arguments Raise {A} e.

Definition rbind {A B} (r : result A) (k : A -> result B) : result B :=
  match r with
  | Ok a => k a
  | Raise e => Raise e
  end.

Notation "x <- m ;; k" := (rbind m (fun x => k))
  (at level 61, m at next level, right associativity).

(** ** Series reductions *)

Definition series_sum (l : list R) : R := fold_right Rplus 0 l.

(** [Series.mean()]; on the empty series (NaN in pandas), which the analyzer
    never averages, the value is that of [0 / 0] in [R]. *)
Definition series_mean (l : list R) : R := series_sum l / INR (length l).

(** [Series.min()] and [Series.max()]; the empty series (NaN in pandas) is
    never reduced by the analyzer and is given the value 0 here. *)
Definition series_min (l : list R) : R :=
  match l with
  | [] => 0
  | x :: t => fold_left Rmin t x
  end.

Definition series_max (l : list R) : R :=
  match l with
  | [] => 0
  | x :: t => fold_left Rmax t x
  end.

(** [ndarray.min()]: raises [ValueError] on a zero-size array. *)
Definition array_min (l : list R) : result R :=
  match l with
  | [] => Raise ValueError
  | x :: t => Ok (fold_left Rmin t x)
  end.

(** [ndarray.argmin()]: position of the first occurrence of the minimum. *)
Fixpoint argmin_from (best_i : nat) (best : R) (i : nat) (l : list R) : nat :=
  match l with
  | [] => best_i
  | x :: t =>
      if Rlt_bool x best then argmin_from i x (S i) t
      else argmin_from best_i best (S i) t
  end.

Definition argmin (l : list R) : nat :=
  match l with
  | [] => O
  | x :: t => argmin_from O x 1%nat t
  end.

(** Ascending insertion sort for a boolean order; equal items keep their
    order. *)
Fixpoint insert_le {A} (leb : A -> A -> bool) (x : A) (l : list A) : list A :=
  match l with
  | [] => [x]
  | y :: t => if leb x y then x :: l else y :: insert_le leb x t
  end.

Definition sort_le {A} (leb : A -> A -> bool) (l : list A) : list A :=
  fold_right (insert_le leb) [] l.

(** The sorted values of a float series, used by the median. *)
Definition sort_asc (l : list R) : list R := sort_le Rle_bool l.

(** [Series.median()]: the middle value of the sorted series, or the mean of
    the two middle values when the length is even (0 stands for the NaN of
    the empty series). *)
Definition series_median (l : list R) : R :=
  let s := sort_asc l in
  let n := length s in
  if Nat.even n
  then (nth (n / 2 - 1) s 0 + nth (n / 2) s 0) / 2
  else nth (n / 2) s 0.

(** Descending insertion sort by a float key.  [past kx ky] tells whether
    the row being inserted, of key [kx], goes behind a row of key [ky]. *)
Fixpoint insert_by {A} (past : R -> R -> bool) (key : A -> R) (x : A)
    (l : list A) : list A :=
  match l with
  | [] => [x]
  | y :: t =>
      if past (key x) (key y) then y :: insert_by past key x t else x :: l
  end.

Definition sort_by {A} (past : R -> R -> bool) (key : A -> R) (l : list A)
  : list A :=
  fold_right (insert_by past key) [] l.

(** Going behind strictly larger keys only keeps the first occurrence first
    among equal keys. *)
Definition sort_desc_stable {A} (key : A -> R) (l : list A) : list A :=
  sort_by Rlt_bool key l.

(** [DataFrame.nlargest(n, column)] with the default [keep='first']. *)
Definition nlargest {A} (n : nat) (key : A -> R) (l : list A) : list A :=
  firstn n (sort_desc_stable key l).

(** ** Data model *)

Module Commune.
Record t : Type := mk {
  code_commune : string;
  nom_commune : string;
  latitude : R;
  longitude : R;
  population_totale : R;
  nb_menages : R;
  nb_maisons_individuelles : R;
  pct_maisons : R;
  pct_residences_principales : R;
  revenu_median : R;
  niveau_vie_median : R;
  taux_pauvrete : R;
  code_departement : string
}.
End Commune.

(** A row of [zones_df]: the commune row with the three columns added by
    the assignment loop. *)
Module Assignment.
Record t : Type := mk {
  commune : Commune.t;
  zone_id : nat;
  distance_to_center : R;
  center_commune : string
}.
End Assignment.

Module Zone.
Record t : Type := mk {
  zone_id : nat;
  nb_communes : nat;
  nom_commune : string;
  population_totale : R;
  nb_menages : R;
  nb_maisons_individuelles : R;
  latitude : R;
  longitude : R;
  pct_maisons : R;
  pct_residences_principales : R;
  revenu_median : R;
  niveau_vie_median : R;
  taux_pauvrete : R;
  code_departement : string;
  center_commune : string;
  region : string
}.
End Zone.

(** A zone row after the score columns and [potential_clients] are added. *)
Module Scored.
Record t : Type := mk {
  zone : Zone.t;
  score_housing : R;
  score_income : R;
  score_market_size : R;
  score_total : R;
  potential_clients : R
}.
End Scored.

(** A row of the table returned by [calculate_scores]. *)
Module Ranked.
Record t : Type := mk {
  scored : Scored.t;
  rank : nat
}.
End Ranked.

(** ** Collaborators outside the modelled file *)

(** The two constants of [config.py] read by the analyzer. *)
Class Config : Type := {
  MIN_HOUSEHOLDS : R;
  TARGET_CONVERSION_RATE : R
}.

(** [utils.get_region_from_department]. *)
Class Utils : Type := {
  get_region_from_department : string -> string
}.

Definition sorted_desc {A} (key : A -> R) (l : list A) : Prop :=
  StronglySorted (fun a b => key b <= key a) l.

(** [DataFrame.sort_values(column, ascending=False)] with the default
    [kind='quicksort']: pandas promises a reordering of the rows in
    non-increasing order of the column, and nothing about rows that compare
    equal (only [kind='mergesort'] and [kind='stable'] are stable). *)
Class Pandas : Type := {
  sort_values_desc : forall A : Type, (A -> R) -> list A -> list A;
  sort_values_perm : forall A (key : A -> R) l,
      Permutation l (sort_values_desc A key l);
  sort_values_sorted : forall A (key : A -> R) l,
      sorted_desc key (sort_values_desc A key l)
}.
Arguments sort_values_desc {_} {A} key l.

(** ** Great-circle distance *)

(** [np.radians]. *)
Definition radians (deg : R) : R := deg * PI / 180.

(** Lines 118-125 of [create_zones] for one centre: haversine distance in
    kilometres from the commune to the centre, Earth radius 6371 km. *)
Definition haversine_km (comm_lat comm_lon center_lat center_lon : R) : R :=
  let dlat := radians (center_lat - comm_lat) in
  let dlon := radians (center_lon - comm_lon) in
  let a := (sin (dlat / 2)) ^ 2 +
           cos (radians comm_lat) * cos (radians center_lat) *
           (sin (dlon / 2)) ^ 2 in
  let c := 2 * asin (sqrt a) in
  6371 * c.

(** ** The analyzer object *)

Record ZoneAnalyzer : Type := mkZoneAnalyzer {
  data : list Commune.t;
  zones : option (list Zone.t);
  scored_zones : option (list Ranked.t);
  national_median_income : R;
  national_median_houses_pct : R
}.

(** [ZoneAnalyzer.__init__]: the national statistics are computed here, from
    the whole table. *)
Definition __init__ (d : list Commune.t) : ZoneAnalyzer :=
  {| data := d;
     zones := None;
     scored_zones := None;
     national_median_income := series_median (map Commune.revenu_median d);
     national_median_houses_pct := series_median (map Commune.pct_maisons d) |}.

Definition set_zones (self : ZoneAnalyzer) (z : list Zone.t) : ZoneAnalyzer :=
  {| data := data self;
     zones := Some z;
     scored_zones := scored_zones self;
     national_median_income := national_median_income self;
     national_median_houses_pct := national_median_houses_pct self |}.

Definition set_scored_zones (self : ZoneAnalyzer) (z : list Ranked.t)
  : ZoneAnalyzer :=
  {| data := data self;
     zones := zones self;
     scored_zones := Some z;
     national_median_income := national_median_income self;
     national_median_houses_pct := national_median_houses_pct self |}.

(** A method returns its value together with the analyzer it leaves behind,
    or raises. *)
Definition method (A : Type) : Type := ZoneAnalyzer -> result (A * ZoneAnalyzer).

(** ** Commune filter *)

Definition eligible_commune (c : Commune.t) : bool :=
  Rge_bool (Commune.pct_maisons c) 20 &&
  Rge_bool (Commune.pct_residences_principales c) 50 &&
  Rge_bool (Commune.nb_menages c) 100.

Definition filter_eligible_communes (self : ZoneAnalyzer) : list Commune.t :=
  filter eligible_commune (data self).

(** ** Zone assignment *)

(** Lines 79-83: the city centres. *)
Definition select_city_centers (eligible : list Commune.t) : list Commune.t :=
  match filter (fun c => Rge_bool (Commune.population_totale c) 1000) eligible with
  | [] => nlargest 100 Commune.population_totale eligible
  | city_centers => city_centers
  end.

(** Lines 118-125: the distances from one commune to all centres. *)
Definition distances_to (city_centers : list Commune.t) (commune : Commune.t)
  : list R :=
  map (fun k => haversine_km (Commune.latitude commune)
                             (Commune.longitude commune)
                             (Commune.latitude k) (Commune.longitude k))
      city_centers.

(** Lines 114-136: the body of the loop for one commune.  [center_names]
    is indexed at [argmin], which is always in range. *)
Definition assign_commune (city_centers : list Commune.t) (max_radius_km : R)
    (commune : Commune.t) : result (option Assignment.t) :=
  let center_names := map Commune.nom_commune city_centers in
  let distances := distances_to city_centers commune in
  min_distance <- array_min distances ;;
  if Rle_bool min_distance max_radius_km then
    let nearest_idx := argmin distances in
    Ok (Some {| Assignment.commune := commune;
                Assignment.zone_id := nearest_idx;
                Assignment.distance_to_center := min_distance;
                Assignment.center_commune :=
                  nth nearest_idx center_names EmptyString |})
  else Ok None.

(** Lines 101-136: the loop over the eligible rows, in row order. *)
Fixpoint assign_communes (city_centers : list Commune.t) (max_radius_km : R)
    (eligible : list Commune.t) : result (list Assignment.t) :=
  match eligible with
  | [] => Ok []
  | commune :: rest =>
      a <- assign_commune city_centers max_radius_km commune ;;
      l <- assign_communes city_centers max_radius_km rest ;;
      Ok (match a with Some x => x :: l | None => l end)
  end.

(** ** Zone aggregation *)

(** Python's [sorted] on strings (code-point order, which is the byte order
    of the UTF-8 encoding). *)
Definition sorted (l : list string) : list string := sort_le String.leb l.

(** [str(n)] for a non-negative integer. *)
Definition str (n : nat) : string := NilZero.string_of_uint (Nat.to_uint n).

Definition format_zone_name (commune_list : list string) : string :=
  let communes := sorted commune_list in
  if (length communes <=? 3)%nat
  then String.concat ", " communes
  else String.concat ", " (firstn 3 communes) ++ " + " ++
       str (length communes - 3) ++ " autres".

(** The group keys of [groupby('zone_id')]: distinct, ascending. *)
Fixpoint insert_key (k : nat) (ks : list nat) : list nat :=
  match ks with
  | [] => [k]
  | h :: t =>
      if (k <? h)%nat then k :: ks
      else if (k =? h)%nat then ks
      else h :: insert_key k t
  end.

Definition group_keys (ids : list nat) : list nat := fold_right insert_key [] ids.

(** The rows of one group, in the order of the frame. *)
Definition group_of (zones_df : list Assignment.t) (k : nat) : list Assignment.t :=
  filter (fun a => (Assignment.zone_id a =? k)%nat) zones_df.

Definition groupby_zone_id (zones_df : list Assignment.t)
  : list (nat * list Assignment.t) :=
  map (fun k => (k, group_of zones_df k))
      (group_keys (map Assignment.zone_id zones_df)).

(** ['first'] on a string column. *)
Definition first (l : list string) : string := hd EmptyString l.

Section Aggregation.
Context {U : Utils}.

(** Lines 178-201: [agg_funcs] applied to one group, the renaming of the
    count column and the region column. *)
Definition agg_zone (k : nat) (members : list Assignment.t) : Zone.t :=
  let col {B} (f : Commune.t -> B) := map (fun a => f (Assignment.commune a)) members in
  let dept := first (col Commune.code_departement) in
  {| Zone.zone_id := k;
     Zone.nb_communes := length (col Commune.code_commune);
     Zone.nom_commune := format_zone_name (col Commune.nom_commune);
     Zone.population_totale := series_sum (col Commune.population_totale);
     Zone.nb_menages := series_sum (col Commune.nb_menages);
     Zone.nb_maisons_individuelles := series_sum (col Commune.nb_maisons_individuelles);
     Zone.latitude := series_mean (col Commune.latitude);
     Zone.longitude := series_mean (col Commune.longitude);
     Zone.pct_maisons := series_mean (col Commune.pct_maisons);
     Zone.pct_residences_principales :=
       series_mean (col Commune.pct_residences_principales);
     Zone.revenu_median := series_median (col Commune.revenu_median);
     Zone.niveau_vie_median := series_median (col Commune.niveau_vie_median);
     Zone.taux_pauvrete := series_mean (col Commune.taux_pauvrete);
     Zone.code_departement := dept;
     Zone.center_commune := first (map Assignment.center_commune members);
     Zone.region := get_region_from_department dept |}.

(** Lines 195-201: the aggregated table before the zone-level criteria. *)
Definition aggregated (zones_df : list Assignment.t) : list Zone.t :=
  map (fun g => agg_zone (fst g) (snd g)) (groupby_zone_id zones_df).

(** Lines 205-209: the zone-level criteria. *)
Definition zone_criteria (z : Zone.t) : bool :=
  Rge_bool (Zone.pct_maisons z) 50 &&
  Rge_bool (Zone.pct_residences_principales z) 70 &&
  (2 <=? Zone.nb_communes z)%nat.

Definition _aggregate_zones (zones_df : list Assignment.t) : list Zone.t :=
  filter zone_criteria (aggregated zones_df).

(** ** [create_zones] *)

(** Both [pd.DataFrame()] and a frame whose rows were all filtered out are
    the empty list.  [self.zones] is assigned only on the last path.  The
    Streamlit progress display, which the source wraps in [try]/[except],
    does not touch the result and is left out. *)
Definition create_zones (max_radius_km : option R) : method (list Zone.t) :=
  fun self =>
  let max_radius_km := match max_radius_km with None => 15 | Some r => r end in
  let eligible := filter_eligible_communes self in
  match eligible with
  | [] => Ok ([], self)
  | _ :: _ =>
      let city_centers := select_city_centers eligible in
      commune_assignments <-
        assign_communes city_centers max_radius_km eligible ;;
      match commune_assignments with
      | [] => Ok ([], self)
      | _ :: _ =>
          let zs := _aggregate_zones commune_assignments in
          Ok (zs, set_zones self zs)
      end
  end.

End Aggregation.

(** ** Scoring *)

Definition clamp (x lo hi : R) : R := Rmax lo (Rmin x hi).

(** Modelled from the spec: [utils.normalize_score], whose file is not part
    of the modelled sources.  The specification gives it as
    [100 * clamp((value - lower) / (upper - lower), 0, 1)], and for equal
    bounds as 100 when the value is at least the bound and 0 otherwise. *)
Definition normalize_score (value lower_bound upper_bound : R) : R :=
  if Req_dec_T lower_bound upper_bound
  then (if Rle_dec lower_bound value then 100 else 0)
  else 100 * clamp ((value - lower_bound) / (upper_bound - lower_bound)) 0 1.

(** The call on an array of values with scalar bounds. *)
Definition normalize_scores (values : list R) (lower_bound upper_bound : R)
  : list R :=
  map (fun v => normalize_score v lower_bound upper_bound) values.

(** [np.log1p]. *)
Definition log1p (x : R) : R := ln (1 + x).

(** Element-wise combination of two arrays of the same length. *)
Fixpoint zip_with {A B C} (f : A -> B -> C) (l1 : list A) (l2 : list B)
  : list C :=
  match l1, l2 with
  | a :: t1, b :: t2 => f a b :: zip_with f t1 t2
  | _, _ => []
  end.

(** Lines 273-277 and 280-284 of [_score_housing]. *)
Definition houses_score (zones : list Zone.t) : list R :=
  let pct := map Zone.pct_maisons zones in
  normalize_scores pct (series_min pct) (series_max pct).

Definition primary_score (zones : list Zone.t) : list R :=
  let pct := map Zone.pct_residences_principales zones in
  normalize_scores pct (series_min pct) (series_max pct).

Definition _score_housing (zones : list Zone.t) : list R :=
  zip_with (fun h p => h * 0.6 + p * 0.4) (houses_score zones) (primary_score zones).

(** Lines 338-342 and 345-349 of [_score_income]. *)
Definition income_score (self : ZoneAnalyzer) (zones : list Zone.t) : list R :=
  normalize_scores (map Zone.revenu_median zones)
                   (national_median_income self * 0.8)
                   (national_median_income self * 1.5).

Definition poverty_penalty (zones : list Zone.t) : list R :=
  let taux := map Zone.taux_pauvrete zones in
  normalize_scores (map Ropp taux) (- series_max taux) (- series_min taux).

Definition _score_income (self : ZoneAnalyzer) (zones : list Zone.t) : list R :=
  zip_with (fun i p => i * 0.7 + p * 0.3) (income_score self zones)
           (poverty_penalty zones).

Section Scoring.
Context {C : Config} {U : Utils} {P : Pandas}.

Definition _score_market_size (zones : list Zone.t) : list R :=
  let menages := map Zone.nb_menages zones in
  normalize_scores (map log1p menages)
                   (log1p MIN_HOUSEHOLDS)
                   (log1p (series_max menages)).

(** Lines 237-250: the three score columns are attached row by row, then
    [score_total] and [potential_clients] are derived from them. *)
Fixpoint add_score_columns (zones : list Zone.t) (housing income market : list R)
  : list Scored.t :=
  match zones, housing, income, market with
  | z :: zs, h :: hs, i :: is_, m :: ms =>
      {| Scored.zone := z;
         Scored.score_housing := h;
         Scored.score_income := i;
         Scored.score_market_size := m;
         Scored.score_total := h * 0.40 + i * 0.30 + m * 0.30;
         Scored.potential_clients := Zone.nb_menages z * TARGET_CONVERSION_RATE |}
      :: add_score_columns zs hs is_ ms
  | _, _, _, _ => []
  end.

(** Line 256: [zones['rank'] = range(1, len(zones) + 1)]. *)
Definition add_rank (zones : list Scored.t) : list Ranked.t :=
  zip_with Ranked.mk zones (seq 1 (length zones)).

(** Lines 237-256 on a non-empty zone table. *)
Definition score_and_rank (self : ZoneAnalyzer) (zones : list Zone.t)
  : list Ranked.t :=
  let scored := add_score_columns zones (_score_housing zones)
                                  (_score_income self zones)
                                  (_score_market_size zones) in
  add_rank (sort_values_desc Scored.score_total scored).

(** [self.zones is None or len(self.zones) == 0]. *)
Definition no_zones (self : ZoneAnalyzer) : bool :=
  match zones self with
  | None => true
  | Some [] => true
  | Some (_ :: _) => false
  end.

(** [calculate_scores].  When there is no zone table yet, or an empty one,
    [create_zones] is run with its default radius.  On the early returns
    (the second test of the source, on the copy of a table already known
    to have rows, never fires) [self.scored_zones] is left as it was.  The
    Streamlit warning is left out. *)
Definition calculate_scores : method (list Ranked.t) :=
  fun self =>
  self <- (if no_zones self
           then r <- create_zones None self ;; Ok (snd r)
           else Ok self) ;;
  match zones self with
  | None => Ok ([], self)
  | Some [] => Ok ([], self)
  | Some (z :: zs) =>
      let ranked := score_and_rank self (z :: zs) in
      Ok (ranked, set_scored_zones self ranked)
  end.

(** [get_zone_details].  The empty dictionary is [None]; a row's dictionary
    is the row.  Subscripting [self.scored_zones] while it is still [None]
    is a [TypeError]. *)
Definition get_zone_details (zone_id : nat) : method (option Ranked.t) :=
  fun self =>
  self <- match scored_zones self with
          | None => r <- calculate_scores self ;; Ok (snd r)
          | Some _ => Ok self
          end ;;
  match scored_zones self with
  | None => Raise TypeError
  | Some table =>
      let zone := filter (fun r => (Zone.zone_id (Scored.zone (Ranked.scored r))
                                    =? zone_id)%nat) table in
      match zone with
      | [] => Ok (None, self)
      | r :: _ => Ok (Some r, self)
      end
  end.

End Scoring.

(** * The rest of the analyzer, its caller and the map module *)

(** [DataFrame.head(n)]: the first [n] rows, or, for a negative [n], all
    rows but the last [-n]. *)
Definition head {A} (n : Z) (l : list A) : list A :=
  if (0 <=? n)%Z then firstn (Z.to_nat n) l
  else firstn (length l - Z.to_nat (- n)) l.

(** What [get_top_zones] can raise: [AttributeError], on [None.head], or
    whatever [calculate_scores] raised. *)
Inductive top_exn : Type :=
| AttributeError
| Propagated (e : exn).

Section TopZones.
Context {C : Config} {U : Utils} {P : Pandas}.

(** [get_top_zones] ([n] is 20 by default). *)
Definition get_top_zones (n : Z) (self : ZoneAnalyzer)
  : top_exn + (list Ranked.t * ZoneAnalyzer) :=
  match (match scored_zones self with
         | None => r <- calculate_scores self ;; Ok (snd r)
         | Some _ => Ok self
         end) with
  | Raise e => inl (Propagated e)
  | Ok self =>
      match scored_zones self with
      | None => inl AttributeError
      | Some table => inr (head n table, self)
      end
  end.

(** The cache of [st.cache_data] for [analyze_zones].  Streamlit builds the
    key from the arguments whose name does not start with an underscore:
    here [max_radius] alone, an integer of the sidebar slider; [_data] is
    not part of it. *)
Definition cache_data : Type := list (Z * list Ranked.t).

Fixpoint cache_lookup (max_radius : Z) (cache : cache_data)
  : option (list Ranked.t) :=
  match cache with
  | [] => None
  | (key, value) :: rest =>
      if (key =? max_radius)%Z then Some value else cache_lookup max_radius rest
  end.

(** [app.analyze_zones] under [@st.cache_data]: the table stored for the
    radius when there is one; otherwise a new analyzer, the zones at the
    radius of the sidebar, the scores, and the table is stored. *)
Definition analyze_zones (cache : cache_data) (_data : list Commune.t)
    (max_radius : Z) : result (list Ranked.t * cache_data) :=
  match cache_lookup max_radius cache with
  | Some scored_zones => Ok (scored_zones, cache)
  | None =>
      let analyzer := __init__ _data in
      zones <- create_zones (Some (IZR max_radius)) analyzer ;;
      scored_zones <- calculate_scores (snd zones) ;;
      Ok (fst scored_zones, (max_radius, fst scored_zones) :: cache)
  end.

End TopZones.

(** [st.sidebar.slider] on integers, as far as [app.main] depends on it:
    Streamlit raises [StreamlitAPIException] unless [min_value] is below
    [max_value] and the default value lies between them; otherwise the
    widget gives a value between the bounds. *)
Inductive widget_exn : Type := StreamlitAPIException.

Inductive top_n_widget : Type :=
| Slider (min_value max_value value step : Z)
| Fixed (top_n : Z).

Definition slider (min_value max_value value step : Z)
  : widget_exn + top_n_widget :=
  if ((min_value <? max_value) && (min_value <=? value) && (value <=? max_value))%Z
  then inr (Slider min_value max_value value step)
  else inl StreamlitAPIException.

(** The number of zones to display, lines 159-182 of [app.main]: a slider
    with its bounds, default and step, or the number of zones itself. *)
Definition choose_top_n (nb_zones : nat) : widget_exn + top_n_widget :=
  let n := Z.of_nat nb_zones in
  if (10 <=? n)%Z then slider 10 (Z.min 100 n) (Z.min 50 n) 10
  else if (1 <? n)%Z then slider 1 n n 1
  else inr (Fixed n).

(** [map_viz.get_color_for_score]. *)
Definition get_color_for_score (score : R) : string :=
  if Rge_bool score 80 then "#2E7D32"
  else if Rge_bool score 60 then "#66BB6A"
  else if Rge_bool score 40 then "#FDD835"
  else if Rge_bool score 20 then "#FB8C00"
  else "#E53935".

(** The arguments of [folium.CircleMarker] that [create_zone_map] computes
    from numbers; the popup and the tooltip, which are formatted texts, are
    not part of the model. *)
Record CircleMarker : Type := mkCircleMarker {
  location : R * R;
  radius : Z;
  color : string;
  fill_color : string;
  fill_opacity : R
}.

(** Lines 86-96 and 116-122 of [create_zone_map] for the row of index
    [idx]. *)
Definition zone_marker (top_n : option Z) (idx : nat) (row : Ranked.t)
  : CircleMarker :=
  let z := Scored.zone (Ranked.scored row) in
  let color := get_color_for_score (Scored.score_total (Ranked.scored row)) in
  let big := match top_n with
             | Some _ => (Z.of_nat idx <? 20)%Z
             | None => false
             end in
  {| location := (Zone.latitude z, Zone.longitude z);
     radius := if big then (15 + (20 - Z.of_nat idx))%Z else 10%Z;
     color := color;
     fill_color := color;
     fill_opacity := if big then 0.8 else 0.6 |}.

(** [map_viz.create_zone_map]: the circle markers added to the map, in the
    order of the rows.  The table is the one of [calculate_scores], whose
    index is 0, 1, ... after [reset_index]; the base map and the legend do
    not depend on the table. *)
Definition create_zone_map (zones_df : list Ranked.t) (top_n : option Z)
  : list CircleMarker :=
  let display_zones := match top_n with
                       | Some n => head n zones_df
                       | None => zones_df
                       end in
  zip_with (zone_marker top_n) (seq 0 (length display_zones)) display_zones.

(** [map_viz.create_heatmap]: the rows of [heat_data]. *)
Definition create_heatmap (zones_df : list Ranked.t) : list (R * R * R) :=
  map (fun row => (Zone.latitude (Scored.zone (Ranked.scored row)),
                   Zone.longitude (Scored.zone (Ranked.scored row)),
                   Scored.score_total (Ranked.scored row))) zones_df.

(** The keys of [groupby('region')]: the distinct regions, sorted. *)
Definition region_keys (regions : list string) : list string :=
  nodup string_dec (sorted regions).

Section RegionalChart.
Context {P : Pandas}.

(** [map_viz.create_regional_bar_chart]: the bars, as region and count.
    The counts of the regions among the first [top_n] zones are sorted by
    ascending count, that is by descending opposite of the count. *)
Definition create_regional_bar_chart (zones_df : list Ranked.t) (top_n : Z)
  : list (string * nat) :=
  let top_zones := head top_n zones_df in
  let region_of row := Zone.region (Scored.zone (Ranked.scored row)) in
  let region_counts :=
    map (fun r => (r, length (filter (fun row => String.eqb (region_of row) r)
                                     top_zones)))
        (region_keys (map region_of top_zones)) in
  sort_values_desc (fun rc => - INR (snd rc)) region_counts.

End RegionalChart.

(** * Vocabulary of the properties

    Names for what the properties speak about: the distance and the
    assignment row of a commune, the assignment table of [create_zones],
    the scored row of a zone, the analyzers the methods leave behind. *)

(** Distance from a commune to a centre. *)
Definition dist (commune center : Commune.t) : R :=
  haversine_km (Commune.latitude commune) (Commune.longitude commune)
               (Commune.latitude center) (Commune.longitude center).

(** The smallest distance from a commune to the centres. *)
Definition min_distance (city_centers : list Commune.t) (commune : Commune.t) : R :=
  series_min (distances_to city_centers commune).

(** The row the loop adds for a commune that is within the radius. *)
Definition assignment_of (city_centers : list Commune.t) (commune : Commune.t)
  : Assignment.t :=
  {| Assignment.commune := commune;
     Assignment.zone_id := argmin (distances_to city_centers commune);
     Assignment.distance_to_center := min_distance city_centers commune;
     Assignment.center_commune :=
       nth (argmin (distances_to city_centers commune))
           (map Commune.nom_commune city_centers) EmptyString |}.

Definition within_radius (city_centers : list Commune.t) (max_radius_km : R)
    (commune : Commune.t) : bool :=
  Rle_bool (min_distance city_centers commune) max_radius_km.

(** The radius [create_zones] works with. *)
Definition radius_of (max_radius_km : option R) : R :=
  match max_radius_km with None => 15 | Some r => r end.

(** The assignment table built by [create_zones]. *)
Definition assignments (max_radius_km : option R) (self : ZoneAnalyzer)
  : list Assignment.t :=
  let eligible := filter_eligible_communes self in
  let city_centers := select_city_centers eligible in
  map (assignment_of city_centers)
      (filter (within_radius city_centers (radius_of max_radius_km)) eligible).

Definition code_of (a : Assignment.t) : string :=
  Commune.code_commune (Assignment.commune a).

(** The median of a series: the middle of its sorted values, or the mean of
    the two middle ones. *)
Definition is_median (m : R) (l : list R) : Prop :=
  exists s, Permutation s l /\ Sorted Rle s /\
    m = if Nat.even (length l)
        then (nth (length l / 2 - 1) s 0 + nth (length l / 2) s 0) / 2
        else nth (length l / 2) s 0.

(** The readable name built from the member names: their sorted list,
    joined, cut after three names with the count of the others. *)
Definition is_readable_name (name : string) (names : list string) : Prop :=
  exists s, Permutation s names /\
    Sorted (fun a b => String.leb a b = true) s /\
    name = if (length names <=? 3)%nat
           then String.concat ", " s
           else String.concat ", " (firstn 3 s) ++ " + " ++
                str (length names - 3) ++ " autres".

(** The columns of a group. *)
Definition column {B} (f : Commune.t -> B) (members : list Assignment.t) : list B :=
  map (fun a => f (Assignment.commune a)) members.

(** What the aggregation promises of the row of a group. *)
Definition zone_row_of_members (z : Zone.t) (members : list Assignment.t) : Prop :=
  Zone.nb_communes z = length members /\
  is_readable_name (Zone.nom_commune z) (column Commune.nom_commune members) /\
  Zone.population_totale z = series_sum (column Commune.population_totale members) /\
  Zone.nb_menages z = series_sum (column Commune.nb_menages members) /\
  Zone.nb_maisons_individuelles z =
    series_sum (column Commune.nb_maisons_individuelles members) /\
  Zone.pct_maisons z =
    series_sum (column Commune.pct_maisons members) / INR (length members) /\
  Zone.pct_residences_principales z =
    series_sum (column Commune.pct_residences_principales members)
    / INR (length members) /\
  Zone.taux_pauvrete z =
    series_sum (column Commune.taux_pauvrete members) / INR (length members) /\
  is_median (Zone.revenu_median z) (column Commune.revenu_median members) /\
  is_median (Zone.niveau_vie_median z) (column Commune.niveau_vie_median members) /\
  Zone.latitude z =
    series_sum (column Commune.latitude members) / INR (length members) /\
  Zone.longitude z =
    series_sum (column Commune.longitude members) / INR (length members) /\
  exists a rest,
    members = a :: rest /\
    Zone.code_departement z = Commune.code_departement (Assignment.commune a) /\
    Zone.center_commune z = Assignment.center_commune a.

Definition meets_zone_criteria (z : Zone.t) : Prop :=
  (2 <= Zone.nb_communes z)%nat /\
  50 <= Zone.pct_maisons z /\
  70 <= Zone.pct_residences_principales z.

Definition in_0_100 (x : R) : Prop := 0 <= x <= 100.

Definition total_of (row : Ranked.t) : R := Scored.score_total (Ranked.scored row).

(** The housing score of one zone of a zone set. *)
Definition housing_of (zones : list Zone.t) (z : Zone.t) : R :=
  normalize_score (Zone.pct_maisons z)
                  (series_min (map Zone.pct_maisons zones))
                  (series_max (map Zone.pct_maisons zones)) * 0.6 +
  normalize_score (Zone.pct_residences_principales z)
                  (series_min (map Zone.pct_residences_principales zones))
                  (series_max (map Zone.pct_residences_principales zones)) * 0.4.

(** The income score of one zone of a zone set. *)
Definition income_of (self : ZoneAnalyzer) (zones : list Zone.t) (z : Zone.t) : R :=
  normalize_score (Zone.revenu_median z)
                  (national_median_income self * 0.8)
                  (national_median_income self * 1.5) * 0.7 +
  normalize_score (- Zone.taux_pauvrete z)
                  (- series_max (map Zone.taux_pauvrete zones))
                  (- series_min (map Zone.taux_pauvrete zones)) * 0.3.

Section ScoringVocabulary.
Context {C : Config} {U : Utils} {P : Pandas}.

(** The market-size score of one zone of a zone set. *)
Definition market_of (zones : list Zone.t) (z : Zone.t) : R :=
  normalize_score (log1p (Zone.nb_menages z))
                  (log1p MIN_HOUSEHOLDS)
                  (log1p (series_max (map Zone.nb_menages zones))).

(** The scored row of one zone of a zone set. *)
Definition scored_row (self : ZoneAnalyzer) (zones : list Zone.t) (z : Zone.t)
  : Scored.t :=
  {| Scored.zone := z;
     Scored.score_housing := housing_of zones z;
     Scored.score_income := income_of self zones z;
     Scored.score_market_size := market_of zones z;
     Scored.score_total := housing_of zones z * 0.40 + income_of self zones z * 0.30
                           + market_of zones z * 0.30;
     Scored.potential_clients := Zone.nb_menages z * TARGET_CONVERSION_RATE |}.

(** The analyzer left by [create_zones]. *)
Definition after_create_zones (max_radius_km : option R) (self : ZoneAnalyzer)
  : ZoneAnalyzer :=
  match assignments max_radius_km self with
  | [] => self
  | _ :: _ => set_zones self (_aggregate_zones (assignments max_radius_km self))
  end.

(** The analyzer [calculate_scores] scores: the one it was called on, or the
    one left by its own run of [create_zones] at the default radius. *)
Definition scoring_input (self : ZoneAnalyzer) : ZoneAnalyzer :=
  if no_zones self then after_create_zones None self else self.

End ScoringVocabulary.


(** Rows with equal [score_total] keep the order they had in the zone
    table: of two such rows, the one higher in the ranked table comes from
    the zone higher in the zone table. *)
Definition ties_keep_prior_order (zs : list Zone.t) (out : list Ranked.t) : Prop :=
  forall i j d, (i < j < length out)%nat ->
    total_of (nth i out d) = total_of (nth j out d) ->
    exists i' j', (i' < j')%nat /\
      nth_error zs i' = Some (Scored.zone (Ranked.scored (nth i out d))) /\
      nth_error zs j' = Some (Scored.zone (Ranked.scored (nth j out d))).

Definition has_zone_id (zone_id : nat) (row : Ranked.t) : bool :=
  (Zone.zone_id (Scored.zone (Ranked.scored row)) =? zone_id)%nat.

Definition ends_with (suffix s : string) : bool :=
  (String.length suffix <=? String.length s)%nat &&
  String.eqb (substring (String.length s - String.length suffix)
                        (String.length suffix) s)
             suffix.

(** The quantity [a] of lines 121-123. *)
Definition haversine_a (comm_lat comm_lon center_lat center_lon : R) : R :=
  (sin (radians (center_lat - comm_lat) / 2)) ^ 2 +
  cos (radians comm_lat) * cos (radians center_lat) *
  (sin (radians (center_lon - comm_lon) / 2)) ^ 2.

Definition zone_id_of (row : Ranked.t) : nat :=
  Zone.zone_id (Scored.zone (Ranked.scored row)).

(** The zone table, when there is one, has strictly increasing zone ids. *)
Definition zones_sorted (self : ZoneAnalyzer) : Prop :=
  match zones self with
  | Some zs => StronglySorted lt (map Zone.zone_id zs)
  | None => True
  end.

(** The classes of the legend, from red (0) to dark green (4). *)
Definition color_class (c : string) : nat :=
  if String.eqb c "#2E7D32" then 4
  else if String.eqb c "#66BB6A" then 3
  else if String.eqb c "#FDD835" then 2
  else if String.eqb c "#FB8C00" then 1
  else 0.

(** The displayed rows. *)
Definition displayed (zones_df : list Ranked.t) (top_n : option Z) : list Ranked.t :=
  match top_n with
  | Some n => head n zones_df
  | None => zones_df
  end.

(** The radius of the marker of index [i]. *)
Definition marker_radius (top_n : option Z) (i : nat) : Z :=
  match top_n with
  | Some _ => if (i <? 20)%nat then (35 - Z.of_nat i)%Z else 10%Z
  | None => 10%Z
  end.

Definition region_of (row : Ranked.t) : string :=
  Zone.region (Scored.zone (Ranked.scored row)).

Definition rows_of_region (rows : list Ranked.t) (r : string) : list Ranked.t :=
  filter (fun row => String.eqb (region_of row) r) rows.

(** The values the sidebar can give for [top_n]. *)
Definition possible_top_n (w : top_n_widget) (top_n : Z) : Prop :=
  match w with
  | Slider min_value max_value _ _ => (min_value <= top_n <= max_value)%Z
  | Fixed n => top_n = n
  end.

Section StoredVocabulary.
Context {C : Config} {U : Utils} {P : Pandas}.

(** The analyzer left by [calculate_scores]. *)
Definition after_calculate_scores (self : ZoneAnalyzer) : ZoneAnalyzer :=
  match zones (scoring_input self) with
  | Some (z :: zs) =>
      set_scored_zones (scoring_input self)
                       (score_and_rank (scoring_input self) (z :: zs))
  | _ => scoring_input self
  end.

(** The table returned by [calculate_scores]. *)
Definition scored_table (self : ZoneAnalyzer) : list Ranked.t :=
  match zones (scoring_input self) with
  | Some (z :: zs) => score_and_rank (scoring_input self) (z :: zs)
  | _ => []
  end.

(** The table scored when the zones are [zs]. *)
Definition scored_or_empty (d : list Commune.t) (zs : list Zone.t) : list Ranked.t :=
  match zs with
  | [] => []
  | _ :: _ => score_and_rank (__init__ d) zs
  end.

End StoredVocabulary.

(** * Example tables *)

Definition demo_config : Config :=
  {| MIN_HOUSEHOLDS := 1000; TARGET_CONVERSION_RATE := 0.02 |}.

Definition demo_utils : Utils :=
  {| get_region_from_department := fun _ => "Auvergne-Rhone-Alpes" |}.

Definition demo_commune (code name : string) (lat pop menages : R) : Commune.t :=
  {| Commune.code_commune := code;
     Commune.nom_commune := name;
     Commune.latitude := lat;
     Commune.longitude := 4.7;
     Commune.population_totale := pop;
     Commune.nb_menages := menages;
     Commune.nb_maisons_individuelles := 400;
     Commune.pct_maisons := 60;
     Commune.pct_residences_principales := 80;
     Commune.revenu_median := 22000;
     Commune.niveau_vie_median := 28600;
     Commune.taux_pauvrete := 14;
     Commune.code_departement := "69" |}.

Definition arnas : Commune.t := demo_commune "69013" "Arnas" 46 3000 1200.

Definition blace : Commune.t := demo_commune "69023" "Blace" 46 600 250.

Definition macon : Commune.t := demo_commune "71270" "Macon" 47 3000 1200.

Definition sance : Commune.t := demo_commune "71497" "Sance" 47 600 250.

(** Forty households: below the commune-level threshold. *)
Definition hamlet : Commune.t := demo_commune "69999" "Hameau" 46 80 40.

Definition two_communes : list Commune.t := [arnas; blace].

Definition four_communes : list Commune.t := [arnas; blace; macon; sance].

(** One degree of latitude, in kilometres. *)
Definition one_degree_km : R := 6371 * (1 * PI / 180).

Definition zone_arnas : list Assignment.t :=
  [assignment_of [arnas] arnas; assignment_of [arnas] blace].

Definition zone_south : list Assignment.t :=
  [Assignment.mk arnas 0 0 "Arnas"; Assignment.mk blace 0 0 "Arnas"].

Definition zone_north : list Assignment.t :=
  [Assignment.mk macon 1 0 "Macon"; Assignment.mk sance 1 0 "Macon"].

(** Four communes assigned to the zone of Arnas. *)
Definition zone_of_four : list Assignment.t :=
  [Assignment.mk sance 0 0 "Arnas"; Assignment.mk macon 0 0 "Arnas";
   Assignment.mk blace 0 0 "Arnas"; Assignment.mk arnas 0 0 "Arnas"].

Definition south : Zone.t := @agg_zone demo_utils 0 zone_south.

Definition north : Zone.t := @agg_zone demo_utils 1 zone_north.

Definition demo_rows : list Ranked.t :=
  [Ranked.mk (Scored.mk south 70 60 50 61 24) 1;
   Ranked.mk (Scored.mk north 60 50 40 51 24) 2].

(** A commune 0.1 degree north of Arnas: between 10 and 15 km away. *)
Definition cogny : Commune.t := demo_commune "69061" "Cogny" 46.1 600 250.

Definition arnas_cogny : list Commune.t := [arnas; cogny].

Definition zone_arnas_alone : list Assignment.t := [assignment_of [arnas] arnas].

Definition zone_arnas_cogny : list Assignment.t :=
  [assignment_of [arnas] arnas; assignment_of [arnas] cogny].

(** A commune like those above, with 80 % of houses instead of 60 %. *)
Definition house_commune (code name : string) (lat pop menages : R) : Commune.t :=
  {| Commune.code_commune := code;
     Commune.nom_commune := name;
     Commune.latitude := lat;
     Commune.longitude := 4.7;
     Commune.population_totale := pop;
     Commune.nb_menages := menages;
     Commune.nb_maisons_individuelles := 400;
     Commune.pct_maisons := 80;
     Commune.pct_residences_principales := 80;
     Commune.revenu_median := 22000;
     Commune.niveau_vie_median := 28600;
     Commune.taux_pauvrete := 14;
     Commune.code_departement := "69" |}.

Definition troyes : Commune.t := house_commune "10387" "Troyes" 48 3000 1200.

Definition lavau : Commune.t := house_commune "10191" "Lavau" 48 600 250.

Definition reims : Commune.t := house_commune "51454" "Reims" 49 3000 1200.

Definition bezannes : Commune.t := house_commune "51058" "Bezannes" 49 600 250.

(** Four centres one degree of latitude apart, each with a second commune
    at the same place; the last two pairs have more houses. *)
Definition eight_communes : list Commune.t :=
  [arnas; blace; macon; sance; troyes; lavau; reims; bezannes].

Definition centers_of_eight : list Commune.t := [arnas; macon; troyes; reims].

(** The two rows of the zone of a centre and of the commune next to it. *)
Definition zone_rows (k : nat) (center other : Commune.t) : list Assignment.t :=
  [Assignment.mk center k 0 (Commune.nom_commune center);
   Assignment.mk other k 0 (Commune.nom_commune center)].

Definition rows_of_eight : list Assignment.t :=
  (zone_rows 0 arnas blace ++ zone_rows 1 macon sance ++
   zone_rows 2 troyes lavau ++ zone_rows 3 reims bezannes)%list.

Definition zone_0 : Zone.t := @agg_zone demo_utils 0 (zone_rows 0 arnas blace).

Definition zone_1 : Zone.t := @agg_zone demo_utils 1 (zone_rows 1 macon sance).

Definition zone_2 : Zone.t := @agg_zone demo_utils 2 (zone_rows 2 troyes lavau).

Definition zone_3 : Zone.t := @agg_zone demo_utils 3 (zone_rows 3 reims bezannes).

Definition zones_of_eight : list Zone.t := [zone_0; zone_1; zone_2; zone_3].
(** * Properties *)

(** ** Comparisons *)

Lemma Rge_bool_true x y : Rge_bool x y = true <-> y <= x.
Proof. unfold Rge_bool; destruct (Rle_dec y x); split; auto; discriminate. Qed.

Lemma Rge_bool_false x y : Rge_bool x y = false <-> x < y.
Proof.
  unfold Rge_bool; destruct (Rle_dec y x); split; intros; try discriminate; lra.
Qed.

Lemma Rle_bool_true x y : Rle_bool x y = true <-> x <= y.
Proof. unfold Rle_bool; destruct (Rle_dec x y); split; auto; discriminate. Qed.

Lemma Rle_bool_false x y : Rle_bool x y = false <-> y < x.
Proof.
  unfold Rle_bool; destruct (Rle_dec x y); split; intros; try discriminate; lra.
Qed.

Lemma Rlt_bool_true x y : Rlt_bool x y = true <-> x < y.
Proof. unfold Rlt_bool; destruct (Rlt_dec x y); split; auto; discriminate. Qed.

Lemma Rlt_bool_false x y : Rlt_bool x y = false <-> y <= x.
Proof.
  unfold Rlt_bool; destruct (Rlt_dec x y); split; intros; try discriminate; lra.
Qed.

(** ** Minimum and argmin of an array *)

Lemma fold_Rmin_le_init t x : fold_left Rmin t x <= x.
Proof.
  revert x; induction t as [|y t IH]; intros x; simpl.
  - lra.
  - eapply Rle_trans; [apply IH | apply Rmin_l].
Qed.

Lemma fold_Rmin_le_elem t x y : In y t -> fold_left Rmin t x <= y.
Proof.
  revert x; induction t as [|z t IH]; intros x Hin; simpl in *.
  - contradiction.
  - destruct Hin as [->|Hin].
    + eapply Rle_trans; [apply fold_Rmin_le_init | apply Rmin_r].
    + now apply IH.
Qed.

Lemma fold_Rmin_In t x : In (fold_left Rmin t x) (x :: t).
Proof.
  revert x; induction t as [|y t IH]; intros x; simpl.
  - now left.
  - destruct (IH (Rmin x y)) as [H|H].
    + rewrite <- H. unfold Rmin. destruct (Rle_dec x y); auto.
    + auto.
Qed.



Lemma fold_Rmax_In t x : In (fold_left Rmax t x) (x :: t).
Proof.
  revert x; induction t as [|y t IH]; intros x; simpl.
  - now left.
  - destruct (IH (Rmax x y)) as [H|H].
    + rewrite <- H. unfold Rmax. destruct (Rle_dec x y); auto.
    + auto.
Qed.

Lemma series_min_le l x : In x l -> series_min l <= x.
Proof.
  destruct l as [|y t]; simpl; [contradiction|].
  intros [->|H]; [apply fold_Rmin_le_init | now apply fold_Rmin_le_elem].
Qed.


Lemma series_min_In l : l <> [] -> In (series_min l) l.
Proof. destruct l; [congruence|]; intros _; apply fold_Rmin_In. Qed.

Lemma series_max_In l : l <> [] -> In (series_max l) l.
Proof. destruct l; [congruence|]; intros _; apply fold_Rmax_In. Qed.

Lemma array_min_series_min l : l <> [] -> array_min l = Ok (series_min l).
Proof. destruct l; [congruence | reflexivity]. Qed.

Lemma argmin_from_spec t :
  forall best_i best i,
    (argmin_from best_i best i t = best_i /\ fold_left Rmin t best = best) \/
    (exists n, argmin_from best_i best i t = (i + n)%nat /\ (n < length t)%nat /\
               nth n t 0 = fold_left Rmin t best).
Proof.
  induction t as [|x t IH]; intros best_i best i; simpl.
  - left; split; reflexivity.
  - destruct (Rlt_bool x best) eqn:E.
    + apply Rlt_bool_true in E.
      replace (Rmin best x) with x by (rewrite Rmin_right; lra).
      right. destruct (IH i x (S i)) as [[H1 H2]|[n [H1 [H2 H3]]]].
      * exists O. rewrite H1, H2. repeat split; lia.
      * exists (S n). rewrite H1. repeat split; [lia | lia | exact H3].
    + apply Rlt_bool_false in E.
      replace (Rmin best x) with best by (rewrite Rmin_left; lra).
      destruct (IH best_i best (S i)) as [[H1 H2]|[n [H1 [H2 H3]]]].
      * left; split; assumption.
      * right. exists (S n). rewrite H1. repeat split; [lia | lia | exact H3].
Qed.

Lemma argmin_lt_length l : l <> [] -> (argmin l < length l)%nat.
Proof.
  destruct l as [|x t]; [congruence|]; intros _; simpl.
  destruct (argmin_from_spec t O x 1%nat) as [[H _]|[n [H [Hn _]]]]; rewrite H; lia.
Qed.

Lemma nth_argmin l : l <> [] -> nth (argmin l) l 0 = series_min l.
Proof.
  destruct l as [|x t]; [congruence|]; intros _; simpl.
  destruct (argmin_from_spec t O x 1%nat) as [[H H']|[n [H [Hn H']]]]; rewrite H.
  - symmetry; exact H'.
  - simpl. exact H'.
Qed.

(** ** Insertion sorts *)

Lemma insert_by_perm {A} past (key : A -> R) x l :
  Permutation (x :: l) (insert_by past key x l).
Proof.
  induction l as [|y t IH]; simpl.
  - apply Permutation_refl.
  - destruct (past (key x) (key y)).
    + eapply Permutation_trans; [apply perm_swap | apply perm_skip, IH].
    + apply Permutation_refl.
Qed.

Lemma sort_by_perm {A} past (key : A -> R) l : Permutation l (sort_by past key l).
Proof.
  induction l as [|x t IH]; simpl.
  - constructor.
  - eapply Permutation_trans; [apply perm_skip, IH | apply insert_by_perm].
Qed.

Section InsertionSorted.
Context {A : Type} (past : R -> R -> bool) (key : A -> R).
Hypothesis past_true : forall a b, past a b = true -> a <= b.
Hypothesis past_false : forall a b, past a b = false -> b <= a.

Lemma insert_by_sorted x l :
  sorted_desc key l -> sorted_desc key (insert_by past key x l).
Proof.
  unfold sorted_desc.
  induction l as [|y t IH]; intros Hs; simpl.
  - constructor; constructor.
  - destruct (past (key x) (key y)) eqn:E.
    + inversion Hs as [|? ? Ht Hall]; subst.
      constructor; [now apply IH|].
      eapply Permutation_Forall; [apply insert_by_perm|].
      constructor; [now apply past_true | assumption].
    + constructor; [assumption|].
      inversion Hs as [|? ? Ht Hall]; subst.
      apply past_false in E.
      constructor; [assumption|].
      eapply Forall_impl; [|exact Hall]. simpl; intros; lra.
Qed.

Lemma sort_by_sorted l : sorted_desc key (sort_by past key l).
Proof.
  induction l as [|x t IH]; simpl.
  - constructor.
  - now apply insert_by_sorted.
Qed.

End InsertionSorted.

Lemma sort_desc_stable_sorted {A} (key : A -> R) l :
  sorted_desc key (sort_desc_stable key l).
Proof.
  apply sort_by_sorted; intros a b H.
  - apply Rlt_bool_true in H; lra.
  - now apply Rlt_bool_false in H.
Qed.

Lemma sorted_desc_app {A} (key : A -> R) l1 l2 :
  sorted_desc key (l1 ++ l2) ->
  forall a b, In a l1 -> In b l2 -> key b <= key a.
Proof.
  unfold sorted_desc; induction l1 as [|x t IH]; simpl; intros Hs a b Ha Hb.
  - contradiction.
  - inversion Hs as [|? ? Ht Hall]; subst.
    destruct Ha as [->|Ha].
    + rewrite Forall_forall in Hall. apply Hall, in_or_app; now right.
    + now apply (IH Ht a b).
Qed.

(** [nlargest] keeps [min n (length l)] rows of [l], and every row it leaves
    out has a key no larger than each row it keeps. *)
Lemma nlargest_spec {A} n (key : A -> R) l :
  length (nlargest n key l) = Nat.min n (length l) /\
  exists rest, Permutation l (nlargest n key l ++ rest) /\
    forall a b, In a (nlargest n key l) -> In b rest -> key b <= key a.
Proof.
  unfold nlargest. split.
  - rewrite length_firstn. unfold sort_desc_stable.
    now rewrite <- (Permutation_length (sort_by_perm Rlt_bool key l)).
  - exists (skipn n (sort_desc_stable key l)). split.
    + rewrite firstn_skipn. apply sort_by_perm.
    + apply sorted_desc_app. rewrite firstn_skipn. apply sort_desc_stable_sorted.
Qed.

Lemma nlargest_nonempty {A} n (key : A -> R) l :
  (0 < n)%nat -> l <> [] -> nlargest n key l <> [].
Proof.
  intros Hn Hl H.
  pose proof (proj1 (nlargest_spec n key l)) as Hlen. rewrite H in Hlen.
  destruct l; [congruence|]. simpl in Hlen. lia.
Qed.

(** ** The assignment loop *)

Lemma distances_to_nonempty centers c : centers <> [] -> distances_to centers c <> [].
Proof. destruct centers; [congruence | discriminate]. Qed.

Lemma distances_to_length centers c : length (distances_to centers c) = length centers.
Proof. apply length_map. Qed.

Lemma assign_commune_eq centers r c :
  centers <> [] ->
  assign_commune centers r c =
  Ok (if within_radius centers r c then Some (assignment_of centers c) else None).
Proof.
  intros Hne. unfold assign_commune.
  rewrite array_min_series_min by now apply distances_to_nonempty.
  simpl. unfold within_radius, min_distance.
  destruct (Rle_bool _ r); reflexivity.
Qed.

(** With at least one centre the loop never raises, and it keeps, in row
    order, exactly the rows whose smallest distance is within the radius. *)
Lemma assign_communes_eq centers r eligible :
  centers <> [] ->
  assign_communes centers r eligible =
  Ok (map (assignment_of centers) (filter (within_radius centers r) eligible)).
Proof.
  intros Hne. induction eligible as [|c rest IH]; simpl.
  - reflexivity.
  - rewrite assign_commune_eq by assumption. rewrite IH. simpl.
    destruct (within_radius centers r c); reflexivity.
Qed.

Lemma select_city_centers_incl eligible c :
  In c (select_city_centers eligible) -> In c eligible.
Proof.
  unfold select_city_centers.
  destruct (filter _ eligible) as [|x t] eqn:E.
  - intros H. destruct (nlargest_spec 100 Commune.population_totale eligible)
      as [_ [rest [Hp _]]].
    eapply Permutation_in; [apply Permutation_sym, Hp|]. apply in_or_app; now left.
  - rewrite <- E. intros H. now apply filter_In in H.
Qed.

Lemma select_city_centers_nonempty eligible :
  eligible <> [] -> select_city_centers eligible <> [].
Proof.
  intros Hne. unfold select_city_centers.
  destruct (filter _ eligible) as [|x t] eqn:E.
  - apply nlargest_nonempty; [lia | assumption].
  - discriminate.
Qed.

Lemma assign_communes_create_zones max_radius_km self :
  assign_communes (select_city_centers (filter_eligible_communes self))
                  (radius_of max_radius_km) (filter_eligible_communes self)
  = Ok (assignments max_radius_km self).
Proof.
  unfold assignments.
  destruct (filter_eligible_communes self) as [|c rest] eqn:E.
  - reflexivity.
  - apply assign_communes_eq, select_city_centers_nonempty; discriminate.
Qed.

(** [create_zones] never raises; what it returns and what it stores depend
    only on the assignment table. *)
Lemma create_zones_eq {U : Utils} max_radius_km self :
  create_zones max_radius_km self =
  Ok (match assignments max_radius_km self with
      | [] => ([], self)
      | _ :: _ =>
          (_aggregate_zones (assignments max_radius_km self),
           set_zones self (_aggregate_zones (assignments max_radius_km self)))
      end).
Proof.
  unfold create_zones.
  pose proof (assign_communes_create_zones max_radius_km self) as H.
  unfold radius_of in H.
  destruct (filter_eligible_communes self) as [|c rest] eqn:E.
  - unfold assignments. rewrite E. reflexivity.
  - rewrite H. simpl. destruct (assignments max_radius_km self); reflexivity.
Qed.

(** The recorded distance is the distance to the centre whose position is
    the zone id, and no centre is nearer. *)
Lemma assignment_of_nearest centers c :
  centers <> [] ->
  exists k,
    nth_error centers (Assignment.zone_id (assignment_of centers c)) = Some k /\
    Assignment.distance_to_center (assignment_of centers c) = dist c k /\
    Assignment.center_commune (assignment_of centers c) = Commune.nom_commune k /\
    Forall (fun k' => dist c k <= dist c k') centers.
Proof.
  intros Hne. simpl.
  pose proof (distances_to_nonempty centers c Hne) as Hd.
  pose proof (argmin_lt_length _ Hd) as Hlt.
  rewrite distances_to_length in Hlt.
  destruct (nth_error centers (argmin (distances_to centers c))) as [k|] eqn:E.
  2:{ apply nth_error_None in E. lia. }
  exists k. split; [reflexivity|].
  assert (Hk : min_distance centers c = dist c k).
  { unfold min_distance. rewrite <- (nth_argmin _ Hd).
    apply nth_error_nth. unfold distances_to.
    now apply (map_nth_error (fun k => dist c k)). }
  split; [exact Hk|]. split.
  - apply nth_error_nth. now apply map_nth_error.
  - apply Forall_forall. intros k' Hin. rewrite <- Hk.
    apply series_min_le. unfold distances_to.
    now apply (in_map (fun k => dist c k)).
Qed.

(** ** Grouping by zone id *)

Lemma insert_key_In k ks x : In x (insert_key k ks) <-> x = k \/ In x ks.
Proof.
  induction ks as [|h t IH]; simpl.
  - intuition.
  - destruct (k <? h)%nat eqn:E1; [simpl; intuition|].
    destruct (k =? h)%nat eqn:E2.
    + apply Nat.eqb_eq in E2; subst. simpl; intuition.
    + simpl. rewrite IH. intuition.
Qed.

Lemma insert_key_sorted k ks :
  StronglySorted lt ks -> StronglySorted lt (insert_key k ks).
Proof.
  induction ks as [|h t IH]; intros Hs; simpl.
  - constructor; constructor.
  - inversion Hs as [|? ? Ht Hall]; subst.
    destruct (k <? h)%nat eqn:E1.
    + apply Nat.ltb_lt in E1. constructor; [assumption|].
      constructor; [assumption|].
      eapply Forall_impl; [|exact Hall]. simpl; intros; lia.
    + destruct (k =? h)%nat eqn:E2; [assumption|].
      apply Nat.ltb_ge in E1. apply Nat.eqb_neq in E2.
      constructor; [now apply IH|].
      apply Forall_forall. intros x Hx. apply insert_key_In in Hx.
      destruct Hx as [->|Hx]; [lia|].
      rewrite Forall_forall in Hall. now apply Hall.
Qed.

Lemma group_keys_In ids k : In k (group_keys ids) <-> In k ids.
Proof.
  induction ids as [|h t IH]; simpl.
  - tauto.
  - rewrite insert_key_In, IH. intuition.
Qed.

Lemma group_keys_sorted ids : StronglySorted lt (group_keys ids).
Proof.
  induction ids as [|h t IH]; simpl.
  - constructor.
  - now apply insert_key_sorted.
Qed.

Lemma StronglySorted_lt_NoDup l : StronglySorted lt l -> NoDup l.
Proof.
  induction 1 as [|x t Ht IH Hall]; constructor; [|assumption].
  intros Hin. rewrite Forall_forall in Hall. specialize (Hall x Hin). lia.
Qed.

Lemma group_keys_NoDup ids : NoDup (group_keys ids).
Proof. apply StronglySorted_lt_NoDup, group_keys_sorted. Qed.

Lemma group_of_In zones_df k a :
  In a (group_of zones_df k) <-> In a zones_df /\ Assignment.zone_id a = k.
Proof.
  unfold group_of. rewrite filter_In. now rewrite Nat.eqb_eq.
Qed.

Lemma group_of_nonempty zones_df k :
  In k (map Assignment.zone_id zones_df) -> group_of zones_df k <> [].
Proof.
  intros Hin. apply in_map_iff in Hin. destruct Hin as [a [Hk Ha]].
  intros E. assert (H : In a (group_of zones_df k)) by now apply group_of_In.
  rewrite E in H. exact H.
Qed.

Lemma groupby_zone_id_In zones_df k g :
  In (k, g) (groupby_zone_id zones_df) <->
  In k (map Assignment.zone_id zones_df) /\ g = group_of zones_df k.
Proof.
  unfold groupby_zone_id. rewrite in_map_iff. split.
  - intros [k' [E Hin]]. inversion E; subst. split; [|reflexivity].
    now apply group_keys_In.
  - intros [Hin ->]. exists k. split; [reflexivity|]. now apply group_keys_In.
Qed.

Lemma groupby_zone_id_keys zones_df :
  map fst (groupby_zone_id zones_df) = group_keys (map Assignment.zone_id zones_df).
Proof.
  unfold groupby_zone_id. rewrite map_map. simpl. apply map_id.
Qed.

(** ** The centre set and the nearest-centre rule (C1) *)

Lemma within_radius_true centers r c :
  within_radius centers r c = true <-> min_distance centers c <= r.
Proof. apply Rle_bool_true. Qed.

Lemma assignments_communes max_radius_km self :
  map Assignment.commune (assignments max_radius_km self) =
  filter (within_radius (select_city_centers (filter_eligible_communes self))
                        (radius_of max_radius_km))
         (filter_eligible_communes self).
Proof.
  unfold assignments. rewrite map_map. simpl. apply map_id.
Qed.

Lemma assignments_In max_radius_km self a :
  In a (assignments max_radius_km self) ->
  let centers := select_city_centers (filter_eligible_communes self) in
  a = assignment_of centers (Assignment.commune a) /\
  In (Assignment.commune a) (filter_eligible_communes self) /\
  min_distance centers (Assignment.commune a) <= radius_of max_radius_km /\
  centers <> [].
Proof.
  unfold assignments. intros Hin. apply in_map_iff in Hin.
  destruct Hin as [c [<- Hc]]. simpl.
  apply filter_In in Hc. destruct Hc as [Hel Hr].
  repeat split; try assumption.
  - now apply within_radius_true.
  - apply select_city_centers_nonempty. intros E. rewrite E in Hel. exact Hel.
Qed.

(** The smallest distance to the centres is within a bound exactly when
    some centre is. *)
Lemma min_distance_le_iff centers c r :
  centers <> [] ->
  min_distance centers c <= r <-> exists k, In k centers /\ dist c k <= r.
Proof.
  intros Hne. unfold min_distance. split.
  - intros Hr.
    pose proof (series_min_In _ (distances_to_nonempty centers c Hne)) as Hin.
    unfold distances_to in Hin at 2. apply in_map_iff in Hin.
    destruct Hin as [k [Ek Hk]]. exists k. split; [exact Hk|].
    unfold dist. rewrite Ek. exact Hr.
  - intros [k [Hk Hr]]. eapply Rle_trans; [|exact Hr].
    apply series_min_le. unfold distances_to.
    now apply (in_map (fun k => dist c k)).
Qed.

(** C1. [create_zones] takes as centres the eligible communes of population
    at least 1000, or, when there is none, the 100 eligible communes of
    highest population; it never raises.  The distance from a commune to a
    centre is the haversine distance on a sphere of radius 6371 km:
    6371 * 2 * arcsin (sqrt (sin^2 (dlat / 2) + cos lat1 * cos lat2 *
    sin^2 (dlon / 2))), the angles being the degrees times pi / 180.  The
    commune of a row of the assignment table is an eligible commune that
    has a centre within the radius (15 by default), that is, whose smallest
    distance to the centres is at most the radius; all such communes have a
    row, in row order, and every other commune has none; the row records,
    as zone id, the position of a centre no centre is nearer than, that
    centre's name and the distance to it, which is at most the radius. *)
Theorem create_zones_nearest_center_within_radius
    {U : Utils} (max_radius_km : option R) (self : ZoneAnalyzer) :
  let great_circle_km (c k : Commune.t) :=
    6371 * (2 * asin (sqrt (
      (sin ((Commune.latitude k - Commune.latitude c) * PI / 180 / 2)) ^ 2 +
      cos (Commune.latitude c * PI / 180) * cos (Commune.latitude k * PI / 180) *
      (sin ((Commune.longitude k - Commune.longitude c) * PI / 180 / 2)) ^ 2))) in
  let eligible := filter_eligible_communes self in
  let populous :=
    filter (fun c => Rge_bool (Commune.population_totale c) 1000) eligible in
  let centers := select_city_centers eligible in
  let radius := radius_of max_radius_km in
  let table := assignments max_radius_km self in
  radius_of None = 15 /\
  (forall c k, dist c k = great_circle_km c k) /\
  (forall c, distances_to centers c = map (great_circle_km c) centers) /\
  Forall (fun c => In c eligible /\ 1000 <= Commune.population_totale c) populous /\
  Forall (fun c => 1000 <= Commune.population_totale c -> In c populous) eligible /\
  match populous with
  | _ :: _ => centers = populous
  | [] =>
      length centers = Nat.min 100 (length eligible) /\
      exists rest, Permutation eligible (centers ++ rest) /\
        forall a b, In a centers -> In b rest ->
          Commune.population_totale b <= Commune.population_totale a
  end /\
  assign_communes centers radius eligible = Ok table /\
  create_zones max_radius_km self =
    Ok (match table with
        | [] => ([], self)
        | _ :: _ => (_aggregate_zones table, set_zones self (_aggregate_zones table))
        end) /\
  map Assignment.commune table =
    filter (fun c => Rle_bool (min_distance centers c) radius) eligible /\
  Forall (fun c => (In c (map Assignment.commune table) <->
                    min_distance centers c <= radius) /\
                   (In c (map Assignment.commune table) <->
                    exists k, In k centers /\ great_circle_km c k <= radius))
         eligible /\
  Forall (fun a =>
            exists k,
              nth_error centers (Assignment.zone_id a) = Some k /\
              Assignment.distance_to_center a = great_circle_km (Assignment.commune a) k /\
              Assignment.distance_to_center a = dist (Assignment.commune a) k /\
              Assignment.center_commune a = Commune.nom_commune k /\
              Forall (fun k' => great_circle_km (Assignment.commune a) k
                                <= great_circle_km (Assignment.commune a) k') centers /\
              Forall (fun k' => dist (Assignment.commune a) k
                                <= dist (Assignment.commune a) k') centers /\
              Assignment.distance_to_center a = min_distance centers (Assignment.commune a) /\
              Assignment.distance_to_center a <= radius) table.
Proof.
  intros great_circle_km eligible populous centers radius table.
  assert (Hgc : forall c k, dist c k = great_circle_km c k) by reflexivity.
  split; [reflexivity|].
  split; [exact Hgc|].
  split; [reflexivity|].
  split.
  { apply Forall_forall. intros c Hc. apply filter_In in Hc.
    destruct Hc as [H1 H2]. split; [assumption | now apply Rge_bool_true]. }
  split.
  { apply Forall_forall. intros c Hc Hp. apply filter_In.
    split; [assumption | now apply Rge_bool_true]. }
  split.
  { unfold centers, select_city_centers. fold populous.
    destruct populous as [|x t]; [|reflexivity].
    apply nlargest_spec. }
  split; [apply assign_communes_create_zones|].
  split; [apply create_zones_eq|].
  split; [apply assignments_communes|].
  split.
  { apply Forall_forall. intros c Hc.
    assert (Hiff : In c (map Assignment.commune table) <->
                   min_distance centers c <= radius).
    { unfold table.
      rewrite assignments_communes, filter_In, within_radius_true. tauto. }
    split; [exact Hiff|].
    rewrite Hiff. apply min_distance_le_iff.
    apply select_city_centers_nonempty. intros E. fold eligible in E.
    rewrite E in Hc. exact Hc. }
  apply Forall_forall. intros a Ha.
  destruct (assignments_In _ _ _ Ha) as [Ea [Hel [Hr Hne]]].
  destruct (assignment_of_nearest _ (Assignment.commune a) Hne)
    as [k [H1 [H2 [H3 H4]]]].
  fold centers in Ea, H1, H2, H3, H4, Hr. rewrite <- Ea in H1, H2, H3.
  exists k. repeat split; try assumption.
  - rewrite Ea. reflexivity.
  - rewrite Ea. exact Hr.
Qed.

(** ** Facts about the haversine distance *)

Lemma haversine_km_same_point lat lon : haversine_km lat lon lat lon = 0.
Proof.
  unfold haversine_km, radians.
  replace ((lat - lat) * PI / 180 / 2) with 0 by lra.
  replace ((lon - lon) * PI / 180 / 2) with 0 by lra.
  rewrite sin_0.
  replace (0 ^ 2 + cos (lat * PI / 180) * cos (lat * PI / 180) * 0 ^ 2) with 0 by ring.
  rewrite sqrt_0, asin_0. ring.
Qed.

Lemma dist_self c : dist c c = 0.
Proof. apply haversine_km_same_point. Qed.

(** A centre is at distance 0 from itself, so its smallest distance to the
    centres is at most 0. *)
Lemma min_distance_center centers c : In c centers -> min_distance centers c <= 0.
Proof.
  intros Hin. unfold min_distance. rewrite <- (dist_self c).
  apply series_min_le. unfold distances_to.
  now apply (in_map (fun k => dist c k)).
Qed.

(** With a non-negative radius every centre is assigned, so the assignment
    table is empty only when no commune is eligible. *)
Lemma assignments_nil_nonneg max_radius_km self :
  0 <= radius_of max_radius_km ->
  assignments max_radius_km self = [] ->
  filter_eligible_communes self = [].
Proof.
  intros Hr Hnil.
  destruct (filter_eligible_communes self) as [|c rest] eqn:E; [reflexivity|].
  exfalso.
  assert (Hne : select_city_centers (filter_eligible_communes self) <> []).
  { apply select_city_centers_nonempty. rewrite E. discriminate. }
  destruct (select_city_centers (filter_eligible_communes self)) as [|k ks] eqn:Ek;
    [congruence|].
  assert (Hk : In k (filter_eligible_communes self)).
  { apply select_city_centers_incl. rewrite Ek. now left. }
  assert (Hin : In k (map Assignment.commune (assignments max_radius_km self))).
  { rewrite assignments_communes, filter_In. split; [assumption|].
    apply within_radius_true. rewrite Ek.
    eapply Rle_trans; [apply min_distance_center; now left | assumption]. }
  rewrite Hnil in Hin. exact Hin.
Qed.

Lemma assignments_no_eligible max_radius_km self :
  filter_eligible_communes self = [] -> assignments max_radius_km self = [].
Proof. unfold assignments. intros ->. reflexivity. Qed.

(** ** The assignment is a partial function (C2) *)

Lemma NoDup_map_filter {A B} (f : A -> B) (p : A -> bool) l :
  NoDup (map f l) -> NoDup (map f (filter p l)).
Proof.
  induction l as [|x t IH]; simpl; intros Hnd.
  - constructor.
  - inversion Hnd as [|? ? Hnot Ht]; subst.
    destruct (p x); simpl; [|now apply IH].
    constructor; [|now apply IH].
    intros Hin. apply Hnot. apply in_map_iff in Hin.
    destruct Hin as [y [Ey Hy]]. apply filter_In in Hy.
    apply in_map_iff. exists y. tauto.
Qed.

Lemma NoDup_map_eq {A B} (f : A -> B) l a b :
  NoDup (map f l) -> In a l -> In b l -> f a = f b -> a = b.
Proof.
  induction l as [|x t IH]; simpl; intros Hnd Ha Hb E.
  - contradiction.
  - inversion Hnd as [|? ? Hnot Ht]; subst.
    destruct Ha as [->|Ha], Hb as [->|Hb].
    + reflexivity.
    + exfalso. apply Hnot. rewrite E. now apply in_map.
    + exfalso. apply Hnot. rewrite <- E. now apply in_map.
    + now apply IH.
Qed.

Lemma assignments_codes_NoDup max_radius_km self :
  NoDup (map Commune.code_commune (data self)) ->
  NoDup (map code_of (assignments max_radius_km self)).
Proof.
  intros Hnd.
  replace (map code_of (assignments max_radius_km self))
    with (map Commune.code_commune
              (map Assignment.commune (assignments max_radius_km self)))
    by (rewrite map_map; reflexivity).
  rewrite assignments_communes.
  apply NoDup_map_filter. unfold filter_eligible_communes.
  now apply NoDup_map_filter.
Qed.

(** C2. On a table with one row per commune code, the assignment table of
    [create_zones] has at most one row per commune code, so a code is
    under one zone id only; a row belongs to the group of its own zone id
    and to no other; and the groups of two different zone ids share no
    commune code. *)
Theorem create_zones_assignment_partial_function
    (max_radius_km : option R) (self : ZoneAnalyzer) :
  NoDup (map Commune.code_commune (data self)) ->
  let table := assignments max_radius_km self in
  NoDup (map code_of table) /\
  (forall a b, In a table -> In b table -> code_of a = code_of b ->
               a = b /\ Assignment.zone_id a = Assignment.zone_id b) /\
  (forall a k, In a table ->
               (In a (group_of table k) <-> k = Assignment.zone_id a)) /\
  NoDup (map fst (groupby_zone_id table)) /\
  (forall k1 g1 k2 g2,
      In (k1, g1) (groupby_zone_id table) ->
      In (k2, g2) (groupby_zone_id table) ->
      k1 <> k2 ->
      forall a b, In a g1 -> In b g2 -> code_of a <> code_of b).
Proof.
  intros Hnd table.
  pose proof (assignments_codes_NoDup max_radius_km self Hnd) as Hcodes.
  fold table in Hcodes.
  assert (Hinj : forall a b, In a table -> In b table -> code_of a = code_of b -> a = b).
  { intros a b Ha Hb E. exact (NoDup_map_eq code_of table a b Hcodes Ha Hb E). }
  split; [assumption|]. split.
  { intros a b Ha Hb E. pose proof (Hinj a b Ha Hb E) as ->. tauto. }
  split.
  { intros a k Ha. rewrite group_of_In. intuition. }
  split.
  { rewrite groupby_zone_id_keys. apply group_keys_NoDup. }
  intros k1 g1 k2 g2 H1 H2 Hne a b Ha Hb E.
  apply groupby_zone_id_In in H1. destruct H1 as [_ ->].
  apply groupby_zone_id_In in H2. destruct H2 as [_ ->].
  apply group_of_In in Ha. destruct Ha as [Ha Hka].
  apply group_of_In in Hb. destruct Hb as [Hb Hkb].
  pose proof (Hinj a b Ha Hb E) as ->. congruence.
Qed.

(** ** Ascending sorts *)

Lemma insert_le_perm {A} (leb : A -> A -> bool) x l :
  Permutation (x :: l) (insert_le leb x l).
Proof.
  induction l as [|y t IH]; simpl.
  - apply Permutation_refl.
  - destruct (leb x y).
    + apply Permutation_refl.
    + eapply Permutation_trans; [apply perm_swap | apply perm_skip, IH].
Qed.

Lemma sort_le_perm {A} (leb : A -> A -> bool) l : Permutation (sort_le leb l) l.
Proof.
  induction l as [|x t IH]; simpl.
  - constructor.
  - eapply Permutation_trans;
      [apply Permutation_sym, insert_le_perm | apply perm_skip, IH].
Qed.

Section AscendingSorted.
Context {A : Type} (leb : A -> A -> bool).
Hypothesis leb_total : forall a b, leb a b = true \/ leb b a = true.

Let le (a b : A) : Prop := leb a b = true.

Lemma insert_le_HdRel y x l :
  le y x -> HdRel le y l -> HdRel le y (insert_le leb x l).
Proof.
  intros Hyx Hy. destruct l as [|z t]; simpl.
  - now constructor.
  - destruct (leb x z); constructor; [assumption|].
    now inversion Hy.
Qed.

Lemma insert_le_sorted x l : Sorted le l -> Sorted le (insert_le leb x l).
Proof.
  induction l as [|y t IH]; intros Hs; simpl.
  - repeat constructor.
  - destruct (leb x y) eqn:E.
    + constructor; [assumption | now constructor].
    + inversion Hs as [|? ? Ht Hhd]; subst.
      constructor; [now apply IH|].
      apply insert_le_HdRel; [|assumption].
      destruct (leb_total x y) as [H|H]; [congruence | exact H].
Qed.

Lemma sort_le_sorted l : Sorted le (sort_le leb l).
Proof.
  induction l as [|x t IH]; simpl.
  - constructor.
  - now apply insert_le_sorted.
Qed.

End AscendingSorted.

Lemma sorted_names_sorted l :
  Sorted (fun a b => String.leb a b = true) (sorted l).
Proof. apply sort_le_sorted, String.leb_total. Qed.

Lemma sort_asc_sorted l : Sorted Rle (sort_asc l).
Proof.
  assert (H : Sorted (fun a b => Rle_bool a b = true) (sort_asc l)).
  { apply sort_le_sorted. intros a b.
    destruct (Rle_dec a b) as [Hab|Hab].
    - left; now apply Rle_bool_true.
    - right; apply Rle_bool_true; lra. }
  induction H as [|x t Ht IH Hhd]; constructor; [assumption|].
  destruct Hhd; constructor. now apply Rle_bool_true.
Qed.

(** ** Aggregation (C6) *)

Lemma series_median_is_median l : is_median (series_median l) l.
Proof.
  exists (sort_asc l).
  pose proof (sort_le_perm Rle_bool l) as Hp. fold (sort_asc l) in Hp.
  repeat split; [assumption | apply sort_asc_sorted |].
  unfold series_median. now rewrite (Permutation_length Hp).
Qed.

Lemma format_zone_name_is_readable_name names :
  is_readable_name (format_zone_name names) names.
Proof.
  exists (sorted names).
  pose proof (sort_le_perm String.leb names) as Hp. fold (sorted names) in Hp.
  repeat split; [assumption | apply sorted_names_sorted |].
  unfold format_zone_name. now rewrite (Permutation_length Hp).
Qed.

Lemma agg_zone_row {U : Utils} k members :
  members <> [] -> zone_row_of_members (agg_zone k members) members.
Proof.
  intros Hne. unfold zone_row_of_members, agg_zone, column, series_mean; simpl.
  rewrite !length_map.
  repeat (split; [first [reflexivity | apply format_zone_name_is_readable_name
                        | apply series_median_is_median]|]).
  destruct members as [|a rest]; [congruence|].
  exists a, rest. repeat split.
Qed.

(** C6. The aggregation has exactly one row per distinct zone
    id of the assignment table, in ascending order of zone id, and the row
    of a zone id is computed from its members, the rows of that zone id in
    table order: [nb_communes] is their number; the name is made of their
    sorted names, all of them joined by [", "] when there are at most
    three, otherwise the first three joined followed by [" + K autres"],
    [K] being the number of the other members; population, households and
    individual houses are sums; the two percentages, the poverty rate, the
    latitude and the longitude are unweighted arithmetic means; the income
    and the living standard are medians; the department and the centre
    name are those of the first member. *)
Theorem aggregated_one_row_per_zone_id {U : Utils} (zones_df : list Assignment.t) :
  let table := aggregated zones_df in
  NoDup (map Zone.zone_id table) /\
  StronglySorted lt (map Zone.zone_id table) /\
  Forall (fun a => In (Assignment.zone_id a) (map Zone.zone_id table)) zones_df /\
  Forall (fun z =>
            group_of zones_df (Zone.zone_id z) <> [] /\
            zone_row_of_members z (group_of zones_df (Zone.zone_id z))) table /\
  _aggregate_zones zones_df = filter zone_criteria table.
Proof.
  intros table.
  assert (Hids : map Zone.zone_id table
                 = group_keys (map Assignment.zone_id zones_df)).
  { unfold table, aggregated. rewrite map_map. simpl.
    rewrite <- groupby_zone_id_keys. reflexivity. }
  rewrite Hids.
  split; [apply group_keys_NoDup|].
  split; [apply group_keys_sorted|].
  split.
  { apply Forall_forall. intros a Ha. apply group_keys_In. now apply in_map. }
  split; [|reflexivity].
  apply Forall_forall. intros z Hz.
  unfold table, aggregated in Hz. apply in_map_iff in Hz.
  destruct Hz as [[k g] [<- Hg]]. simpl.
  apply groupby_zone_id_In in Hg. destruct Hg as [Hk ->].
  pose proof (group_of_nonempty _ _ Hk) as Hne.
  split; [assumption | now apply agg_zone_row].
Qed.

(** ** The zone-level criteria (C3) *)

Lemma zone_criteria_true z : zone_criteria z = true <-> meets_zone_criteria z.
Proof.
  unfold zone_criteria, meets_zone_criteria.
  rewrite !andb_true_iff, !Rge_bool_true, Nat.leb_le. tauto.
Qed.

(** C3. Every zone of the table returned by the zone-level filter, which is
    what [create_zones] returns and stores, has at least 2 communes, a mean
    [pct_maisons] of at least 50 and a mean [pct_residences_principales] of
    at least 70, the means being taken over the communes of the zone; an
    aggregated zone is in the filtered table exactly when it meets the
    three criteria. *)
Theorem zone_filter_keeps_criteria {U : Utils} (zones_df : list Assignment.t) :
  Forall (fun z =>
            meets_zone_criteria z /\
            Zone.nb_communes z = length (group_of zones_df (Zone.zone_id z)) /\
            Zone.pct_maisons z =
              series_mean (column Commune.pct_maisons
                                  (group_of zones_df (Zone.zone_id z))) /\
            Zone.pct_residences_principales z =
              series_mean (column Commune.pct_residences_principales
                                  (group_of zones_df (Zone.zone_id z))))
         (_aggregate_zones zones_df) /\
  Forall (fun z => In z (_aggregate_zones zones_df) <-> meets_zone_criteria z)
         (aggregated zones_df) /\
  (forall max_radius_km self,
      exists zs st,
        create_zones max_radius_km self = Ok (zs, st) /\
        Forall meets_zone_criteria zs /\
        (zones st = zones self \/ zones st = Some zs)).
Proof.
  split; [|split].
  - apply Forall_forall. intros z Hz. unfold _aggregate_zones in Hz.
    apply filter_In in Hz. destruct Hz as [Hagg Hcrit].
    split; [now apply zone_criteria_true|].
    unfold aggregated in Hagg. apply in_map_iff in Hagg.
    destruct Hagg as [[k g] [<- Hg]]. simpl.
    apply groupby_zone_id_In in Hg. destruct Hg as [_ ->].
    unfold column. rewrite length_map. repeat split.
  - apply Forall_forall. intros z Hz. unfold _aggregate_zones.
    rewrite filter_In, zone_criteria_true. tauto.
  - intros r self. rewrite create_zones_eq.
    destruct (assignments r self) as [|a t] eqn:E.
    + exists [], self. repeat split; [constructor | now left].
    + exists (_aggregate_zones (a :: t)),
             (set_zones self (_aggregate_zones (a :: t))).
      repeat split; [|now right].
      apply Forall_forall. intros z Hz. unfold _aggregate_zones in Hz.
      apply filter_In in Hz. now apply zone_criteria_true.
Qed.

(** ** Instances used in the examples *)

(** A sort that keeps the first of two rows with equal keys first. *)
Definition pandas_stable : Pandas :=
  {| sort_values_desc := fun A key l => sort_by Rlt_bool key l;
     sort_values_perm := fun A key l => sort_by_perm Rlt_bool key l;
     sort_values_sorted := fun A key l => sort_desc_stable_sorted key l |}.

Lemma sort_by_Rle_bool_sorted {A} (key : A -> R) l :
  sorted_desc key (sort_by Rle_bool key l).
Proof.
  apply sort_by_sorted; intros a b H.
  - now apply Rle_bool_true in H.
  - apply Rle_bool_false in H; lra.
Qed.

(** A sort that puts the first of two rows with equal keys last. *)
Definition pandas_ties_reversed : Pandas :=
  {| sort_values_desc := fun A key l => sort_by Rle_bool key l;
     sort_values_perm := fun A key l => sort_by_perm Rle_bool key l;
     sort_values_sorted := fun A key l => sort_by_Rle_bool_sorted key l |}.

(** ** The normalization primitive *)

Lemma clamp_range x : 0 <= clamp x 0 1 <= 1.
Proof.
  unfold clamp. split.
  - apply Rmax_l.
  - apply Rmax_lub; [lra | apply Rmin_r].
Qed.

Lemma normalize_score_range v lo hi : 0 <= normalize_score v lo hi <= 100.
Proof.
  unfold normalize_score.
  destruct (Req_dec_T lo hi).
  - destruct (Rle_dec lo v); lra.
  - pose proof (clamp_range ((v - lo) / (hi - lo))). lra.
Qed.

Lemma normalize_score_degenerate v b :
  normalize_score v b b = if Rle_dec b v then 100 else 0.
Proof.
  unfold normalize_score. destruct (Req_dec_T b b); [reflexivity | congruence].
Qed.

(** ** Score columns as row-wise functions *)

Lemma zip_with_map {A B C D} (f : B -> C -> D) (g : A -> B) (h : A -> C) l :
  zip_with f (map g l) (map h l) = map (fun x => f (g x) (h x)) l.
Proof. induction l as [|x t IH]; simpl; [reflexivity | now rewrite IH]. Qed.

Lemma normalize_scores_map {A} (g : A -> R) l lo hi :
  normalize_scores (map g l) lo hi = map (fun x => normalize_score (g x) lo hi) l.
Proof. unfold normalize_scores. apply map_map. Qed.

Lemma _score_housing_map zones : _score_housing zones = map (housing_of zones) zones.
Proof.
  unfold _score_housing, houses_score, primary_score.
  rewrite !normalize_scores_map, zip_with_map. reflexivity.
Qed.

Lemma _score_income_map self zones :
  _score_income self zones = map (income_of self zones) zones.
Proof.
  unfold _score_income, income_score, poverty_penalty.
  rewrite map_map, !normalize_scores_map, zip_with_map. reflexivity.
Qed.

Section ScoringFacts.
Context {C : Config} {U : Utils} {P : Pandas}.

Lemma _score_market_size_map zones :
  _score_market_size zones = map (market_of zones) zones.
Proof.
  unfold _score_market_size. rewrite map_map, normalize_scores_map. reflexivity.
Qed.

Lemma add_score_columns_map (h i m : Zone.t -> R) zones :
  add_score_columns zones (map h zones) (map i zones) (map m zones) =
  map (fun z => {| Scored.zone := z;
                   Scored.score_housing := h z;
                   Scored.score_income := i z;
                   Scored.score_market_size := m z;
                   Scored.score_total := h z * 0.40 + i z * 0.30 + m z * 0.30;
                   Scored.potential_clients :=
                     Zone.nb_menages z * TARGET_CONVERSION_RATE |}) zones.
Proof. induction zones as [|z t IH]; simpl; [reflexivity | now rewrite IH]. Qed.

Lemma score_and_rank_eq self zones :
  score_and_rank self zones =
  add_rank (sort_values_desc Scored.score_total (map (scored_row self zones) zones)).
Proof.
  unfold score_and_rank.
  rewrite _score_housing_map, _score_income_map, _score_market_size_map.
  rewrite add_score_columns_map. reflexivity.
Qed.

Lemma zip_with_seq_scored (l : list Scored.t) n :
  map Ranked.scored (zip_with Ranked.mk l (seq n (length l))) = l /\
  map Ranked.rank (zip_with Ranked.mk l (seq n (length l))) = seq n (length l).
Proof.
  revert n; induction l as [|x t IH]; intros n; simpl.
  - split; reflexivity.
  - destruct (IH (S n)) as [H1 H2]. rewrite H1, H2. split; reflexivity.
Qed.

Lemma add_rank_scored l : map Ranked.scored (add_rank l) = l.
Proof. apply zip_with_seq_scored. Qed.

Lemma add_rank_rank l : map Ranked.rank (add_rank l) = seq 1 (length l).
Proof. apply zip_with_seq_scored. Qed.

Lemma add_rank_length l : length (add_rank l) = length l.
Proof. rewrite <- (add_rank_scored l) at 2. now rewrite length_map. Qed.

(** The rows of the ranked table are the scored rows of the zones. *)
Lemma score_and_rank_perm self zones :
  Permutation (map (scored_row self zones) zones)
              (map Ranked.scored (score_and_rank self zones)).
Proof.
  rewrite score_and_rank_eq, add_rank_scored. apply sort_values_perm.
Qed.

Lemma score_and_rank_length self zones :
  length (score_and_rank self zones) = length zones.
Proof.
  rewrite <- (length_map Ranked.scored).
  rewrite <- (Permutation_length (score_and_rank_perm self zones)).
  apply length_map.
Qed.

(** [calculate_scores] never raises. *)
Lemma calculate_scores_eq self :
  calculate_scores self =
  Ok (match zones (scoring_input self) with
      | None => ([], scoring_input self)
      | Some [] => ([], scoring_input self)
      | Some (z :: zs) =>
          (score_and_rank (scoring_input self) (z :: zs),
           set_scored_zones (scoring_input self)
                            (score_and_rank (scoring_input self) (z :: zs)))
      end).
Proof.
  unfold calculate_scores, scoring_input, after_create_zones.
  destruct (no_zones self).
  - rewrite create_zones_eq. simpl.
    destruct (assignments None self); simpl.
    + destruct (zones self) as [[|z zs]|]; reflexivity.
    + destruct (_aggregate_zones _) as [|z zs]; reflexivity.
  - simpl. destruct (zones self) as [[|z zs]|]; reflexivity.
Qed.

End ScoringFacts.

(** ** Distances along a meridian *)

(** Two points of the same longitude are at the distance of the arc of
    meridian between them. *)
Lemma haversine_km_meridian lat1 lat2 lon :
  -180 <= lat2 - lat1 <= 180 ->
  haversine_km lat1 lon lat2 lon = 6371 * (Rabs (lat2 - lat1) * PI / 180).
Proof.
  intros Hd. unfold haversine_km, radians.
  pose proof PI_RGT_0 as Hpi.
  set (y := (lat2 - lat1) * PI / 180 / 2).
  replace ((lon - lon) * PI / 180 / 2) with 0 by lra.
  rewrite sin_0.
  replace (sin y ^ 2 + cos (lat1 * PI / 180) * cos (lat2 * PI / 180) * 0 ^ 2)
    with (Rsqr (sin y)) by (unfold Rsqr; ring).
  rewrite sqrt_Rsqr_abs.
  assert (Hy : - (PI / 2) <= y <= PI / 2) by (unfold y; nra).
  assert (Habs : Rabs (sin y) = sin (Rabs y)).
  { unfold Rabs at 2. destruct (Rcase_abs y) as [Hneg|Hpos].
    - rewrite sin_neg. apply Rabs_left1.
      rewrite <- (Ropp_involutive y), sin_neg.
      assert (0 <= sin (- y)) by (apply sin_ge_0; lra). lra.
    - apply Rabs_right. apply Rle_ge. apply sin_ge_0; lra. }
  rewrite Habs, asin_sin.
  - unfold y.
    replace ((lat2 - lat1) * PI / 180 / 2) with ((lat2 - lat1) * (PI / 360)) by lra.
    rewrite Rabs_mult, (Rabs_right (PI / 360)) by lra. lra.
  - unfold Rabs. destruct (Rcase_abs y); lra.
Qed.

(** ** The example tables, evaluated *)

Lemma eligible_demo_commune code name lat pop menages :
  100 <= menages -> eligible_commune (demo_commune code name lat pop menages) = true.
Proof.
  intros H. unfold eligible_commune, demo_commune; simpl.
  rewrite !(proj2 (Rge_bool_true _ _)) by lra. reflexivity.
Qed.

Lemma dist_demo_commune c1 n1 lat1 p1 m1 c2 n2 lat2 p2 m2 :
  -180 <= lat2 - lat1 <= 180 ->
  dist (demo_commune c1 n1 lat1 p1 m1) (demo_commune c2 n2 lat2 p2 m2)
  = 6371 * (Rabs (lat2 - lat1) * PI / 180).
Proof.
  intros H. unfold dist, demo_commune; simpl. now apply haversine_km_meridian.
Qed.

Lemma one_degree_km_pos : 0 < one_degree_km.
Proof. unfold one_degree_km. pose proof PI_RGT_0. lra. Qed.

Lemma dist_one_degree_north c1 n1 p1 m1 c2 n2 p2 m2 :
  dist (demo_commune c1 n1 46 p1 m1) (demo_commune c2 n2 47 p2 m2) = one_degree_km.
Proof.
  rewrite dist_demo_commune by lra. unfold one_degree_km.
  replace (47 - 46) with 1 by lra. now rewrite Rabs_R1.
Qed.

Lemma dist_one_degree_south c1 n1 p1 m1 c2 n2 p2 m2 :
  dist (demo_commune c1 n1 47 p1 m1) (demo_commune c2 n2 46 p2 m2) = one_degree_km.
Proof.
  rewrite dist_demo_commune by lra. unfold one_degree_km.
  replace (46 - 47) with (- (1)) by lra. now rewrite Rabs_Ropp, Rabs_R1.
Qed.

Lemma eligible_two : filter_eligible_communes (__init__ two_communes) = two_communes.
Proof.
  unfold filter_eligible_communes, two_communes, arnas, blace;
    cbn [data __init__ filter].
  rewrite !eligible_demo_commune by lra. reflexivity.
Qed.

Lemma centers_two : select_city_centers two_communes = [arnas].
Proof.
  unfold select_city_centers, two_communes, arnas, blace, demo_commune;
    cbn [filter Commune.population_totale].
  rewrite (proj2 (Rge_bool_true 3000 1000)) by lra.
  rewrite (proj2 (Rge_bool_false 600 1000)) by lra.
  reflexivity.
Qed.

Lemma min_distance_arnas c : In c two_communes -> min_distance [arnas] c = 0.
Proof.
  intros H. unfold min_distance, distances_to; cbn [map series_min fold_left].
  destruct H as [<-|[<-|[]]]; apply haversine_km_same_point.
Qed.

(** Around Arnas every commune is assigned when the radius is not negative,
    and none otherwise. *)
Lemma assignments_two max_radius_km :
  assignments max_radius_km (__init__ two_communes) =
  if Rle_bool 0 (radius_of max_radius_km) then zone_arnas else [].
Proof.
  unfold assignments. rewrite eligible_two, centers_two.
  unfold two_communes; cbn [filter]. unfold within_radius.
  rewrite !min_distance_arnas by (unfold two_communes; simpl; auto).
  destruct (Rle_bool 0 (radius_of max_radius_km)); reflexivity.
Qed.

Lemma aggregate_zone_arnas :
  @_aggregate_zones demo_utils zone_arnas = [@agg_zone demo_utils 0 zone_arnas].
Proof.
  unfold _aggregate_zones.
  change (@aggregated demo_utils zone_arnas) with [@agg_zone demo_utils 0 zone_arnas].
  cbn [filter].
  replace (@zone_criteria (@agg_zone demo_utils 0 zone_arnas)) with true; [reflexivity|].
  symmetry. apply zone_criteria_true. unfold meets_zone_criteria.
  unfold agg_zone, zone_arnas, series_mean, arnas, blace, demo_commune. simpl.
  repeat split; try lia; lra.
Qed.

(** ** Scores lie between 0 and 100 (C4) *)

Section ScoreRange.
Context {C : Config} {U : Utils} {P : Pandas}.

Lemma scored_row_range self zones z :
  in_0_100 (Scored.score_housing (scored_row self zones z)) /\
  in_0_100 (Scored.score_income (scored_row self zones z)) /\
  in_0_100 (Scored.score_market_size (scored_row self zones z)) /\
  in_0_100 (Scored.score_total (scored_row self zones z)).
Proof.
  unfold in_0_100, scored_row, housing_of, income_of, market_of; simpl.
  set (a := normalize_score (Zone.pct_maisons z) _ _).
  set (b := normalize_score (Zone.pct_residences_principales z) _ _).
  set (c := normalize_score (Zone.revenu_median z) _ _).
  set (d := normalize_score (- Zone.taux_pauvrete z) _ _).
  set (e := normalize_score (log1p (Zone.nb_menages z)) _ _).
  pose proof (normalize_score_range (Zone.pct_maisons z)
                (series_min (map Zone.pct_maisons zones))
                (series_max (map Zone.pct_maisons zones))) as Ha.
  pose proof (normalize_score_range (Zone.pct_residences_principales z)
                (series_min (map Zone.pct_residences_principales zones))
                (series_max (map Zone.pct_residences_principales zones))) as Hb.
  pose proof (normalize_score_range (Zone.revenu_median z)
                (national_median_income self * 0.8)
                (national_median_income self * 1.5)) as Hc.
  pose proof (normalize_score_range (- Zone.taux_pauvrete z)
                (- series_max (map Zone.taux_pauvrete zones))
                (- series_min (map Zone.taux_pauvrete zones))) as Hd.
  pose proof (normalize_score_range (log1p (Zone.nb_menages z))
                (log1p MIN_HOUSEHOLDS)
                (log1p (series_max (map Zone.nb_menages zones)))) as He.
  fold a in Ha. fold b in Hb. fold c in Hc. fold d in Hd. fold e in He.
  repeat split; lra.
Qed.

(** Every row of the ranked table is the scored row of one of the zones. *)
Lemma score_and_rank_rows self zones row :
  In row (score_and_rank self zones) ->
  exists z, In z zones /\ Ranked.scored row = scored_row self zones z.
Proof.
  intros Hin.
  assert (H : In (Ranked.scored row) (map (scored_row self zones) zones)).
  { eapply Permutation_in; [apply Permutation_sym, score_and_rank_perm|].
    now apply in_map. }
  apply in_map_iff in H. destruct H as [z [E Hz]]. exists z. split; auto.
Qed.

End ScoreRange.

(** C4. [calculate_scores] returns, for any analyzer, a table in every row
    of which [score_housing], [score_income], [score_market_size] and
    [score_total] are between 0 and 100. *)
Theorem calculate_scores_scores_in_range
    {C : Config} {U : Utils} {P : Pandas} (self : ZoneAnalyzer) :
  exists out st,
    calculate_scores self = Ok (out, st) /\
    Forall (fun row =>
              in_0_100 (Scored.score_housing (Ranked.scored row)) /\
              in_0_100 (Scored.score_income (Ranked.scored row)) /\
              in_0_100 (Scored.score_market_size (Ranked.scored row)) /\
              in_0_100 (Scored.score_total (Ranked.scored row))) out.
Proof.
  rewrite calculate_scores_eq.
  destruct (zones (scoring_input self)) as [[|z zs]|].
  - eexists _, _. split; [reflexivity | constructor].
  - eexists _, _. split; [reflexivity|].
    apply Forall_forall. intros row Hrow.
    destruct (score_and_rank_rows _ _ _ Hrow) as [z' [_ ->]].
    apply scored_row_range.
  - eexists _, _. split; [reflexivity | constructor].
Qed.

(** ** Ranking (C5) *)

Lemma StronglySorted_nth {A} (R : A -> A -> Prop) l :
  StronglySorted R l ->
  forall i j d, (i < j < length l)%nat -> R (nth i l d) (nth j l d).
Proof.
  induction 1 as [|x t Ht IH Hall]; intros i j d Hij; simpl in *.
  - lia.
  - destruct j as [|j]; [lia|]. destruct i as [|i].
    + rewrite Forall_forall in Hall. apply Hall, nth_In. lia.
    + apply IH. lia.
Qed.

Lemma sorted_desc_map {A B} (f : A -> B) (key : B -> R) l :
  sorted_desc key (map f l) -> sorted_desc (fun x => key (f x)) l.
Proof.
  unfold sorted_desc. induction l as [|x t IH]; simpl; intros Hs.
  - constructor.
  - inversion Hs as [|? ? Ht Hall]; subst. constructor; [now apply IH|].
    rewrite Forall_map in Hall. exact Hall.
Qed.

(** In a table whose ranks are 1, 2, ... in row order and whose totals do
    not increase along the rows, a strictly higher total has a strictly
    lower rank. *)
Lemma higher_total_lower_rank (out : list Ranked.t) :
  map Ranked.rank out = seq 1 (length out) ->
  sorted_desc total_of out ->
  forall a b, In a out -> In b out -> total_of b < total_of a ->
              (Ranked.rank a < Ranked.rank b)%nat.
Proof.
  intros Hrank Hsorted a b Ha Hb Hlt.
  destruct (In_nth _ _ a Ha) as [i [Hi Ei]].
  destruct (In_nth _ _ a Hb) as [j [Hj Ej]].
  assert (Hr : forall n, (n < length out)%nat ->
                         Ranked.rank (nth n out a) = S n).
  { intros n Hn.
    rewrite <- (map_nth Ranked.rank), Hrank.
    rewrite (nth_indep _ _ 0%nat) by (rewrite length_seq; exact Hn).
    now rewrite seq_nth. }
  rewrite <- Ei, <- Ej, (Hr i Hi), (Hr j Hj).
  destruct (Nat.lt_trichotomy i j) as [H|[H|H]].
  - lia.
  - subst j. rewrite Ei in Ej. subst b. lra.
  - exfalso.
    pose proof (StronglySorted_nth _ _ Hsorted j i a (conj H Hi)) as Hs.
    simpl in Hs. rewrite Ei, Ej in Hs. lra.
Qed.

(** C5. [calculate_scores] returns a table of N rows whose
    [rank] column is 1, 2, ..., N in row order, hence a permutation of
    1..N; the rows are the scored zones reordered so that [score_total]
    does not increase along the rows; and a row with a strictly higher
    [score_total] has a strictly lower rank.  Nothing is promised about the
    relative order of rows with equal [score_total]. *)
Theorem calculate_scores_rank_descending
    {C : Config} {U : Utils} {P : Pandas} (self : ZoneAnalyzer) :
  exists out st,
    calculate_scores self = Ok (out, st) /\
    map Ranked.rank out = seq 1 (length out) /\
    Permutation (map Ranked.rank out) (seq 1 (length out)) /\
    sorted_desc total_of out /\
    Forall (fun a =>
              Forall (fun b => total_of b < total_of a ->
                               (Ranked.rank a < Ranked.rank b)%nat) out) out /\
    match zones (scoring_input self) with
    | Some zs =>
        Permutation (map (scored_row (scoring_input self) zs) zs)
                    (map Ranked.scored out)
    | None => out = []
    end.
Proof.
  rewrite calculate_scores_eq.
  assert (Hgen : forall out : list Ranked.t,
             map Ranked.rank out = seq 1 (length out) ->
             sorted_desc total_of out ->
             map Ranked.rank out = seq 1 (length out) /\
             Permutation (map Ranked.rank out) (seq 1 (length out)) /\
             sorted_desc total_of out /\
             Forall (fun a =>
                       Forall (fun b => total_of b < total_of a ->
                                        (Ranked.rank a < Ranked.rank b)%nat) out) out).
  { intros out H1 H2. split; [assumption|]. split; [rewrite H1; apply Permutation_refl|].
    split; [assumption|].
    apply Forall_forall; intros a Ha. apply Forall_forall; intros b Hb Hlt.
    now apply (higher_total_lower_rank out H1 H2). }
  destruct (zones (scoring_input self)) as [[|z zs]|].
  - exists [], (scoring_input self). split; [reflexivity|].
    repeat split; try constructor.
  - eexists _, _. split; [reflexivity|].
    set (out := score_and_rank (scoring_input self) (z :: zs)).
    assert (H1 : map Ranked.rank out = seq 1 (length out)).
    { unfold out. rewrite score_and_rank_eq, add_rank_rank, add_rank_length.
      reflexivity. }
    assert (H2 : sorted_desc total_of out).
    { unfold total_of.
      apply (sorted_desc_map Ranked.scored Scored.score_total).
      unfold out. rewrite score_and_rank_eq, add_rank_scored.
      apply sort_values_sorted. }
    destruct (Hgen out H1 H2) as [G1 [G2 [G3 G4]]].
    repeat split; try assumption.
    apply score_and_rank_perm.
  - exists [], (scoring_input self). split; [reflexivity|].
    repeat split; try constructor.
Qed.

(** ** The four-commune table, evaluated *)

(** Two centres one degree of latitude apart, each with a second commune. *)
Lemma eligible_four : filter_eligible_communes (__init__ four_communes) = four_communes.
Proof.
  unfold filter_eligible_communes, four_communes, arnas, blace, macon, sance;
    cbn [data __init__ filter].
  rewrite !eligible_demo_commune by lra. reflexivity.
Qed.

Lemma centers_four : select_city_centers four_communes = [arnas; macon].
Proof.
  unfold select_city_centers, four_communes, arnas, blace, macon, sance, demo_commune;
    cbn [filter Commune.population_totale].
  rewrite !(proj2 (Rge_bool_true 3000 1000)) by lra.
  rewrite !(proj2 (Rge_bool_false 600 1000)) by lra.
  reflexivity.
Qed.

Lemma distances_south c : In c two_communes ->
  distances_to [arnas; macon] c = [0; one_degree_km].
Proof.
  intros H. unfold distances_to; cbn [map].
  fold (dist c arnas). fold (dist c macon).
  destruct H as [<-|[<-|[]]]; unfold arnas, blace, macon;
    rewrite dist_one_degree_north;
    (rewrite dist_demo_commune by lra); replace (46 - 46) with 0 by lra;
    rewrite Rabs_R0; f_equal; lra.
Qed.

Lemma distances_north c : In c [macon; sance] ->
  distances_to [arnas; macon] c = [one_degree_km; 0].
Proof.
  intros H. unfold distances_to; cbn [map].
  fold (dist c arnas). fold (dist c macon).
  destruct H as [<-|[<-|[]]]; unfold arnas, sance, macon;
    rewrite dist_one_degree_south;
    (rewrite dist_demo_commune by lra); replace (47 - 47) with 0 by lra;
    rewrite Rabs_R0; do 2 f_equal; lra.
Qed.

Lemma series_min_south : series_min [0; one_degree_km] = 0.
Proof. cbn. apply Rmin_left. pose proof one_degree_km_pos; lra. Qed.

Lemma series_min_north : series_min [one_degree_km; 0] = 0.
Proof. cbn. apply Rmin_right. pose proof one_degree_km_pos; lra. Qed.

Lemma argmin_south : argmin [0; one_degree_km] = 0%nat.
Proof.
  cbn. rewrite (proj2 (Rlt_bool_false one_degree_km 0)); [reflexivity|].
  pose proof one_degree_km_pos; lra.
Qed.

Lemma argmin_north : argmin [one_degree_km; 0] = 1%nat.
Proof.
  cbn. rewrite (proj2 (Rlt_bool_true 0 one_degree_km)); [reflexivity|].
  apply one_degree_km_pos.
Qed.

Lemma assignment_of_south c : In c two_communes ->
  assignment_of [arnas; macon] c = Assignment.mk c 0 0 "Arnas".
Proof.
  intros H. unfold assignment_of, min_distance.
  rewrite (distances_south c H), series_min_south, argmin_south. reflexivity.
Qed.

Lemma assignment_of_north c : In c [macon; sance] ->
  assignment_of [arnas; macon] c = Assignment.mk c 1 0 "Macon".
Proof.
  intros H. unfold assignment_of, min_distance.
  rewrite (distances_north c H), series_min_north, argmin_north. reflexivity.
Qed.

Lemma assignments_four :
  assignments None (__init__ four_communes) = (zone_south ++ zone_north)%list.
Proof.
  unfold assignments. rewrite eligible_four, centers_four.
  unfold four_communes; cbn [filter]. unfold within_radius, min_distance.
  rewrite !distances_south, !distances_north by (simpl; auto).
  rewrite series_min_south, series_min_north.
  rewrite (proj2 (Rle_bool_true 0 (radius_of None))) by (simpl; lra).
  cbn [map].
  rewrite !assignment_of_south, !assignment_of_north by (simpl; auto).
  reflexivity.
Qed.

Lemma aggregate_four :
  @_aggregate_zones demo_utils (zone_south ++ zone_north)%list = [south; north].
Proof.
  unfold _aggregate_zones.
  change (@aggregated demo_utils (zone_south ++ zone_north)%list) with [south; north].
  cbn [filter].
  assert (Hs : zone_criteria south = true).
  { apply zone_criteria_true. unfold meets_zone_criteria, south.
    unfold agg_zone, zone_south, series_mean, arnas, blace, demo_commune. simpl.
    repeat split; try lia; lra. }
  assert (Hn : zone_criteria north = true).
  { apply zone_criteria_true. unfold meets_zone_criteria, north.
    unfold agg_zone, zone_north, series_mean, macon, sance, demo_commune. simpl.
    repeat split; try lia; lra. }
  rewrite Hs, Hn. reflexivity.
Qed.

Lemma create_zones_four :
  @create_zones demo_utils None (__init__ four_communes)
  = Ok ([south; north], set_zones (__init__ four_communes) [south; north]).
Proof.
  rewrite create_zones_eq, assignments_four, aggregate_four. reflexivity.
Qed.

(** The two zones have the same aggregates, hence the same scores. *)
Lemma tie_south_north self zs :
  Scored.score_total (@scored_row demo_config self zs south) =
  Scored.score_total (@scored_row demo_config self zs north).
Proof. reflexivity. Qed.

(** With a stable [sort_values] the tied zones South and North come out in
    zone-table order. *)
Lemma stable_sort_keeps_ties :
  exists r1 r2 st,
    @calculate_scores demo_config demo_utils pandas_stable
      (set_zones (__init__ four_communes) [south; north]) = Ok ([r1; r2], st) /\
    Scored.zone (Ranked.scored r1) = south /\
    Scored.zone (Ranked.scored r2) = north.
Proof.
  eexists _, _, _. split.
  { rewrite calculate_scores_eq. unfold scoring_input.
    cbn [no_zones zones set_zones].
    rewrite score_and_rank_eq. cbn [map].
    unfold sort_values_desc, pandas_stable.
    cbn [sort_by fold_right insert_by].
    rewrite tie_south_north.
    rewrite (proj2 (Rlt_bool_false _ _)) by lra.
    cbn [add_rank length seq zip_with]. reflexivity. }
  split; reflexivity.
Qed.

(** ** Degenerate normalization (C7) *)

Lemma series_min_const l p : Forall (eq p) l -> l <> [] -> series_min l = p.
Proof.
  intros Hall Hne. rewrite Forall_forall in Hall.
  symmetry. apply Hall. now apply series_min_In.
Qed.

Lemma series_max_const l p : Forall (eq p) l -> l <> [] -> series_max l = p.
Proof.
  intros Hall Hne. rewrite Forall_forall in Hall.
  symmetry. apply Hall. now apply series_max_In.
Qed.

(** C7. With equal bounds the normalization returns 100 for a value at
    least the bound and 0 for a smaller one; so when all zones have the
    same [pct_maisons], the housing sub-score computed by [_score_housing]
    is 100 for every zone. *)
Theorem degenerate_normalization_housing (zones : list Zone.t) (p : R) :
  Forall (fun z => Zone.pct_maisons z = p) zones ->
  (forall v b, b <= v -> normalize_score v b b = 100) /\
  (forall v b, v < b -> normalize_score v b b = 0) /\
  length (houses_score zones) = length zones /\
  Forall (eq 100) (houses_score zones).
Proof.
  intros Htied.
  split; [|split; [|split]].
  - intros v b H. rewrite normalize_score_degenerate.
    destruct (Rle_dec b v); [reflexivity | contradiction].
  - intros v b H. rewrite normalize_score_degenerate.
    destruct (Rle_dec b v); [lra | reflexivity].
  - unfold houses_score, normalize_scores. now rewrite !length_map.
  - destruct zones as [|z zs]; [constructor|].
    assert (Hcol : Forall (eq p) (map Zone.pct_maisons (z :: zs))).
    { rewrite Forall_map. eapply Forall_impl; [|exact Htied].
      simpl; intros; congruence. }
    unfold houses_score.
    rewrite (series_min_const _ p Hcol) by discriminate.
    rewrite (series_max_const _ p Hcol) by discriminate.
    unfold normalize_scores. rewrite !Forall_map. rewrite Forall_map in Hcol.
    eapply Forall_impl; [|exact Hcol]. simpl. intros a <-.
    rewrite normalize_score_degenerate.
    destruct (Rle_dec _ _); [reflexivity | lra].
Qed.

(** South and North tie on [pct_maisons]: both get the housing sub-score
    100. *)
Lemma degenerate_normalization_housing_south_north :
  Forall (fun z => Zone.pct_maisons z = Zone.pct_maisons south) [south; north] /\
  houses_score [south; north] = [100; 100].
Proof.
  assert (H : Forall (fun z => Zone.pct_maisons z = Zone.pct_maisons south)
                     [south; north]).
  { repeat constructor. }
  split; [exact H|].
  destruct (degenerate_normalization_housing _ _ H) as [_ [_ [_ Hall]]].
  destruct (houses_score [south; north]) as [|a [|b [|c t]]] eqn:E;
    try discriminate E.
  inversion Hall as [|? ? Ha Hall']; subst.
  inversion Hall' as [|? ? Hb _]; subst. reflexivity.
Defined.

(** ** The eight-commune table, evaluated *)

(** Where the first zero of an array of distances stands, when the entries
    before it are positive and the others are not negative. *)
Lemma argmin_from_zero l best_i i :
  Forall (fun x => 0 <= x) l -> argmin_from best_i 0 i l = best_i.
Proof.
  revert i. induction l as [|x t IH]; intros i Hl; simpl; [reflexivity|].
  inversion Hl as [|? ? Hx Ht]; subst.
  rewrite (proj2 (Rlt_bool_false x 0)) by exact Hx. now apply IH.
Qed.

Lemma argmin_from_first_zero pre post :
  Forall (fun x => 0 < x) pre -> Forall (fun x => 0 <= x) post ->
  forall best_i best i, 0 < best ->
    argmin_from best_i best i (pre ++ 0 :: post) = (i + length pre)%nat.
Proof.
  intros Hpre Hpost. induction Hpre as [|x pre Hx Hpre IH];
    intros best_i best i Hbest; simpl.
  - rewrite (proj2 (Rlt_bool_true 0 best)) by exact Hbest.
    rewrite argmin_from_zero by exact Hpost. lia.
  - destruct (Rlt_bool x best); rewrite IH by assumption; lia.
Qed.

Lemma argmin_first_zero pre post :
  Forall (fun x => 0 < x) pre -> Forall (fun x => 0 <= x) post ->
  argmin (pre ++ 0 :: post) = length pre /\ series_min (pre ++ 0 :: post) = 0.
Proof.
  intros Hpre Hpost.
  assert (Ha : argmin (pre ++ 0 :: post) = length pre).
  { destruct Hpre as [|x pre Hx Hpre]; simpl.
    - now apply argmin_from_zero.
    - now rewrite argmin_from_first_zero. }
  split; [exact Ha|].
  rewrite <- nth_argmin by (destruct pre; discriminate).
  rewrite Ha, app_nth2, Nat.sub_diag by lia. reflexivity.
Qed.

(** A commune at the place of a centre, all earlier centres being
    elsewhere on its meridian, is assigned to that centre at distance 0. *)
Lemma dist_same_longitude c k :
  Commune.longitude c = Commune.longitude k ->
  -180 <= Commune.latitude k - Commune.latitude c <= 180 ->
  dist c k = 6371 * (Rabs (Commune.latitude k - Commune.latitude c) * PI / 180).
Proof.
  intros Hlon Hlat. unfold dist. rewrite Hlon. now apply haversine_km_meridian.
Qed.

Lemma dist_same_place c k :
  Commune.longitude c = Commune.longitude k ->
  Commune.latitude c = Commune.latitude k ->
  dist c k = 0.
Proof.
  intros Hlon Hlat. unfold dist. rewrite Hlon, Hlat.
  apply haversine_km_same_point.
Qed.

Lemma dist_other_latitude c k :
  Commune.longitude c = Commune.longitude k ->
  -180 <= Commune.latitude k - Commune.latitude c <= 180 ->
  Commune.latitude k - Commune.latitude c <> 0 ->
  0 < dist c k.
Proof.
  intros Hlon Hlat Hne. rewrite dist_same_longitude by assumption.
  pose proof PI_RGT_0. pose proof (Rabs_pos_lt _ Hne). nra.
Qed.

Lemma assignment_of_own_center pre k post c :
  Forall (fun k' => 0 < dist c k') pre ->
  dist c k = 0 ->
  Forall (fun k' => 0 < dist c k') post ->
  min_distance (pre ++ k :: post) c = 0 /\
  assignment_of (pre ++ k :: post) c =
    Assignment.mk c (length pre) 0 (Commune.nom_commune k).
Proof.
  intros Hpre Hk Hpost.
  assert (Hd : distances_to (pre ++ k :: post) c
               = (map (dist c) pre ++ 0 :: map (dist c) post)%list).
  { unfold distances_to. rewrite map_app. cbn [map]. fold (dist c k).
    now rewrite Hk. }
  destruct (argmin_first_zero (map (dist c) pre) (map (dist c) post))
    as [Ha Hm].
  { now rewrite Forall_map. }
  { rewrite Forall_map. eapply Forall_impl; [|exact Hpost].
    intros a Ha. simpl in Ha. lra. }
  rewrite length_map in Ha.
  assert (Hmin : min_distance (pre ++ k :: post) c = 0).
  { unfold min_distance. now rewrite Hd. }
  split; [exact Hmin|].
  unfold assignment_of. rewrite Hmin, Hd, Ha. f_equal.
  rewrite map_app, app_nth2; rewrite length_map; [|lia].
  now rewrite Nat.sub_diag.
Qed.

Ltac meridian :=
  repeat constructor;
  (apply dist_same_place || apply dist_other_latitude); simpl; lra.

Lemma eligible_house_commune code name lat pop menages :
  100 <= menages -> eligible_commune (house_commune code name lat pop menages) = true.
Proof.
  intros H. unfold eligible_commune, house_commune; simpl.
  rewrite !(proj2 (Rge_bool_true _ _)) by lra. reflexivity.
Qed.

Lemma eligible_eight :
  filter_eligible_communes (__init__ eight_communes) = eight_communes.
Proof.
  unfold filter_eligible_communes, eight_communes, arnas, blace, macon, sance,
    troyes, lavau, reims, bezannes; cbn [data __init__ filter].
  rewrite !eligible_demo_commune, !eligible_house_commune by lra. reflexivity.
Qed.

Lemma centers_eight : select_city_centers eight_communes = centers_of_eight.
Proof.
  unfold select_city_centers, eight_communes, arnas, blace, macon, sance,
    troyes, lavau, reims, bezannes, demo_commune, house_commune;
    cbn [filter Commune.population_totale].
  rewrite !(proj2 (Rge_bool_true 3000 1000)) by lra.
  rewrite !(proj2 (Rge_bool_false 600 1000)) by lra.
  reflexivity.
Qed.

Lemma assignment_of_eight_0 c : In c [arnas; blace] ->
  min_distance centers_of_eight c = 0 /\
  assignment_of centers_of_eight c = Assignment.mk c 0 0 "Arnas".
Proof.
  intros H.
  apply (assignment_of_own_center [] arnas [macon; troyes; reims] c);
    destruct H as [<-|[<-|[]]]; meridian.
Qed.

Lemma assignment_of_eight_1 c : In c [macon; sance] ->
  min_distance centers_of_eight c = 0 /\
  assignment_of centers_of_eight c = Assignment.mk c 1 0 "Macon".
Proof.
  intros H.
  apply (assignment_of_own_center [arnas] macon [troyes; reims] c);
    destruct H as [<-|[<-|[]]]; meridian.
Qed.

Lemma assignment_of_eight_2 c : In c [troyes; lavau] ->
  min_distance centers_of_eight c = 0 /\
  assignment_of centers_of_eight c = Assignment.mk c 2 0 "Troyes".
Proof.
  intros H.
  apply (assignment_of_own_center [arnas; macon] troyes [reims] c);
    destruct H as [<-|[<-|[]]]; meridian.
Qed.

Lemma assignment_of_eight_3 c : In c [reims; bezannes] ->
  min_distance centers_of_eight c = 0 /\
  assignment_of centers_of_eight c = Assignment.mk c 3 0 "Reims".
Proof.
  intros H.
  apply (assignment_of_own_center [arnas; macon; troyes] reims [] c);
    destruct H as [<-|[<-|[]]]; meridian.
Qed.

Lemma assignments_eight :
  assignments None (__init__ eight_communes) = rows_of_eight.
Proof.
  pose proof (assignment_of_eight_0 arnas ltac:(simpl; auto)) as [M1 A1].
  pose proof (assignment_of_eight_0 blace ltac:(simpl; auto)) as [M2 A2].
  pose proof (assignment_of_eight_1 macon ltac:(simpl; auto)) as [M3 A3].
  pose proof (assignment_of_eight_1 sance ltac:(simpl; auto)) as [M4 A4].
  pose proof (assignment_of_eight_2 troyes ltac:(simpl; auto)) as [M5 A5].
  pose proof (assignment_of_eight_2 lavau ltac:(simpl; auto)) as [M6 A6].
  pose proof (assignment_of_eight_3 reims ltac:(simpl; auto)) as [M7 A7].
  pose proof (assignment_of_eight_3 bezannes ltac:(simpl; auto)) as [M8 A8].
  unfold assignments. rewrite eligible_eight, centers_eight.
  unfold eight_communes; cbn [filter]. unfold within_radius.
  rewrite M1, M2, M3, M4, M5, M6, M7, M8.
  rewrite (proj2 (Rle_bool_true 0 (radius_of None))) by (simpl; lra).
  cbn [map]. rewrite A1, A2, A3, A4, A5, A6, A7, A8.
  reflexivity.
Qed.

Lemma pct_maisons_of_eight :
  map Zone.pct_maisons zones_of_eight = [60; 60; 80; 80].
Proof.
  unfold zones_of_eight, zone_0, zone_1, zone_2, zone_3, agg_zone, zone_rows,
    series_mean. cbn. repeat f_equal; lra.
Qed.

Lemma zone_criteria_of_eight :
  Forall (fun z => zone_criteria z = true) zones_of_eight.
Proof.
  repeat constructor; apply zone_criteria_true;
    unfold meets_zone_criteria, zone_0, zone_1, zone_2, zone_3, agg_zone,
      zone_rows, series_mean; simpl; repeat split; try lia; lra.
Qed.

Lemma aggregate_eight : @_aggregate_zones demo_utils rows_of_eight = zones_of_eight.
Proof.
  unfold _aggregate_zones.
  change (@aggregated demo_utils rows_of_eight) with zones_of_eight.
  pose proof zone_criteria_of_eight as H. unfold zones_of_eight in *.
  inversion H as [|? ? H0 G0]; subst. inversion G0 as [|? ? H1 G1]; subst.
  inversion G1 as [|? ? H2 G2]; subst. inversion G2 as [|? ? H3 G3]; subst.
  cbn [filter]. rewrite H0, H1, H2, H3. reflexivity.
Qed.

Lemma create_zones_eight :
  @create_zones demo_utils None (__init__ eight_communes)
  = Ok (zones_of_eight, set_zones (__init__ eight_communes) zones_of_eight).
Proof.
  rewrite create_zones_eq, assignments_eight, aggregate_eight. reflexivity.
Qed.

(** The zones of the last two centres have the more houses, and
    otherwise the aggregates of the four zones are the same: zones 0 and
    1 tie on [score_total], zones 2 and 3 tie 24 points above them. *)
Lemma housing_of_eight :
  map (housing_of zones_of_eight) zones_of_eight = [40; 40; 100; 100].
Proof.
  assert (Hp : map Zone.pct_residences_principales zones_of_eight
               = [80; 80; 80; 80]).
  { unfold zones_of_eight, zone_0, zone_1, zone_2, zone_3, agg_zone, zone_rows,
      series_mean. cbn. repeat f_equal; lra. }
  assert (Hmin : series_min [60; 60; 80; 80] = 60).
  { unfold series_min; cbn [fold_left].
    rewrite (Rmin_left 60 60) by lra. rewrite !(Rmin_left 60 80) by lra.
    reflexivity. }
  assert (Hmax : series_max [60; 60; 80; 80] = 80).
  { unfold series_max; cbn [fold_left].
    rewrite (Rmax_left 60 60) by lra. rewrite (Rmax_right 60 80) by lra.
    rewrite (Rmax_left 80 80) by lra. reflexivity. }
  assert (Hmin' : series_min [80; 80; 80; 80] = 80).
  { apply series_min_const; [repeat constructor | discriminate]. }
  assert (Hmax' : series_max [80; 80; 80; 80] = 80).
  { apply series_max_const; [repeat constructor | discriminate]. }
  assert (Hlow : normalize_score 60 60 80 = 0).
  { unfold normalize_score. destruct (Req_dec_T 60 80) as [H|H]; [lra|].
    unfold clamp. replace ((60 - 60) / (80 - 60)) with 0 by lra.
    rewrite Rmin_left by lra. rewrite Rmax_left by lra. lra. }
  assert (Hhigh : normalize_score 80 60 80 = 100).
  { unfold normalize_score. destruct (Req_dec_T 60 80) as [H|H]; [lra|].
    unfold clamp. replace ((80 - 60) / (80 - 60)) with 1 by lra.
    rewrite Rmin_left by lra. rewrite Rmax_right by lra. lra. }
  assert (Hsame : normalize_score 80 80 80 = 100).
  { rewrite normalize_score_degenerate. destruct (Rle_dec 80 80); [reflexivity|lra]. }
  pose proof pct_maisons_of_eight as Hm.
  unfold housing_of. rewrite Hm, Hp, Hmin, Hmax, Hmin', Hmax'.
  assert (M0 : Zone.pct_maisons zone_0 = 60)
    by exact (f_equal (fun l => nth 0 l 0) Hm).
  assert (M1 : Zone.pct_maisons zone_1 = 60)
    by exact (f_equal (fun l => nth 1 l 0) Hm).
  assert (M2 : Zone.pct_maisons zone_2 = 80)
    by exact (f_equal (fun l => nth 2 l 0) Hm).
  assert (M3 : Zone.pct_maisons zone_3 = 80)
    by exact (f_equal (fun l => nth 3 l 0) Hm).
  assert (P0 : Zone.pct_residences_principales zone_0 = 80)
    by exact (f_equal (fun l => nth 0 l 0) Hp).
  assert (P1 : Zone.pct_residences_principales zone_1 = 80)
    by exact (f_equal (fun l => nth 1 l 0) Hp).
  assert (P2 : Zone.pct_residences_principales zone_2 = 80)
    by exact (f_equal (fun l => nth 2 l 0) Hp).
  assert (P3 : Zone.pct_residences_principales zone_3 = 80)
    by exact (f_equal (fun l => nth 3 l 0) Hp).
  unfold zones_of_eight. cbn [map].
  rewrite M0, M1, M2, M3, P0, P1, P2, P3, Hlow, Hhigh, Hsame.
  repeat f_equal; lra.
Qed.

Lemma totals_of_eight self :
  exists base,
    Scored.score_total (@scored_row demo_config self zones_of_eight zone_0) = base /\
    Scored.score_total (@scored_row demo_config self zones_of_eight zone_1) = base /\
    Scored.score_total (@scored_row demo_config self zones_of_eight zone_2)
      = base + 24 /\
    Scored.score_total (@scored_row demo_config self zones_of_eight zone_3)
      = base + 24.
Proof.
  pose proof housing_of_eight as Hh.
  unfold zones_of_eight in Hh at 2. cbn [map] in Hh.
  injection Hh as H0 H1 H2 H3.
  exists (40 * 0.40 + income_of self zones_of_eight zone_0 * 0.30
          + @market_of demo_config zones_of_eight zone_0 * 0.30).
  split; [rewrite <- H0; reflexivity|].
  split; [rewrite <- H1; reflexivity|].
  change (Scored.score_total (@scored_row demo_config self zones_of_eight zone_2))
    with (housing_of zones_of_eight zone_2 * 0.40
          + income_of self zones_of_eight zone_0 * 0.30
          + @market_of demo_config zones_of_eight zone_0 * 0.30).
  change (Scored.score_total (@scored_row demo_config self zones_of_eight zone_3))
    with (housing_of zones_of_eight zone_3 * 0.40
          + income_of self zones_of_eight zone_0 * 0.30
          + @market_of demo_config zones_of_eight zone_0 * 0.30).
  rewrite H2, H3. split; lra.
Qed.

(** With a stable [sort_values] the four zones are ranked 2, 3, 0, 1: each
    tied pair in zone-table order. *)
Lemma stable_sort_ranks_eight :
  exists r1 r2 r3 r4 st,
    @calculate_scores demo_config demo_utils pandas_stable
      (set_zones (__init__ eight_communes) zones_of_eight)
      = Ok ([r1; r2; r3; r4], st) /\
    map zone_id_of [r1; r2; r3; r4] = [2; 3; 0; 1]%nat.
Proof.
  set (st0 := set_zones (__init__ eight_communes) zones_of_eight).
  destruct (totals_of_eight st0) as [base [T0 [T1 [T2 T3]]]].
  set (row := fun z => @scored_row demo_config st0 zones_of_eight z) in *.
  assert (Hsort : sort_by Rlt_bool Scored.score_total
                    [row zone_0; row zone_1; row zone_2; row zone_3]
                  = [row zone_2; row zone_3; row zone_0; row zone_1]).
  { cbn [sort_by fold_right insert_by].
    rewrite (proj2 (Rlt_bool_false (Scored.score_total (row zone_2))
                                   (Scored.score_total (row zone_3))))
      by (rewrite T2, T3; lra).
    cbn [insert_by].
    rewrite (proj2 (Rlt_bool_true (Scored.score_total (row zone_1))
                                  (Scored.score_total (row zone_2))))
      by (rewrite T1, T2; lra).
    rewrite (proj2 (Rlt_bool_true (Scored.score_total (row zone_1))
                                  (Scored.score_total (row zone_3))))
      by (rewrite T1, T3; lra).
    cbn [insert_by].
    rewrite (proj2 (Rlt_bool_true (Scored.score_total (row zone_0))
                                  (Scored.score_total (row zone_2))))
      by (rewrite T0, T2; lra).
    rewrite (proj2 (Rlt_bool_true (Scored.score_total (row zone_0))
                                  (Scored.score_total (row zone_3))))
      by (rewrite T0, T3; lra).
    rewrite (proj2 (Rlt_bool_false (Scored.score_total (row zone_0))
                                   (Scored.score_total (row zone_1))))
      by (rewrite T0, T1; lra).
    reflexivity. }
  eexists _, _, _, _, _. split.
  { rewrite calculate_scores_eq. unfold scoring_input.
    cbn [no_zones zones set_zones st0 zones_of_eight].
    fold zones_of_eight. fold st0.
    rewrite score_and_rank_eq.
    unfold sort_values_desc, pandas_stable.
    change (map (scored_row st0 zones_of_eight) zones_of_eight)
      with [row zone_0; row zone_1; row zone_2; row zone_3].
    rewrite Hsort. reflexivity. }
  reflexivity.
Qed.

(** C5, the clause on ties.  Eight communes give four zones, with zone
    ids 0 to 3 in the order of the zone table; zones 0 and 1 have the same
    [score_total], zones 2 and 3 have the same, higher one.  With a
    [sort_values] that meets the pandas contract for the default sort
    kind, [calculate_scores] ranks them 3, 2, 1, 0: zone 3 comes out above
    zone 2, and zone 1 above zone 0, although each pair ties and has the
    opposite order in the zone table. *)
Lemma sort_values_reorders_tied_zones :
  exists st0 r1 r2 r3 r4 st,
    @create_zones demo_utils None (__init__ eight_communes)
      = Ok (zones_of_eight, st0) /\
    map Zone.zone_id zones_of_eight = [0; 1; 2; 3]%nat /\
    @calculate_scores demo_config demo_utils pandas_ties_reversed st0
      = Ok ([r1; r2; r3; r4], st) /\
    map zone_id_of [r1; r2; r3; r4] = [3; 2; 1; 0]%nat /\
    map Ranked.rank [r1; r2; r3; r4] = [1; 2; 3; 4]%nat /\
    total_of r1 = total_of r2 /\
    total_of r3 = total_of r4 /\
    total_of r3 < total_of r2 /\
    ~ ties_keep_prior_order zones_of_eight [r1; r2; r3; r4].
Proof.
  set (st0 := set_zones (__init__ eight_communes) zones_of_eight).
  destruct (totals_of_eight st0) as [base [T0 [T1 [T2 T3]]]].
  set (row := fun z => @scored_row demo_config st0 zones_of_eight z) in *.
  exists st0, (Ranked.mk (row zone_3) 1), (Ranked.mk (row zone_2) 2),
         (Ranked.mk (row zone_1) 3), (Ranked.mk (row zone_0) 4),
         (set_scored_zones st0
            [Ranked.mk (row zone_3) 1; Ranked.mk (row zone_2) 2;
             Ranked.mk (row zone_1) 3; Ranked.mk (row zone_0) 4]).
  split; [apply create_zones_eight|]. split; [reflexivity|].
  assert (Hsort : sort_by Rle_bool Scored.score_total
                    [row zone_0; row zone_1; row zone_2; row zone_3]
                  = [row zone_3; row zone_2; row zone_1; row zone_0]).
  { cbn [sort_by fold_right insert_by].
    rewrite (proj2 (Rle_bool_true (Scored.score_total (row zone_2))
                                  (Scored.score_total (row zone_3))))
      by (rewrite T2, T3; lra).
    cbn [insert_by].
    rewrite (proj2 (Rle_bool_true (Scored.score_total (row zone_1))
                                  (Scored.score_total (row zone_3))))
      by (rewrite T1, T3; lra).
    rewrite (proj2 (Rle_bool_true (Scored.score_total (row zone_1))
                                  (Scored.score_total (row zone_2))))
      by (rewrite T1, T2; lra).
    cbn [insert_by].
    rewrite (proj2 (Rle_bool_true (Scored.score_total (row zone_0))
                                  (Scored.score_total (row zone_3))))
      by (rewrite T0, T3; lra).
    rewrite (proj2 (Rle_bool_true (Scored.score_total (row zone_0))
                                  (Scored.score_total (row zone_2))))
      by (rewrite T0, T2; lra).
    rewrite (proj2 (Rle_bool_true (Scored.score_total (row zone_0))
                                  (Scored.score_total (row zone_1))))
      by (rewrite T0, T1; lra).
    reflexivity. }
  split.
  { rewrite calculate_scores_eq. unfold scoring_input.
    cbn [no_zones zones set_zones st0 zones_of_eight].
    fold zones_of_eight. fold st0.
    rewrite score_and_rank_eq.
    unfold sort_values_desc, pandas_ties_reversed.
    change (map (scored_row st0 zones_of_eight) zones_of_eight)
      with [row zone_0; row zone_1; row zone_2; row zone_3].
    rewrite Hsort. reflexivity. }
  split; [reflexivity|]. split; [reflexivity|].
  unfold total_of; cbn [Ranked.scored].
  split; [rewrite T2, T3; reflexivity|].
  split; [rewrite T0, T1; reflexivity|].
  split; [rewrite T1, T2; lra|].
  intros Hstable.
  destruct (Hstable 0%nat 1%nat (Ranked.mk (row zone_0) 0))
    as [i' [j' [Hlt [Hi Hj]]]]; [simpl; lia | |].
  { unfold total_of; cbn [nth Ranked.scored]. rewrite T2, T3. reflexivity. }
  cbn [nth Ranked.scored] in Hi, Hj.
  assert (Hid : forall n z, nth_error zones_of_eight n = Some z ->
                            Zone.zone_id z = n).
  { intros [|[|[|[|[|n]]]]] z H; simpl in H; try discriminate;
      inversion H; reflexivity. }
  apply Hid in Hi. apply Hid in Hj. simpl in Hi, Hj. lia.
Qed.

(** ** The income score and the national benchmark (C9) *)




Section Benchmark.
Context {C : Config} {U : Utils} {P : Pandas}.

Lemma after_create_zones_benchmark max_radius_km self :
  national_median_income (after_create_zones max_radius_km self)
    = national_median_income self /\
  data (after_create_zones max_radius_km self) = data self.
Proof.
  unfold after_create_zones.
  destruct (assignments max_radius_km self); split; reflexivity.
Qed.

Lemma scoring_input_benchmark self :
  national_median_income (scoring_input self) = national_median_income self /\
  data (scoring_input self) = data self.
Proof.
  unfold scoring_input. destruct (no_zones self).
  - apply after_create_zones_benchmark.
  - split; reflexivity.
Qed.

Lemma score_and_rank_zone_set self zones :
  Permutation zones
    (map (fun row => Scored.zone (Ranked.scored row)) (score_and_rank self zones)).
Proof.
  pose proof (Permutation_map Scored.zone (score_and_rank_perm self zones)) as H.
  rewrite !map_map in H. simpl in H. rewrite map_id in H. exact H.
Qed.

End Benchmark.



(** ** Empty results (C8) *)

Lemma eligible_hamlet : filter_eligible_communes (__init__ [hamlet]) = [].
Proof.
  unfold filter_eligible_communes; cbn [data __init__ filter].
  unfold eligible_commune, hamlet, demo_commune; simpl.
  rewrite (proj2 (Rge_bool_false 40 100)) by lra.
  now rewrite !andb_false_r.
Qed.

Section EmptyResults.
Context {C : Config} {U : Utils} {P : Pandas}.

Lemma no_eligible_empty max_radius_km self :
  no_zones self = true ->
  filter_eligible_communes self = [] ->
  create_zones max_radius_km self = Ok ([], self) /\
  calculate_scores self = Ok ([], self).
Proof.
  intros Hz He. split.
  - rewrite create_zones_eq, (assignments_no_eligible _ _ He). reflexivity.
  - rewrite calculate_scores_eq. unfold scoring_input, after_create_zones.
    rewrite Hz, (assignments_no_eligible _ _ He).
    unfold no_zones in Hz. destruct (zones self) as [[|z zs]|];
      [reflexivity | discriminate | reflexivity].
Qed.

End EmptyResults.

(** C8. For the analyzer built from a commune table and a radius that is
    not negative (the sidebar gives 10 to 50, the default is 15): when the
    table has no row, or no commune passes the commune filter, or no
    commune is assigned within the radius, [create_zones] and
    [calculate_scores] both return an empty table, without raising and
    leaving the analyzer as it was. *)
Theorem empty_results_propagate
    {C : Config} {U : Utils} {P : Pandas}
    (d : list Commune.t) (max_radius_km : option R) :
  0 <= radius_of max_radius_km ->
  d = [] \/
  filter_eligible_communes (__init__ d) = [] \/
  assignments max_radius_km (__init__ d) = [] ->
  create_zones max_radius_km (__init__ d) = Ok ([], __init__ d) /\
  calculate_scores (__init__ d) = Ok ([], __init__ d).
Proof.
  intros Hr Hempty.
  apply no_eligible_empty; [reflexivity|].
  destruct Hempty as [Hd | [He | Ha]].
  - now rewrite Hd.
  - exact He.
  - now apply (assignments_nil_nonneg max_radius_km).
Qed.

(** A table whose only commune fails the commune filter, at the default
    radius. *)
Lemma empty_results_propagate_hamlet :
  0 <= radius_of None /\
  filter_eligible_communes (__init__ [hamlet]) = [] /\
  @create_zones demo_utils None (__init__ [hamlet]) = Ok ([], __init__ [hamlet]) /\
  @calculate_scores demo_config demo_utils pandas_stable (__init__ [hamlet])
    = Ok ([], __init__ [hamlet]).
Proof.
  assert (Hr : 0 <= radius_of None) by (simpl; lra).
  split; [exact Hr|].
  split; [exact eligible_hamlet|].
  exact (@empty_results_propagate demo_config demo_utils pandas_stable
           [hamlet] None Hr (or_intror (or_introl eligible_hamlet))).
Defined.

(** The hypothesis on the radius: at radius -1, which the sidebar never
    gives, nothing is assigned around Arnas and [create_zones] returns an
    empty table, leaving the analyzer without zone table;
    [calculate_scores] then runs [create_zones] again, at the default
    radius 15, and returns one ranked zone. *)
Lemma negative_radius_empty_then_scored :
  assignments (Some (-1)) (__init__ two_communes) = [] /\
  @create_zones demo_utils (Some (-1)) (__init__ two_communes)
    = Ok ([], __init__ two_communes) /\
  exists row st,
    @calculate_scores demo_config demo_utils pandas_stable (__init__ two_communes)
      = Ok ([row], st) /\
    Ranked.rank row = 1%nat /\
    Zone.nb_communes (Scored.zone (Ranked.scored row)) = 2%nat.
Proof.
  assert (Ha : assignments (Some (-1)) (__init__ two_communes) = []).
  { rewrite assignments_two. cbn [radius_of].
    now rewrite (proj2 (Rle_bool_false 0 (-1))) by lra. }
  split; [exact Ha|]. split.
  { rewrite create_zones_eq, Ha. reflexivity. }
  eexists _, _. split.
  { rewrite calculate_scores_eq. unfold scoring_input, after_create_zones.
    cbn [no_zones zones __init__].
    rewrite assignments_two. cbn [radius_of].
    rewrite (proj2 (Rle_bool_true 0 15)) by lra.
    change (match zone_arnas with
            | [] => __init__ two_communes
            | _ :: _ => set_zones (__init__ two_communes)
                                  (@_aggregate_zones demo_utils zone_arnas)
            end)
      with (set_zones (__init__ two_communes) (@_aggregate_zones demo_utils zone_arnas)).
    rewrite aggregate_zone_arnas. cbn [zones set_zones].
    rewrite score_and_rank_eq. reflexivity. }
  split; reflexivity.
Qed.

(** ** [get_zone_details] (C10) *)

(** Once a scored table is stored, [get_zone_details] returns the first row
    of the given zone id, and the empty dictionary when there is none. *)
Lemma get_zone_details_scored
    {C : Config} {U : Utils} {P : Pandas} zone_id self table :
  scored_zones self = Some table ->
  get_zone_details zone_id self =
  Ok (hd_error (filter (has_zone_id zone_id) table), self).
Proof.
  intros H. unfold get_zone_details. rewrite H. simpl. rewrite H.
  fold (has_zone_id zone_id).
  destruct (filter (has_zone_id zone_id) table); reflexivity.
Qed.

(** C10, at a table whose only commune fails the commune filter:
    [calculate_scores] returns early and stores no scored table, and
    [get_zone_details] raises [TypeError] for every zone id. *)
Theorem get_zone_details_raises_without_scored_table
    {C : Config} {U : Utils} {P : Pandas} (zone_id : nat) :
  calculate_scores (__init__ [hamlet]) = Ok ([], __init__ [hamlet]) /\
  scored_zones (__init__ [hamlet]) = None /\
  get_zone_details zone_id (__init__ [hamlet]) = Raise TypeError.
Proof.
  assert (H : calculate_scores (__init__ [hamlet]) = Ok ([], __init__ [hamlet])).
  { apply (no_eligible_empty None); [reflexivity | apply eligible_hamlet]. }
  split; [exact H|]. split; [reflexivity|].
  unfold get_zone_details. cbn [scored_zones __init__].
  rewrite H. reflexivity.
Qed.

(** ** The readable name of a zone (C6) *)

(** C6, the suffix of the name: a zone of four communes is named after its
    first three sorted names followed by [" + 1 autres"]; the name does
    not end with ["+1 others"]. *)
Lemma zone_name_suffix_is_autres :
  exists z,
    @aggregated demo_utils zone_of_four = [z] /\
    Zone.nb_communes z = 4%nat /\
    Zone.nom_commune z = "Arnas, Blace, Macon + 1 autres" /\
    ends_with " + 1 autres" (Zone.nom_commune z) = true /\
    ends_with "+1 others" (Zone.nom_commune z) = false /\
    ends_with "others" (Zone.nom_commune z) = false.
Proof.
  eexists. split; [reflexivity|]. repeat split.
Qed.

(** ** Small checks of the definitions *)

Example format_zone_name_three :
  format_zone_name ["Lyon"; "Bron"; "Caluire"] = "Bron, Caluire, Lyon".
Proof. reflexivity. Qed.

Example format_zone_name_five :
  format_zone_name ["Lyon"; "Bron"; "Caluire"; "Vaulx"; "Anse"]
  = "Anse, Bron, Caluire + 2 autres".
Proof. reflexivity. Qed.

Example group_keys_sorted_distinct :
  group_keys [3; 0; 3; 1; 0]%nat = [0; 1; 3]%nat.
Proof. reflexivity. Qed.

Example series_median_odd : series_median [3; 1; 2] = 2.
Proof.
  unfold series_median, sort_asc; cbn [sort_le fold_right insert_le].
  rewrite (proj2 (Rle_bool_true 1 2)) by lra. cbn [insert_le].
  rewrite (proj2 (Rle_bool_false 3 1)) by lra.
  rewrite (proj2 (Rle_bool_false 3 2)) by lra. reflexivity.
Qed.

Example series_median_even : series_median [4; 1] = 5 / 2.
Proof.
  unfold series_median, sort_asc; cbn [sort_le fold_right insert_le].
  rewrite (proj2 (Rle_bool_false 4 1)) by lra. simpl. lra.
Qed.

(** One degree of latitude is between 106 and 142 km (about 111). *)
Example dist_arnas_macon : 106 < dist arnas macon < 142.
Proof.
  unfold arnas, macon. rewrite dist_one_degree_north. unfold one_degree_km.
  pose proof PI2_3_2. pose proof PI_4. lra.
Qed.

Example normalize_score_midpoint : normalize_score 75 50 100 = 50.
Proof.
  unfold normalize_score. destruct (Req_dec_T 50 100) as [H|H]; [lra|].
  unfold clamp. replace ((75 - 50) / (100 - 50)) with (1 / 2) by lra.
  rewrite Rmin_left by lra. rewrite Rmax_right by lra. lra.
Qed.

Example normalize_score_above : normalize_score 120 50 100 = 100.
Proof.
  unfold normalize_score. destruct (Req_dec_T 50 100) as [H|H]; [lra|].
  unfold clamp. replace ((120 - 50) / (100 - 50)) with (7 / 5) by lra.
  rewrite Rmin_right by lra. rewrite Rmax_right by lra. lra.
Qed.

(** Blace, which is no centre, joins the zone of Arnas at distance 0, and
    Sance the zone of Macon. *)
Example assignments_four_zone_ids :
  map (fun a => (code_of a, Assignment.zone_id a, Assignment.center_commune a))
      (assignments None (__init__ four_communes))
  = [("69013", 0%nat, "Arnas"); ("69023", 0%nat, "Arnas");
     ("71270", 1%nat, "Macon"); ("71497", 1%nat, "Macon")].
Proof. rewrite assignments_four. reflexivity. Qed.

(** The codes of the four communes are distinct, and so are the codes of
    the rows assigned from them. *)
Lemma create_zones_assignment_partial_function_four :
  NoDup (map Commune.code_commune (data (__init__ four_communes))) /\
  NoDup (map code_of (assignments None (__init__ four_communes))).
Proof.
  assert (H : NoDup (map Commune.code_commune (data (__init__ four_communes)))).
  { cbn. repeat constructor; simpl; intuition discriminate. }
  split; [exact H|].
  exact (proj1 (create_zones_assignment_partial_function None
                  (__init__ four_communes) H)).
Defined.

(** * Further properties *)

(** ** The haversine kernel *)

Lemma haversine_km_a lat1 lon1 lat2 lon2 :
  haversine_km lat1 lon1 lat2 lon2
  = 6371 * (2 * asin (sqrt (haversine_a lat1 lon1 lat2 lon2))).
Proof. reflexivity. Qed.

Lemma sin_sqr_range x : 0 <= sin x ^ 2 <= 1.
Proof. pose proof (SIN_bound x). nra. Qed.

Lemma haversine_a_range lat1 lon1 lat2 lon2 :
  0 <= haversine_a lat1 lon1 lat2 lon2 <= 1.
Proof.
  unfold haversine_a.
  set (x := radians (lat2 - lat1) / 2).
  set (y := radians (lon2 - lon1) / 2).
  set (f1 := radians lat1). set (f2 := radians lat2).
  assert (E2x : 2 * x = f2 - f1) by (unfold x, f1, f2, radians; lra).
  pose proof (cos_2a_sin x) as Hc2. rewrite E2x, cos_minus in Hc2.
  pose proof (cos_plus f2 f1) as Hcp.
  pose proof (COS_bound (f2 + f1)) as Hb.
  pose proof (sin_sqr_range x) as Hx.
  pose proof (sin_sqr_range y) as Hy.
  set (h := sin x ^ 2) in *. set (s := sin y ^ 2) in *.
  set (p := cos f1 * cos f2).
  assert (Hp : - h <= p <= 1 - h).
  { unfold p, h. simpl. nra. }
  split; nra.
Qed.

Lemma atan_nonneg x : 0 <= x -> 0 <= atan x.
Proof.
  intros [H| <-].
  - rewrite <- atan_0. left. now apply atan_increasing.
  - rewrite atan_0. lra.
Qed.

Lemma asin_nonneg x : 0 <= x -> 0 <= asin x.
Proof.
  intros Hx. pose proof PI_RGT_0. unfold asin.
  destruct (Rle_dec x (-1)); [lra|].
  destruct (Rle_dec 1 x); [lra|].
  apply atan_nonneg. apply Rmult_le_pos; [assumption|].
  destruct (Req_dec (sqrt (1 - x²)) 0) as [E|E].
  - rewrite E, Rinv_0. lra.
  - left. apply Rinv_0_lt_compat. pose proof (sqrt_pos (1 - x²)). lra.
Qed.

Lemma haversine_km_range lat1 lon1 lat2 lon2 :
  0 <= sqrt (haversine_a lat1 lon1 lat2 lon2) <= 1 /\
  0 <= haversine_km lat1 lon1 lat2 lon2 <= 6371 * PI.
Proof.
  pose proof (haversine_a_range lat1 lon1 lat2 lon2) as [Ha0 Ha1].
  assert (Hs : 0 <= sqrt (haversine_a lat1 lon1 lat2 lon2) <= 1).
  { split; [apply sqrt_pos|]. rewrite <- sqrt_1. now apply sqrt_le_1_alt. }
  split; [exact Hs|]. rewrite haversine_km_a.
  pose proof (asin_nonneg _ (proj1 Hs)).
  pose proof (asin_bound (sqrt (haversine_a lat1 lon1 lat2 lon2))).
  split; nra.
Qed.

Lemma haversine_km_sym lat1 lon1 lat2 lon2 :
  haversine_km lat1 lon1 lat2 lon2 = haversine_km lat2 lon2 lat1 lon1.
Proof.
  rewrite !haversine_km_a. do 4 f_equal. unfold haversine_a.
  replace (radians (lat2 - lat1) / 2) with (- (radians (lat1 - lat2) / 2))
    by (unfold radians; lra).
  replace (radians (lon2 - lon1) / 2) with (- (radians (lon1 - lon2) / 2))
    by (unfold radians; lra).
  rewrite !sin_neg. ring.
Qed.

(** X1. For all coordinates the quantity under the square root of the
    haversine formula is between 0 and 1, so that the arc sine is taken
    inside its domain; the distance is between 0 and 6371 times pi
    kilometres, is the same in both directions, and is 0 from a point to
    itself. *)
Theorem haversine_km_bounded_symmetric (lat1 lon1 lat2 lon2 : R) :
  0 <= haversine_a lat1 lon1 lat2 lon2 <= 1 /\
  0 <= sqrt (haversine_a lat1 lon1 lat2 lon2) <= 1 /\
  haversine_km lat1 lon1 lat2 lon2
    = 6371 * (2 * asin (sqrt (haversine_a lat1 lon1 lat2 lon2))) /\
  0 <= haversine_km lat1 lon1 lat2 lon2 <= 6371 * PI /\
  haversine_km lat1 lon1 lat2 lon2 = haversine_km lat2 lon2 lat1 lon1 /\
  haversine_km lat1 lon1 lat1 lon1 = 0.
Proof.
  split; [apply haversine_a_range|].
  split; [apply haversine_km_range|].
  split; [apply haversine_km_a|].
  split; [apply haversine_km_range|].
  split; [apply haversine_km_sym | apply haversine_km_same_point].
Qed.

(** ** More on the assignment loop *)

Lemma dist_range c k : 0 <= dist c k <= 6371 * PI.
Proof. apply haversine_km_range. Qed.

Lemma min_distance_range centers c :
  centers <> [] -> 0 <= min_distance centers c <= 6371 * PI.
Proof.
  intros Hne. unfold min_distance.
  pose proof (series_min_In _ (distances_to_nonempty centers c Hne)) as Hin.
  unfold distances_to in Hin at 2. apply in_map_iff in Hin.
  destruct Hin as [k [<- _]]. apply haversine_km_range.
Qed.

(** The loop on the centres and rows [create_zones] gives it. *)
Lemma assign_communes_select r eligible :
  assign_communes (select_city_centers eligible) r eligible =
  Ok (map (assignment_of (select_city_centers eligible))
          (filter (within_radius (select_city_centers eligible) r) eligible)).
Proof.
  destruct eligible as [|c rest] eqn:E; [reflexivity|]. rewrite <- E.
  apply assign_communes_eq, select_city_centers_nonempty. subst; discriminate.
Qed.

(** X2. With a radius that is not negative, the assignment loop of
    [create_zones] gives every city centre a row, with distance 0, whose
    zone id is the position of a centre at distance 0 from it (itself, or
    a centre at the same coordinates); and no recorded distance is
    negative. *)
Theorem centers_assigned_at_distance_zero (eligible : list Commune.t) (r : R) :
  0 <= r ->
  exists table,
    assign_communes (select_city_centers eligible) r eligible = Ok table /\
    Forall (fun a => 0 <= Assignment.distance_to_center a) table /\
    Forall (fun k =>
              exists a k',
                In a table /\ Assignment.commune a = k /\
                Assignment.distance_to_center a = 0 /\
                nth_error (select_city_centers eligible) (Assignment.zone_id a)
                  = Some k' /\
                dist k k' = 0)
           (select_city_centers eligible).
Proof.
  intros Hr. rewrite assign_communes_select. eexists. split; [reflexivity|].
  set (centers := select_city_centers eligible).
  split.
  - apply Forall_forall. intros a Ha. apply in_map_iff in Ha.
    destruct Ha as [c [<- Hc]]. simpl. apply filter_In in Hc.
    apply min_distance_range. apply select_city_centers_nonempty.
    intros E. rewrite E in Hc. destruct Hc as [[] _].
  - apply Forall_forall. intros k Hk.
    assert (Hne : centers <> []) by (intros E; rewrite E in Hk; exact Hk).
    assert (Hmin : min_distance centers k = 0).
    { apply Rle_antisym; [now apply min_distance_center|].
      now apply min_distance_range. }
    destruct (assignment_of_nearest centers k Hne) as [k' [H1 [H2 [H3 H4]]]].
    exists (assignment_of centers k), k'. repeat split.
    + apply in_map, filter_In. split.
      * now apply select_city_centers_incl.
      * apply within_radius_true. lra.
    + exact Hmin.
    + exact H1.
    + rewrite <- H2. exact Hmin.
Qed.

(** X3. With a radius of at least 6371 times pi kilometres the assignment
    loop of [create_zones] keeps every eligible commune, in row order. *)
Theorem wide_radius_assigns_every_commune (eligible : list Commune.t) (r : R) :
  6371 * PI <= r ->
  exists table,
    assign_communes (select_city_centers eligible) r eligible = Ok table /\
    map Assignment.commune table = eligible.
Proof.
  intros Hr. rewrite assign_communes_select. eexists. split; [reflexivity|].
  rewrite map_map. simpl. rewrite map_id.
  apply forallb_filter_id. apply forallb_forall. intros c Hc.
  apply within_radius_true.
  assert (Hne : select_city_centers eligible <> []).
  { apply select_city_centers_nonempty. intros E. rewrite E in Hc. exact Hc. }
  pose proof (min_distance_range _ c Hne). lra.
Qed.

(** X4. The assignment table of a radius is the table of any larger radius
    restricted to the rows whose recorded distance is within the smaller
    radius: enlarging the radius adds rows, and changes neither the zone
    id nor the distance nor the centre of a row already there. *)
Theorem larger_radius_only_adds_rows (eligible : list Commune.t) (r r' : R) :
  r <= r' ->
  exists table table',
    assign_communes (select_city_centers eligible) r eligible = Ok table /\
    assign_communes (select_city_centers eligible) r' eligible = Ok table' /\
    table = filter (fun a => Rle_bool (Assignment.distance_to_center a) r) table'.
Proof.
  intros Hr. rewrite !assign_communes_select. eexists _, _.
  split; [reflexivity|]. split; [reflexivity|].
  generalize (select_city_centers eligible) as centers. intros centers.
  induction eligible as [|c rest IH]; [reflexivity|].
  cbn [filter].
  destruct (within_radius centers r c) eqn:E;
    destruct (within_radius centers r' c) eqn:E'; cbn [map filter].
  - replace (Rle_bool (Assignment.distance_to_center (assignment_of centers c)) r)
      with true by (symmetry; exact E).
    now rewrite IH.
  - apply within_radius_true in E. apply Rle_bool_false in E'. lra.
  - replace (Rle_bool (Assignment.distance_to_center (assignment_of centers c)) r)
      with false by (symmetry; exact E).
    exact IH.
  - exact IH.
Qed.

(** ** Zones and eligible communes *)

Lemma filter_idempotent {A} (f : A -> bool) l : filter f (filter f l) = filter f l.
Proof.
  induction l as [|x t IH]; [reflexivity|]. simpl.
  destruct (f x) eqn:E; [|exact IH]. simpl. now rewrite E, IH.
Qed.

(** X5. Filtering the eligible communes a second time changes nothing, and
    [create_zones] returns the same zones on a commune table and on the
    table of its eligible communes alone: a commune that fails the commune
    filter is neither a centre nor a member, and has no effect on any
    zone. *)
Theorem create_zones_ignores_ineligible_communes
    {U : Utils} (d : list Commune.t) (max_radius_km : option R) :
  let eligible := filter_eligible_communes (__init__ d) in
  filter_eligible_communes (__init__ eligible) = eligible /\
  exists zs st st',
    create_zones max_radius_km (__init__ d) = Ok (zs, st) /\
    create_zones max_radius_km (__init__ eligible) = Ok (zs, st').
Proof.
  intros eligible.
  assert (He : filter_eligible_communes (__init__ eligible) = eligible).
  { unfold eligible, filter_eligible_communes. cbn [data __init__].
    apply filter_idempotent. }
  split; [exact He|].
  assert (Ha : assignments max_radius_km (__init__ eligible)
               = assignments max_radius_km (__init__ d)).
  { unfold assignments. rewrite He. reflexivity. }
  rewrite !create_zones_eq, Ha.
  destruct (assignments max_radius_km (__init__ d)); eexists _, _, _;
    split; reflexivity.
Qed.

(** ** Zone identifiers *)

Lemma StronglySorted_map_filter {A B} (R : B -> B -> Prop) (f : A -> B) p l :
  StronglySorted R (map f l) -> StronglySorted R (map f (filter p l)).
Proof.
  induction l as [|x t IH]; simpl; intros Hs; [constructor|].
  inversion Hs as [|? ? Ht Hall]; subst.
  destruct (p x); simpl; [|now apply IH].
  constructor; [now apply IH|].
  rewrite Forall_forall in *. intros y Hy. apply Hall.
  apply in_map_iff in Hy. destruct Hy as [a [<- Ha]].
  apply filter_In in Ha. apply in_map. tauto.
Qed.

Lemma aggregated_zone_ids {U : Utils} zones_df :
  map Zone.zone_id (aggregated zones_df)
  = group_keys (map Assignment.zone_id zones_df).
Proof.
  unfold aggregated. rewrite map_map. simpl.
  rewrite <- groupby_zone_id_keys. reflexivity.
Qed.

(** X6. The zones returned by [create_zones] have strictly increasing,
    hence distinct, zone ids; each zone id is the position of a city
    centre in the list of centres, and [center_commune] is the name of
    that centre. *)
Theorem create_zones_zone_ids
    {U : Utils} (max_radius_km : option R) (self : ZoneAnalyzer) :
  let centers := select_city_centers (filter_eligible_communes self) in
  exists zs st,
    create_zones max_radius_km self = Ok (zs, st) /\
    StronglySorted lt (map Zone.zone_id zs) /\
    NoDup (map Zone.zone_id zs) /\
    Forall (fun z => exists k,
                nth_error centers (Zone.zone_id z) = Some k /\
                Zone.center_commune z = Commune.nom_commune k) zs.
Proof.
  intros centers. rewrite create_zones_eq.
  destruct (assignments max_radius_km self) as [|a0 t0] eqn:Etab.
  { exists [], self. repeat split; constructor. }
  rewrite <- Etab.
  eexists _, _. split; [reflexivity|].
  assert (Hs : StronglySorted lt
                 (map Zone.zone_id (_aggregate_zones (assignments max_radius_km self)))).
  { unfold _aggregate_zones. apply StronglySorted_map_filter.
    rewrite aggregated_zone_ids. apply group_keys_sorted. }
  split; [exact Hs|]. split; [now apply StronglySorted_lt_NoDup|].
  apply Forall_forall. intros z Hz. unfold _aggregate_zones in Hz.
  apply filter_In in Hz. destruct Hz as [Hz _].
  unfold aggregated in Hz. apply in_map_iff in Hz.
  destruct Hz as [[k g] [<- Hg]]. cbn [fst snd].
  apply groupby_zone_id_In in Hg. destruct Hg as [Hk ->].
  pose proof (group_of_nonempty _ _ Hk) as Hne.
  destruct (group_of (assignments max_radius_km self) k) as [|a rest] eqn:Eg;
    [congruence|].
  assert (Ha : In a (group_of (assignments max_radius_km self) k))
    by (rewrite Eg; now left).
  apply group_of_In in Ha. destruct Ha as [Ha Hid].
  destruct (assignments_In _ _ _ Ha) as [Ea [_ [_ Hcne]]].
  destruct (assignment_of_nearest _ (Assignment.commune a) Hcne)
    as [k' [H1 [_ [H3 _]]]].
  rewrite <- Ea in H1, H3. rewrite Hid in H1.
  exists k'. split; [exact H1|]. exact H3.
Qed.

(** ** Aggregation conserves the totals *)

Lemma series_sum_indicator (id : nat) (v : R) ks :
  NoDup ks -> In id ks ->
  series_sum (map (fun k => if (id =? k)%nat then v else 0) ks) = v.
Proof.
  induction ks as [|h t IH]; intros Hnd Hin; [contradiction|].
  inversion Hnd as [|? ? Hnot Ht]; subst. simpl.
  destruct (id =? h)%nat eqn:E.
  - apply Nat.eqb_eq in E; subst.
    assert (Hz : series_sum (map (fun k => if (h =? k)%nat then v else 0) t) = 0).
    { clear IH Ht Hnd Hin. induction t as [|x t IH]; [reflexivity|]. simpl.
      destruct (h =? x)%nat eqn:E.
      - apply Nat.eqb_eq in E; subst. exfalso. apply Hnot. now left.
      - rewrite IH; [lra|]. intros H. apply Hnot. now right. }
    rewrite Hz. lra.
  - apply Nat.eqb_neq in E. destruct Hin as [->|Hin]; [congruence|].
    rewrite IH by assumption. lra.
Qed.

Lemma series_sum_plus {A} (f g : A -> R) l :
  series_sum (map (fun x => f x + g x) l)
  = series_sum (map f l) + series_sum (map g l).
Proof. induction l as [|x t IH]; simpl; [lra | rewrite IH; lra]. Qed.

Lemma series_sum_groups (f : Assignment.t -> R) zones_df ks :
  NoDup ks ->
  (forall a, In a zones_df -> In (Assignment.zone_id a) ks) ->
  series_sum (map (fun k => series_sum (map f (group_of zones_df k))) ks)
  = series_sum (map f zones_df).
Proof.
  intros Hnd. induction zones_df as [|a t IH]; intros Hin.
  - clear Hnd Hin. simpl.
    induction ks as [|k ks IHk]; simpl; [reflexivity | rewrite IHk; lra].
  - assert (E : forall k, series_sum (map f (group_of (a :: t) k))
                = (if (Assignment.zone_id a =? k)%nat then f a else 0)
                  + series_sum (map f (group_of t k))).
    { intros k. unfold group_of. simpl.
      destruct (Assignment.zone_id a =? k)%nat; simpl; lra. }
    rewrite (map_ext _ _ E), series_sum_plus.
    rewrite series_sum_indicator; [|assumption | apply Hin; now left].
    rewrite IH; [reflexivity|]. intros b Hb. apply Hin. now right.
Qed.

Lemma series_sum_ones {A} (l : list A) :
  series_sum (map (fun _ => 1) l) = INR (length l).
Proof.
  induction l as [|x t IH]; [reflexivity|].
  cbn [map series_sum fold_right length]. fold (series_sum (map (fun _ : A => 1) t)).
  rewrite IH, S_INR. lra.
Qed.

Lemma series_sum_filter_le {A} (f : A -> R) p l :
  (forall x, 0 <= f x) ->
  series_sum (map f (filter p l)) <= series_sum (map f l).
Proof.
  intros Hpos. induction l as [|x t IH]; simpl; [lra|].
  pose proof (Hpos x). destruct (p x); simpl; lra.
Qed.

(** X7. Aggregation counts every assigned commune once: over the
    aggregated zones, the numbers of communes add up to the number of rows
    of the assignment table, and population, households and individual
    houses add up to their totals over the assigned communes; after the
    zone-level filter the numbers of communes add up to at most the number
    of assigned rows. *)
Theorem aggregation_conserves_totals {U : Utils} (zones_df : list Assignment.t) :
  let total (f : Commune.t -> R) :=
    series_sum (map (fun a => f (Assignment.commune a)) zones_df) in
  series_sum (map (fun z => INR (Zone.nb_communes z)) (aggregated zones_df))
    = INR (length zones_df) /\
  series_sum (map Zone.population_totale (aggregated zones_df))
    = total Commune.population_totale /\
  series_sum (map Zone.nb_menages (aggregated zones_df))
    = total Commune.nb_menages /\
  series_sum (map Zone.nb_maisons_individuelles (aggregated zones_df))
    = total Commune.nb_maisons_individuelles /\
  series_sum (map (fun z => INR (Zone.nb_communes z)) (_aggregate_zones zones_df))
    <= INR (length zones_df).
Proof.
  intros total.
  assert (Hk : forall a, In a zones_df ->
                 In (Assignment.zone_id a) (group_keys (map Assignment.zone_id zones_df))).
  { intros a Ha. apply group_keys_In. now apply in_map. }
  pose proof (group_keys_NoDup (map Assignment.zone_id zones_df)) as Hnd.
  assert (Hcol : forall (g : Zone.t -> R) (f : Assignment.t -> R),
             (forall k members, g (agg_zone k members) = series_sum (map f members)) ->
             series_sum (map g (aggregated zones_df)) = series_sum (map f zones_df)).
  { intros g f Hg. unfold aggregated, groupby_zone_id. rewrite !map_map. cbn [fst snd].
    rewrite (map_ext _ (fun k => series_sum (map f (group_of zones_df k))))
      by (intros k; apply Hg).
    now apply series_sum_groups. }
  assert (Hcount : series_sum (map (fun z => INR (Zone.nb_communes z))
                                   (aggregated zones_df)) = INR (length zones_df)).
  { rewrite (Hcol _ (fun _ => 1)).
    - apply series_sum_ones.
    - intros k members. cbn [Zone.nb_communes agg_zone].
      rewrite length_map. symmetry. apply series_sum_ones. }
  split; [exact Hcount|].
  split; [apply Hcol; intros; reflexivity|].
  split; [apply Hcol; intros; reflexivity|].
  split; [apply Hcol; intros; reflexivity|].
  rewrite <- Hcount. unfold _aggregate_zones.
  apply series_sum_filter_le. intros z. apply pos_INR.
Qed.

(** ** What the analyzer stores *)

Section StoredState.
Context {C : Config} {U : Utils} {P : Pandas}.

Lemma score_and_rank_benchmark s1 s2 zs :
  national_median_income s1 = national_median_income s2 ->
  score_and_rank s1 zs = score_and_rank s2 zs.
Proof.
  intros H. unfold score_and_rank, _score_income, income_score. now rewrite H.
Qed.

Lemma assignments_data r s1 s2 :
  data s1 = data s2 -> assignments r s1 = assignments r s2.
Proof.
  intros H. unfold assignments, filter_eligible_communes. now rewrite H.
Qed.

Lemma calculate_scores_table self :
  calculate_scores self = Ok (scored_table self, after_calculate_scores self).
Proof.
  rewrite calculate_scores_eq. unfold scored_table, after_calculate_scores.
  destruct (zones (scoring_input self)) as [[|z zs]|]; reflexivity.
Qed.

Lemma scoring_input_no_zones self :
  no_zones (scoring_input self) = true ->
  scoring_input (scoring_input self) = scoring_input self.
Proof.
  intros Hn. unfold scoring_input at 1. rewrite Hn.
  unfold scoring_input in *. destruct (no_zones self) eqn:E; [|congruence].
  unfold after_create_zones at 2.
  destruct (assignments None self) as [|a t] eqn:Ea.
  - unfold after_create_zones. now rewrite Ea.
  - rewrite <- Ea.
    set (zs := _aggregate_zones (assignments None self)).
    unfold after_create_zones.
    rewrite (assignments_data None (set_zones self zs) self) by reflexivity.
    rewrite Ea. rewrite <- Ea. reflexivity.
Qed.

(** X8. [calculate_scores] run again on the analyzer it has left returns
    the same table and leaves the same analyzer; the commune table and the
    national median income are untouched. *)
Theorem calculate_scores_idempotent (self : ZoneAnalyzer) :
  exists out st,
    calculate_scores self = Ok (out, st) /\
    calculate_scores st = Ok (out, st) /\
    data st = data self /\
    national_median_income st = national_median_income self.
Proof.
  exists (scored_table self), (after_calculate_scores self).
  split; [apply calculate_scores_table|].
  destruct (scoring_input_benchmark self) as [Hn Hd].
  rewrite calculate_scores_table.
  unfold scored_table, after_calculate_scores.
  destruct (zones (scoring_input self)) as [[|z zs]|] eqn:Ez.
  - assert (Hno : no_zones (scoring_input self) = true)
      by (unfold no_zones; now rewrite Ez).
    rewrite (scoring_input_no_zones self Hno), Ez. repeat split; assumption.
  - set (si := scoring_input self) in *.
    set (ranked := score_and_rank si (z :: zs)).
    assert (Hsi : scoring_input (set_scored_zones si ranked) = set_scored_zones si ranked).
    { unfold scoring_input, no_zones. cbn [zones set_scored_zones]. now rewrite Ez. }
    rewrite Hsi. cbn [zones set_scored_zones]. rewrite Ez.
    assert (Hr : score_and_rank (set_scored_zones si ranked) (z :: zs) = ranked)
      by (apply score_and_rank_benchmark; reflexivity).
    rewrite Hr. repeat split; assumption.
  - assert (Hno : no_zones (scoring_input self) = true)
      by (unfold no_zones; now rewrite Ez).
    rewrite (scoring_input_no_zones self Hno), Ez. repeat split; assumption.
Qed.

End StoredState.

Section Caller.
Context {C : Config} {U : Utils} {P : Pandas}.

Lemma after_create_zones_zones r self :
  create_zones r self =
  Ok (match assignments r self with
      | [] => []
      | _ :: _ => _aggregate_zones (assignments r self)
      end, after_create_zones r self).
Proof.
  rewrite create_zones_eq. unfold after_create_zones.
  destruct (assignments r self); reflexivity.
Qed.

Lemma analyze_zones_eq cache d r :
  cache_lookup r cache = None ->
  analyze_zones cache d r =
  Ok (scored_table (after_create_zones (Some (IZR r)) (__init__ d)),
      (r, scored_table (after_create_zones (Some (IZR r)) (__init__ d))) :: cache).
Proof.
  intros Hc. unfold analyze_zones. rewrite Hc, after_create_zones_zones.
  cbn [rbind snd]. rewrite calculate_scores_table. reflexivity.
Qed.

Lemma cache_lookup_stored r out cache :
  cache_lookup r ((r, out) :: cache) = Some out.
Proof. simpl. now rewrite Z.eqb_refl. Qed.

Lemma scored_table_retry d st :
  data st = d ->
  national_median_income st = national_median_income (__init__ d) ->
  no_zones st = true ->
  scored_table st =
  scored_or_empty d (match assignments None (__init__ d) with
                     | [] => []
                     | _ :: _ => _aggregate_zones (assignments None (__init__ d))
                     end).
Proof.
  intros Hd Hn Hno. unfold scored_table, scoring_input. rewrite Hno.
  unfold after_create_zones.
  rewrite (assignments_data None st (__init__ d)) by (rewrite Hd; reflexivity).
  destruct (assignments None (__init__ d)) as [|a t] eqn:Ea.
  - unfold no_zones in Hno. destruct (zones st) as [[|z zs]|];
      [reflexivity | discriminate | reflexivity].
  - rewrite <- Ea. cbn [zones set_zones].
    destruct (_aggregate_zones (assignments None (__init__ d))) as [|z zs];
      [reflexivity|].
    cbn [scored_or_empty]. apply score_and_rank_benchmark. exact Hn.
Qed.

Lemma scored_table_after_create_zones d r :
  scored_table (after_create_zones r (__init__ d)) =
  match (match assignments r (__init__ d) with
         | [] => []
         | _ :: _ => _aggregate_zones (assignments r (__init__ d))
         end) with
  | z :: zs => scored_or_empty d (z :: zs)
  | [] => scored_or_empty d
            (match assignments None (__init__ d) with
             | [] => []
             | _ :: _ => _aggregate_zones (assignments None (__init__ d))
             end)
  end.
Proof.
  unfold after_create_zones.
  destruct (assignments r (__init__ d)) as [|a t] eqn:Ea.
  - now rewrite (scored_table_retry d) by reflexivity.
  - rewrite <- Ea.
    destruct (_aggregate_zones (assignments r (__init__ d))) as [|z zs] eqn:Eg.
    + now rewrite (scored_table_retry d) by reflexivity.
    + unfold scored_table, scoring_input, no_zones. cbn [zones set_zones].
      reflexivity.
Qed.

(** X9. On a radius for which the cache of [analyze_zones] has no entry,
    the call does not raise.  When [create_zones] returns at least one
    zone at the radius of the sidebar, the result is the scoring of these
    zones; when it returns none, the result is the scoring of the zones of
    the default radius 15, which is also what a first call at radius 15
    returns.  The result is stored under the radius alone, and a later
    call at that radius returns it whatever commune table it is given. *)
Theorem analyze_zones_falls_back_to_default_radius
    (cache : cache_data) (d : list Commune.t) (max_radius : Z) :
  cache_lookup max_radius cache = None ->
  exists zs st zs15 st15 out,
    create_zones (Some (IZR max_radius)) (__init__ d) = Ok (zs, st) /\
    create_zones None (__init__ d) = Ok (zs15, st15) /\
    out = match zs with
          | _ :: _ => scored_or_empty d zs
          | [] => scored_or_empty d zs15
          end /\
    analyze_zones cache d max_radius = Ok (out, (max_radius, out) :: cache) /\
    (cache_lookup 15 cache = None ->
     analyze_zones cache d 15 =
       Ok (scored_or_empty d zs15, (15%Z, scored_or_empty d zs15) :: cache)) /\
    forall d', analyze_zones ((max_radius, out) :: cache) d' max_radius
               = Ok (out, (max_radius, out) :: cache).
Proof.
  intros Hc.
  eexists _, _, _, _, _.
  split; [apply after_create_zones_zones|].
  split; [apply after_create_zones_zones|].
  split; [reflexivity|].
  split.
  { rewrite (analyze_zones_eq cache d max_radius Hc).
    rewrite scored_table_after_create_zones.
    destruct (match assignments (Some (IZR max_radius)) (__init__ d) with
              | [] => []
              | _ :: _ => _
              end); reflexivity. }
  split.
  { intros Hc15. rewrite (analyze_zones_eq cache d 15 Hc15).
    rewrite scored_table_after_create_zones.
    change (assignments (Some 15) (__init__ d)) with (assignments None (__init__ d)).
    destruct (assignments None (__init__ d)) as [|a t] eqn:Ea; [reflexivity|].
    rewrite <- Ea.
    destruct (_aggregate_zones (assignments None (__init__ d))); reflexivity. }
  intros d'. unfold analyze_zones. now rewrite cache_lookup_stored.
Qed.

End Caller.

Section TopAndDetails.
Context {C : Config} {U : Utils} {P : Pandas}.

Lemma score_and_rank_ranked self zs :
  map Ranked.rank (score_and_rank self zs)
    = seq 1 (length (score_and_rank self zs)) /\
  sorted_desc total_of (score_and_rank self zs).
Proof.
  split.
  - rewrite score_and_rank_eq, add_rank_rank, add_rank_length. reflexivity.
  - unfold total_of. apply (sorted_desc_map Ranked.scored Scored.score_total).
    rewrite score_and_rank_eq, add_rank_scored. apply sort_values_sorted.
Qed.

Lemma scoring_input_scored_zones self :
  scored_zones (scoring_input self) = scored_zones self.
Proof.
  unfold scoring_input, after_create_zones.
  destruct (no_zones self); [|reflexivity].
  destruct (assignments None self); reflexivity.
Qed.

Lemma firstn_seq_min k start len :
  firstn k (seq start len) = seq start (Nat.min k len).
Proof.
  revert start len. induction k as [|k IH]; intros start [|len]; simpl;
    try reflexivity.
  now rewrite IH.
Qed.

Lemma head_firstn {A} (n : Z) (l : list A) :
  exists k, head n l = firstn k l /\
            k = if (0 <=? n)%Z then Z.to_nat n else (length l - Z.to_nat (- n))%nat.
Proof.
  unfold head. destruct (0 <=? n)%Z; eexists; split; reflexivity.
Qed.

(** X10. On an analyzer without scored table, [get_top_zones] raises
    [AttributeError] when [calculate_scores] finds no zone to score;
    otherwise it returns the first rows of the table of [calculate_scores]
    ([n] of them when [n] is between 0 and the number of rows, all but the
    last [-n] when [n] is negative), with ranks 1, 2, ... and a
    [score_total] at least that of every row left out, and it returns the
    same rows when called again. *)
Theorem get_top_zones_best_rows (n : Z) (self : ZoneAnalyzer) :
  scored_zones self = None ->
  match zones (scoring_input self) with
  | Some (_ :: _) =>
      exists out rest st,
        calculate_scores self = Ok ((out ++ rest)%list, st) /\
        get_top_zones n self = inr (out, st) /\
        get_top_zones n st = inr (out, st) /\
        length out =
          (if (0 <=? n)%Z then Nat.min (Z.to_nat n) (length (out ++ rest)%list)
           else length (out ++ rest)%list - Z.to_nat (- n))%nat /\
        map Ranked.rank out = seq 1 (length out) /\
        Forall (fun a => Forall (fun b => total_of b <= total_of a) rest) out
  | _ => get_top_zones n self = inl AttributeError
  end.
Proof.
  intros Hnone.
  pose proof (calculate_scores_table self) as Hcalc.
  unfold scored_table, after_calculate_scores in Hcalc.
  pose proof (scoring_input_scored_zones self) as Hsz. rewrite Hnone in Hsz.
  destruct (zones (scoring_input self)) as [[|z zs]|] eqn:Ez.
  - unfold get_top_zones. rewrite Hnone, Hcalc. cbn [rbind snd]. now rewrite Hsz.
  - set (table := score_and_rank (scoring_input self) (z :: zs)) in *.
    set (st := set_scored_zones (scoring_input self) table) in *.
    destruct (head_firstn n table) as [k [Hk Ek]].
    exists (firstn k table), (skipn k table), st.
    rewrite firstn_skipn. split; [exact Hcalc|].
    destruct (score_and_rank_ranked (scoring_input self) (z :: zs)) as [Hrank Hsorted].
    fold table in Hrank, Hsorted.
    split; [|split; [|split; [|split]]].
    + unfold get_top_zones. rewrite Hnone, Hcalc. cbn [rbind snd].
      unfold st at 1. cbn [scored_zones set_scored_zones]. now rewrite Hk.
    + unfold get_top_zones. unfold st at 1 2.
      cbn [scored_zones set_scored_zones]. now rewrite Hk.
    + rewrite length_firstn, Ek. unfold head.
      destruct (0 <=? n)%Z; [reflexivity | lia].
    + rewrite <- firstn_map, Hrank, firstn_seq_min, length_firstn. reflexivity.
    + apply Forall_forall; intros a Ha. apply Forall_forall; intros b Hb.
      apply (sorted_desc_app total_of (firstn k table) (skipn k table));
        [rewrite firstn_skipn; exact Hsorted | assumption | assumption].
  - unfold get_top_zones. rewrite Hnone, Hcalc. cbn [rbind snd]. now rewrite Hsz.
Qed.

End TopAndDetails.

(** ** Looking a scored zone up *)

Lemma filter_none {A} (p : A -> bool) l :
  (forall y, In y l -> p y = false) -> filter p l = [].
Proof.
  induction l as [|h t IH]; intros H; [reflexivity|]. simpl.
  rewrite (H h) by now left. apply IH. intros y Hy. apply H. now right.
Qed.

Lemma filter_unique {A} (f : A -> nat) l x :
  NoDup (map f l) -> In x l ->
  filter (fun y => (f y =? f x)%nat) l = [x].
Proof.
  induction l as [|h t IH]; simpl; intros Hnd Hin; [contradiction|].
  inversion Hnd as [|? ? Hnot Ht]; subst.
  destruct Hin as [->|Hin].
  - rewrite Nat.eqb_refl. f_equal.
    apply filter_none. intros y Hy. apply Nat.eqb_neq.
    intros E. apply Hnot. rewrite <- E. now apply in_map.
  - destruct (f h =? f x)%nat eqn:E; [|now apply IH].
    apply Nat.eqb_eq in E. exfalso. apply Hnot. rewrite E. now apply in_map.
Qed.

Section Lookup.
Context {C : Config} {U : Utils} {P : Pandas}.

Lemma _aggregate_zones_sorted zones_df :
  StronglySorted lt (map Zone.zone_id (_aggregate_zones zones_df)).
Proof.
  unfold _aggregate_zones. apply StronglySorted_map_filter.
  rewrite aggregated_zone_ids. apply group_keys_sorted.
Qed.

Lemma after_create_zones_sorted r self :
  zones_sorted self -> zones_sorted (after_create_zones r self).
Proof.
  intros H. unfold after_create_zones.
  destruct (assignments r self); [exact H|].
  unfold zones_sorted. cbn [zones set_zones]. apply _aggregate_zones_sorted.
Qed.

Lemma scoring_input_sorted self :
  zones_sorted self -> zones_sorted (scoring_input self).
Proof.
  intros H. unfold scoring_input. destruct (no_zones self); [|exact H].
  now apply after_create_zones_sorted.
Qed.

Lemma scored_table_ids self :
  zones_sorted self -> NoDup (map zone_id_of (scored_table self)).
Proof.
  intros H. apply scoring_input_sorted in H. unfold zones_sorted in H.
  unfold scored_table.
  destruct (zones (scoring_input self)) as [[|z zs]|]; try constructor.
  pose proof (score_and_rank_zone_set (scoring_input self) (z :: zs)) as Hp.
  apply (Permutation_map Zone.zone_id) in Hp. rewrite map_map in Hp.
  eapply Permutation_NoDup; [exact Hp|]. now apply StronglySorted_lt_NoDup.
Qed.

(** X11. After [create_zones] and [calculate_scores] on a new analyzer, the
    zone ids of the scored table are distinct, [get_zone_details] of the
    zone id of a row returns that row, and for a zone id not in the table
    it returns the empty dictionary when the table has rows and raises
    [TypeError] when it has none. *)
Theorem get_zone_details_finds_each_scored_zone
    (d : list Commune.t) (max_radius : R) :
  exists zs st1 out st,
    create_zones (Some max_radius) (__init__ d) = Ok (zs, st1) /\
    calculate_scores st1 = Ok (out, st) /\
    NoDup (map zone_id_of out) /\
    Forall (fun row => get_zone_details (zone_id_of row) st = Ok (Some row, st)) out /\
    forall zone_id, ~ In zone_id (map zone_id_of out) ->
      get_zone_details zone_id st =
      match out with [] => Raise TypeError | _ :: _ => Ok (None, st) end.
Proof.
  eexists _, _, _, _.
  split; [apply after_create_zones_zones|].
  split; [apply calculate_scores_table|].
  set (st1 := after_create_zones (Some max_radius) (__init__ d)).
  assert (Hs : zones_sorted st1) by (apply after_create_zones_sorted; exact I).
  pose proof (scored_table_ids st1 Hs) as Hnd.
  split; [exact Hnd|].
  assert (Hsc : scored_zones (scoring_input st1) = None).
  { rewrite scoring_input_scored_zones. unfold st1, after_create_zones.
    destruct (assignments (Some max_radius) (__init__ d)); reflexivity. }
  unfold scored_table, after_calculate_scores in *.
  destruct (zones (scoring_input st1)) as [[|z zs]|] eqn:Ez.
  - split; [constructor|]. intros k _. unfold get_zone_details.
    rewrite Hsc, calculate_scores_table. cbn [rbind snd].
    unfold after_calculate_scores.
    rewrite (scoring_input_no_zones st1) by (unfold no_zones; now rewrite Ez).
    now rewrite Ez, Hsc.
  - set (table := score_and_rank (scoring_input st1) (z :: zs)) in *.
    set (st := set_scored_zones (scoring_input st1) table).
    assert (Hst : scored_zones st = Some table) by reflexivity.
    split.
    + apply Forall_forall. intros row Hrow.
      rewrite (get_zone_details_scored _ st table Hst).
      change (filter (has_zone_id (zone_id_of row)) table)
        with (filter (fun y => (zone_id_of y =? zone_id_of row)%nat) table).
      rewrite (filter_unique zone_id_of table row Hnd Hrow). reflexivity.
    + intros k Hk. rewrite (get_zone_details_scored _ st table Hst).
      assert (Hf : filter (has_zone_id k) table = []).
      { apply filter_none. intros y Hy. apply Nat.eqb_neq. intros E.
        apply Hk. apply in_map_iff. exists y. split; [exact E | exact Hy]. }
      rewrite Hf.
      destruct table as [|r0 t0] eqn:Et; [|reflexivity].
      exfalso. pose proof (score_and_rank_length (scoring_input st1) (z :: zs)) as Hl.
      fold table in Hl. rewrite Et in Hl. discriminate.
  - split; [constructor|]. intros k _. unfold get_zone_details.
    rewrite Hsc, calculate_scores_table. cbn [rbind snd].
    unfold after_calculate_scores.
    rewrite (scoring_input_no_zones st1) by (unfold no_zones; now rewrite Ez).
    now rewrite Ez, Hsc.
Qed.

End Lookup.

(** ** The zone map *)

Lemma get_color_for_score_class s s' :
  s <= s' ->
  (color_class (get_color_for_score s) <= color_class (get_color_for_score s'))%nat.
Proof.
  intros H. unfold get_color_for_score.
  repeat match goal with
         | |- context [Rge_bool ?x ?y] =>
             let E := fresh "E" in
             destruct (Rge_bool x y) eqn:E;
             [apply Rge_bool_true in E | apply Rge_bool_false in E]
         end; try lra; cbn; lia.
Qed.

Lemma zip_with_seq_map {A B C} (f : nat -> A -> B) (g : B -> C) (h : A -> C) l :
  (forall i x, g (f i x) = h x) ->
  forall start, map g (zip_with f (seq start (length l)) l) = map h l.
Proof.
  intros H. induction l as [|x t IH]; intros start; [reflexivity|].
  simpl. now rewrite H, IH.
Qed.

Lemma zip_with_seq_index {A B C} (f : nat -> A -> B) (g : B -> C) (h : nat -> C) l :
  (forall i x, g (f i x) = h i) ->
  forall start,
    map g (zip_with f (seq start (length l)) l) = map h (seq start (length l)).
Proof.
  intros H. induction l as [|x t IH]; intros start; [reflexivity|].
  simpl. now rewrite H, IH.
Qed.

Lemma StronglySorted_firstn {A} (R : A -> A -> Prop) k l :
  StronglySorted R l -> StronglySorted R (firstn k l).
Proof.
  intros Hs. revert k. induction Hs as [|x t Ht IH Hall]; intros [|k]; simpl;
    try constructor.
  - apply IH.
  - rewrite Forall_forall in *. intros y Hy. apply Hall.
    rewrite <- (firstn_skipn k t). apply in_or_app. now left.
Qed.

Lemma StronglySorted_head {A} (R : A -> A -> Prop) n l :
  StronglySorted R l -> StronglySorted R (head n l).
Proof. intros H. unfold head. destruct (0 <=? n)%Z; now apply StronglySorted_firstn. Qed.

Lemma StronglySorted_map_iff {A B} (R : B -> B -> Prop) (f : A -> B) l :
  StronglySorted (fun a b => R (f a) (f b)) l -> StronglySorted R (map f l).
Proof.
  induction 1 as [|x t Ht IH Hall]; simpl; constructor; [assumption|].
  rewrite Forall_map. exact Hall.
Qed.

Lemma StronglySorted_impl {A} (R R' : A -> A -> Prop) l :
  (forall a b, R a b -> R' a b) -> StronglySorted R l -> StronglySorted R' l.
Proof.
  intros H. induction 1 as [|x t Ht IH Hall]; constructor; [assumption|].
  eapply Forall_impl; [|exact Hall]. intros b. apply H.
Qed.

Lemma zone_marker_radius top_n i row :
  radius (zone_marker top_n i row) = marker_radius top_n i.
Proof.
  unfold zone_marker, marker_radius; cbn [radius]. destruct top_n; [|reflexivity].
  destruct (Z.of_nat i <? 20)%Z eqn:E.
  - apply Z.ltb_lt in E. rewrite (proj2 (Nat.ltb_lt i 20)) by lia. lia.
  - apply Z.ltb_ge in E. rewrite (proj2 (Nat.ltb_ge i 20)) by lia. reflexivity.
Qed.

Lemma marker_radius_decreasing top_n i j :
  (i <= j)%nat -> (marker_radius top_n j <= marker_radius top_n i)%Z.
Proof.
  intros H. unfold marker_radius. destruct top_n; [|lia].
  destruct (i <? 20)%nat eqn:Ei, (j <? 20)%nat eqn:Ej;
    rewrite ?Nat.ltb_lt, ?Nat.ltb_ge in *; lia.
Qed.

Lemma marker_radius_range top_n i : (10 <= marker_radius top_n i <= 35)%Z.
Proof.
  unfold marker_radius. destruct top_n; [|lia].
  destruct (i <? 20)%nat eqn:Ei; rewrite ?Nat.ltb_lt, ?Nat.ltb_ge in *; lia.
Qed.

Lemma seq_radius_sorted top_n len start :
  StronglySorted (fun a b => (b <= a)%Z) (map (marker_radius top_n) (seq start len)).
Proof.
  revert start. induction len as [|len IH]; intros start; simpl; constructor.
  - apply IH.
  - rewrite Forall_map. apply Forall_forall. intros j Hj.
    apply in_seq in Hj. apply marker_radius_decreasing. lia.
Qed.

Lemma create_zone_map_length zones_df top_n :
  length (create_zone_map zones_df top_n) = length (displayed zones_df top_n).
Proof.
  unfold create_zone_map. fold (displayed zones_df top_n).
  rewrite <- (length_map location).
  rewrite (zip_with_seq_map _ location
             (fun row => (Zone.latitude (Scored.zone (Ranked.scored row)),
                          Zone.longitude (Scored.zone (Ranked.scored row)))))
    by reflexivity.
  apply length_map.
Qed.

(** X14. [create_zone_map] draws one marker per displayed row, at the
    latitude and longitude of the zone; with a [top_n] the marker of index
    [i] has radius [35 - i] when [i < 20] and 10 otherwise, without
    [top_n] every radius is 10; so the radii are between 10 and 35 and
    never increase along the rows; the marker is filled with its own
    colour. *)
Theorem create_zone_map_markers (zones_df : list Ranked.t) (top_n : option Z) :
  let markers := create_zone_map zones_df top_n in
  let shown := displayed zones_df top_n in
  length markers = length shown /\
  map location markers =
    map (fun row => (Zone.latitude (Scored.zone (Ranked.scored row)),
                     Zone.longitude (Scored.zone (Ranked.scored row)))) shown /\
  map radius markers = map (marker_radius top_n) (seq 0 (length shown)) /\
  Forall (fun m => (10 <= radius m <= 35)%Z) markers /\
  StronglySorted (fun a b => (radius b <= radius a)%Z) markers /\
  Forall (fun m => fill_color m = color m) markers.
Proof.
  intros markers shown.
  assert (Hloc : map location markers =
    map (fun row => (Zone.latitude (Scored.zone (Ranked.scored row)),
                     Zone.longitude (Scored.zone (Ranked.scored row)))) shown).
  { unfold markers, create_zone_map. fold (displayed zones_df top_n). fold shown.
    apply zip_with_seq_map. reflexivity. }
  assert (Hrad : map radius markers = map (marker_radius top_n) (seq 0 (length shown))).
  { unfold markers, create_zone_map. fold (displayed zones_df top_n). fold shown.
    apply zip_with_seq_index. intros. apply zone_marker_radius. }
  split.
  { rewrite <- (length_map location), Hloc. apply length_map. }
  split; [exact Hloc|]. split; [exact Hrad|]. split.
  { rewrite <- (Forall_map radius (fun r => (10 <= r <= 35)%Z)), Hrad, Forall_map.
    apply Forall_forall. intros i _. apply marker_radius_range. }
  split.
  { assert (H : StronglySorted (fun a b => (b <= a)%Z) (map radius markers))
      by (rewrite Hrad; apply seq_radius_sorted).
    clear - H. induction markers as [|m t IH]; [constructor|].
    simpl in H. inversion H as [|? ? Ht Hall]; subst.
    constructor; [now apply IH|]. rewrite Forall_map in Hall. exact Hall. }
  assert (Hc : map fill_color markers = map color markers).
  { unfold markers, create_zone_map.
    rewrite (zip_with_seq_map _ fill_color
               (fun row => get_color_for_score (total_of row))) by reflexivity.
    rewrite (zip_with_seq_map _ color
               (fun row => get_color_for_score (total_of row))) by reflexivity.
    reflexivity. }
  clear - Hc. induction markers as [|m t IH]; [constructor|].
  simpl in Hc. inversion Hc. constructor; auto.
Qed.

(** X15. On the table returned by [calculate_scores], the colour of each
    marker of [create_zone_map] is the colour of the [score_total] of its
    row, and along the markers the colour class (red, orange, yellow,
    light green, dark green) never improves: a better ranked zone never
    has a worse colour. *)
Theorem map_colours_follow_ranking
    {C : Config} {U : Utils} {P : Pandas}
    (self : ZoneAnalyzer) (top_n : option Z) :
  exists out st,
    calculate_scores self = Ok (out, st) /\
    map color (create_zone_map out top_n)
      = map (fun row => get_color_for_score (total_of row)) (displayed out top_n) /\
    StronglySorted (fun m1 m2 => (color_class (color m2) <= color_class (color m1))%nat)
                   (create_zone_map out top_n).
Proof.
  eexists _, _. split; [apply calculate_scores_table|].
  set (out := scored_table self).
  assert (Hc : map color (create_zone_map out top_n)
      = map (fun row => get_color_for_score (total_of row)) (displayed out top_n)).
  { unfold create_zone_map. fold (displayed out top_n).
    apply zip_with_seq_map. reflexivity. }
  split; [exact Hc|].
  assert (Hsorted : sorted_desc total_of out).
  { unfold out, scored_table.
    destruct (zones (scoring_input self)) as [[|z zs]|]; try constructor.
    apply score_and_rank_ranked. }
  assert (Hd : sorted_desc total_of (displayed out top_n)).
  { unfold displayed. destruct top_n; [|exact Hsorted].
    now apply StronglySorted_head. }
  assert (H : StronglySorted (fun a b => (color_class b <= color_class a)%nat)
                (map color (create_zone_map out top_n))).
  { rewrite Hc. apply StronglySorted_map_iff.
    eapply StronglySorted_impl; [|exact Hd]. intros a b Hab. simpl.
    now apply get_color_for_score_class. }
  clear - H. induction (create_zone_map out top_n) as [|m t IH]; [constructor|].
  simpl in H. inversion H as [|? ? Ht Hall]; subst.
  constructor; [now apply IH|]. rewrite Forall_map in Hall. exact Hall.
Qed.

(** ** The regional bar chart *)

Lemma region_keys_In regions r : In r (region_keys regions) <-> In r regions.
Proof.
  unfold region_keys. rewrite nodup_In. unfold sorted. split; intros H.
  - eapply Permutation_in; [apply sort_le_perm | exact H].
  - eapply Permutation_in; [apply Permutation_sym, sort_le_perm | exact H].
Qed.

Lemma region_keys_NoDup regions : NoDup (region_keys regions).
Proof. apply NoDup_nodup. Qed.

Lemma list_sum_indicator (r : string) ks :
  NoDup ks -> In r ks ->
  list_sum (map (fun k => if String.eqb r k then 1%nat else 0%nat) ks) = 1%nat.
Proof.
  induction ks as [|h t IH]; intros Hnd Hin; [contradiction|].
  inversion Hnd as [|? ? Hnot Ht]; subst. simpl.
  destruct (String.eqb r h) eqn:E.
  - apply String.eqb_eq in E; subst.
    assert (Hz : list_sum (map (fun k => if String.eqb h k then 1%nat else 0%nat) t)
                 = 0%nat).
    { clear IH Ht Hnd Hin. induction t as [|x t IH]; [reflexivity|]. simpl.
      destruct (String.eqb h x) eqn:E.
      - apply String.eqb_eq in E; subst. exfalso. apply Hnot. now left.
      - apply IH. intros H. apply Hnot. now right. }
    now rewrite Hz.
  - apply String.eqb_neq in E. destruct Hin as [->|Hin]; [congruence|].
    now rewrite IH.
Qed.

Lemma list_sum_plus {A} (f g : A -> nat) l :
  list_sum (map (fun x => (f x + g x)%nat) l)
  = (list_sum (map f l) + list_sum (map g l))%nat.
Proof. induction l as [|x t IH]; simpl; [reflexivity | rewrite IH; lia]. Qed.

Lemma count_by_region rows ks :
  NoDup ks ->
  (forall row, In row rows -> In (region_of row) ks) ->
  list_sum (map (fun r => length (rows_of_region rows r)) ks) = length rows.
Proof.
  intros Hnd. induction rows as [|a t IH]; intros Hin.
  - clear. simpl. induction ks as [|k ks IHk]; simpl; [reflexivity | exact IHk].
  - assert (E : forall r, length (rows_of_region (a :: t) r)
                = ((if String.eqb (region_of a) r then 1 else 0)
                   + length (rows_of_region t r))%nat).
    { intros r. unfold rows_of_region. simpl.
      destruct (String.eqb (region_of a) r); reflexivity. }
    rewrite (map_ext _ _ E), list_sum_plus.
    rewrite list_sum_indicator; [|assumption | apply Hin; now left].
    rewrite IH; [reflexivity|]. intros b Hb. apply Hin. now right.
Qed.

Lemma list_sum_perm l l' : Permutation l l' -> list_sum l = list_sum l'.
Proof. induction 1; simpl; lia. Qed.

(** X16. In [create_regional_bar_chart], for a table whose region column
    has no missing value, each region of the displayed zones has exactly
    one bar, whose count is the number of displayed zones of that region
    and is at least 1; the counts add up to the number of displayed zones;
    and the bars are in ascending order of count. *)
Theorem regional_bar_chart_counts
    {P : Pandas} (zones_df : list Ranked.t) (top_n : Z) :
  let shown := head top_n zones_df in
  let bars := create_regional_bar_chart zones_df top_n in
  list_sum (map snd bars) = length shown /\
  NoDup (map fst bars) /\
  Forall (fun bar => snd bar = length (rows_of_region shown (fst bar)) /\
                     (1 <= snd bar)%nat) bars /\
  Forall (fun row => In (region_of row) (map fst bars)) shown /\
  StronglySorted (fun a b => (snd a <= snd b)%nat) bars.
Proof.
  intros shown bars.
  set (keys := region_keys (map region_of shown)).
  set (counts := map (fun r => (r, length (rows_of_region shown r))) keys).
  assert (Hbars : bars = sort_values_desc (fun rc => - INR (snd rc)) counts)
    by reflexivity.
  assert (Hperm : Permutation counts bars)
    by (rewrite Hbars; apply sort_values_perm).
  assert (Hfst : map fst counts = keys).
  { unfold counts. rewrite map_map. apply map_id. }
  split.
  { rewrite <- (list_sum_perm _ _ (Permutation_map snd Hperm)).
    unfold counts. rewrite map_map. cbn [snd].
    apply count_by_region; [apply region_keys_NoDup|].
    intros row Hrow. apply region_keys_In. now apply in_map. }
  split.
  { eapply Permutation_NoDup; [apply (Permutation_map fst Hperm)|].
    rewrite Hfst. apply region_keys_NoDup. }
  split.
  { eapply Permutation_Forall; [exact Hperm|].
    apply Forall_forall. intros [r n] Hin. unfold counts in Hin.
    apply in_map_iff in Hin. destruct Hin as [r' [E Hr]]. inversion E; subst.
    cbn [fst snd]. split; [reflexivity|].
    apply region_keys_In, in_map_iff in Hr. destruct Hr as [row [Er Hrow]].
    assert (Hin : In row (rows_of_region shown r)).
    { apply filter_In. split; [exact Hrow|]. now apply String.eqb_eq. }
    destruct (rows_of_region shown r); [contradiction | simpl; lia]. }
  split.
  { apply Forall_forall. intros row Hrow.
    eapply Permutation_in; [apply (Permutation_map fst Hperm)|].
    rewrite Hfst. apply region_keys_In. now apply in_map. }
  pose proof (sort_values_sorted _ (fun rc : string * nat => - INR (snd rc)) counts) as Hs.
  rewrite <- Hbars in Hs. unfold sorted_desc in Hs.
  eapply StronglySorted_impl; [|exact Hs].
  intros a b Hab. simpl in Hab. apply INR_le. lra.
Qed.

(** ** The number of zones displayed *)

Lemma head_length {A} (n : Z) (l : list A) :
  (0 <= n <= Z.of_nat (length l))%Z -> length (head n l) = Z.to_nat n.
Proof.
  intros H. unfold head. rewrite (proj2 (Z.leb_le 0 n)) by lia.
  rewrite length_firstn. lia.
Qed.

(** X17. For a table with at least one zone: with exactly ten zones the
    slider of the sidebar is asked for equal bounds (10 and 10) and
    raises; with any other number of zones the slider has a lower bound of
    at least 1 and below its upper bound, a default within its bounds and
    a positive step, and whatever value it gives, [top_n] is between 1 and
    the number of zones, so that the first [top_n] rows are exactly
    [top_n] rows and [create_zone_map] draws exactly [top_n] markers. *)
Theorem choose_top_n_within_table (zones_df : list Ranked.t) :
  zones_df <> [] ->
  match choose_top_n (length zones_df) with
  | inl StreamlitAPIException => length zones_df = 10%nat
  | inr w =>
      length zones_df <> 10%nat /\
      match w with
      | Slider min_value max_value value step =>
          (1 <= min_value <= value)%Z /\ (value <= max_value)%Z /\
          (min_value < max_value)%Z /\ (0 < step)%Z
      | Fixed n => n = 1%Z
      end /\
      forall top_n, possible_top_n w top_n ->
        (1 <= top_n <= Z.of_nat (length zones_df))%Z /\
        length (head top_n zones_df) = Z.to_nat top_n /\
        length (create_zone_map zones_df (Some top_n)) = Z.to_nat top_n
  end.
Proof.
  intros Hne.
  assert (Hlen : (1 <= Z.of_nat (length zones_df))%Z).
  { destruct zones_df; [congruence | simpl length; lia]. }
  assert (Hshow : forall top_n, (1 <= top_n <= Z.of_nat (length zones_df))%Z ->
            (1 <= top_n <= Z.of_nat (length zones_df))%Z /\
            length (head top_n zones_df) = Z.to_nat top_n /\
            length (create_zone_map zones_df (Some top_n)) = Z.to_nat top_n).
  { intros top_n Hr.
    assert (Hh : length (head top_n zones_df) = Z.to_nat top_n)
      by (apply head_length; lia).
    split; [exact Hr|]. split; [exact Hh|].
    rewrite create_zone_map_length. exact Hh. }
  unfold choose_top_n, slider.
  destruct (10 <=? Z.of_nat (length zones_df))%Z eqn:E1.
  - apply Z.leb_le in E1.
    destruct (10 <? Z.min 100 (Z.of_nat (length zones_df)))%Z eqn:E2.
    + apply Z.ltb_lt in E2.
      rewrite (proj2 (Z.leb_le 10 (Z.min 50 (Z.of_nat (length zones_df))))) by lia.
      rewrite (proj2 (Z.leb_le (Z.min 50 (Z.of_nat (length zones_df)))
                               (Z.min 100 (Z.of_nat (length zones_df))))) by lia.
      cbn [andb]. split; [lia|]. split; [lia|].
      intros top_n Hp. apply Hshow. simpl in Hp. lia.
    + apply Z.ltb_ge in E2. cbn [andb]. lia.
  - apply Z.leb_gt in E1.
    destruct (1 <? Z.of_nat (length zones_df))%Z eqn:E2.
    + rewrite (proj2 (Z.leb_le 1 (Z.of_nat (length zones_df)))) by lia.
      rewrite Z.leb_refl. cbn [andb]. apply Z.ltb_lt in E2.
      split; [lia|]. split; [lia|].
      intros top_n Hp. apply Hshow. simpl in Hp. lia.
    + apply Z.ltb_ge in E2. split; [lia|]. split; [lia|].
      intros top_n Hp. apply Hshow. simpl in Hp. lia.
Qed.

(** ** Examples for the further properties *)

Lemma centers_assigned_at_distance_zero_two :
  0 <= 15 /\
  exists table,
    assign_communes (select_city_centers two_communes) 15 two_communes = Ok table /\
    Forall (fun a => 0 <= Assignment.distance_to_center a) table.
Proof.
  assert (H : 0 <= 15) by lra. split; [exact H|].
  destruct (centers_assigned_at_distance_zero two_communes 15 H)
    as [table [H1 [H2 _]]].
  exists table. split; assumption.
Defined.

Lemma wide_radius_assigns_every_commune_four :
  6371 * PI <= 25484 /\
  exists table,
    assign_communes (select_city_centers four_communes) 25484 four_communes
      = Ok table /\
    map Assignment.commune table = four_communes.
Proof.
  assert (H : 6371 * PI <= 25484) by (pose proof PI_4; lra).
  split; [exact H|].
  exact (wide_radius_assigns_every_commune four_communes 25484 H).
Defined.

Lemma larger_radius_only_adds_rows_four :
  10 <= 15 /\
  exists table table',
    assign_communes (select_city_centers four_communes) 10 four_communes = Ok table /\
    assign_communes (select_city_centers four_communes) 15 four_communes = Ok table' /\
    table = filter (fun a => Rle_bool (Assignment.distance_to_center a) 10) table'.
Proof.
  assert (H : 10 <= 15) by lra. split; [exact H|].
  exact (larger_radius_only_adds_rows four_communes 10 15 H).
Defined.

Lemma scoring_input_hamlet :
  @scoring_input demo_utils (__init__ [hamlet]) = __init__ [hamlet].
Proof.
  unfold scoring_input, after_create_zones. cbn [no_zones zones __init__].
  now rewrite (assignments_no_eligible None _ eligible_hamlet).
Qed.

Lemma get_top_zones_best_rows_hamlet :
  scored_zones (__init__ [hamlet]) = None /\
  @get_top_zones demo_config demo_utils pandas_stable 20 (__init__ [hamlet])
    = inl AttributeError.
Proof.
  split; [reflexivity|].
  pose proof (@get_top_zones_best_rows demo_config demo_utils pandas_stable
                20 (__init__ [hamlet]) eq_refl) as H.
  rewrite scoring_input_hamlet in H. exact H.
Defined.

Lemma choose_top_n_within_table_two :
  demo_rows <> [] /\
  choose_top_n (length demo_rows) = inr (Slider 1 2 2 1) /\
  length (create_zone_map demo_rows (Some 2%Z)) = 2%nat.
Proof.
  assert (H1 : demo_rows <> []) by discriminate.
  split; [exact H1|]. split; [reflexivity|].
  pose proof (choose_top_n_within_table demo_rows H1) as H.
  change (choose_top_n (length demo_rows)) with (@inr widget_exn _ (Slider 1 2 2 1)) in H.
  destruct H as [_ [_ H]].
  exact (proj2 (proj2 (H 2%Z ltac:(simpl; lia)))).
Defined.

Lemma dist_cogny_arnas :
  dist cogny arnas = 6371 * (0.1 * PI / 180) /\ 10 < dist cogny arnas <= 15.
Proof.
  assert (E : dist cogny arnas = 6371 * (0.1 * PI / 180)).
  { unfold cogny, arnas. rewrite dist_demo_commune by lra.
    rewrite Rabs_left by lra. f_equal. lra. }
  split; [exact E|]. rewrite E. pose proof PI2_3_2. pose proof PI_4. lra.
Qed.

Lemma eligible_arnas_cogny :
  filter_eligible_communes (__init__ arnas_cogny) = arnas_cogny.
Proof.
  unfold filter_eligible_communes, arnas_cogny, arnas, cogny;
    cbn [data __init__ filter].
  rewrite !eligible_demo_commune by lra. reflexivity.
Qed.

Lemma centers_arnas_cogny : select_city_centers arnas_cogny = [arnas].
Proof.
  unfold select_city_centers, arnas_cogny, arnas, cogny, demo_commune;
    cbn [filter Commune.population_totale].
  rewrite (proj2 (Rge_bool_true 3000 1000)) by lra.
  rewrite (proj2 (Rge_bool_false 600 1000)) by lra.
  reflexivity.
Qed.

Lemma assignments_arnas_cogny r :
  10 <= r ->
  assignments (Some r) (__init__ arnas_cogny) =
  if Rle_bool 15 r
  then [assignment_of [arnas] arnas; assignment_of [arnas] cogny]
  else if Rle_bool (dist cogny arnas) r
       then [assignment_of [arnas] arnas; assignment_of [arnas] cogny]
       else [assignment_of [arnas] arnas].
Proof.
  intros Hr. unfold assignments. rewrite eligible_arnas_cogny, centers_arnas_cogny.
  unfold arnas_cogny; cbn [filter radius_of]. unfold within_radius, min_distance.
  unfold distances_to; cbn [map series_min fold_left].
  fold (dist arnas arnas). fold (dist cogny arnas).
  rewrite dist_self. rewrite (proj2 (Rle_bool_true 0 r)) by lra.
  destruct dist_cogny_arnas as [_ [Hlo Hhi]].
  destruct (Rle_bool 15 r) eqn:E15.
  - apply Rle_bool_true in E15.
    rewrite (proj2 (Rle_bool_true (dist cogny arnas) r)) by lra. reflexivity.
  - destruct (Rle_bool (dist cogny arnas) r); reflexivity.
Qed.

Lemma aggregate_arnas_alone : @_aggregate_zones demo_utils zone_arnas_alone = [].
Proof.
  unfold _aggregate_zones.
  change (@aggregated demo_utils zone_arnas_alone)
    with [@agg_zone demo_utils 0 zone_arnas_alone].
  cbn [filter]. unfold zone_criteria.
  change (2 <=? Zone.nb_communes (@agg_zone demo_utils 0 zone_arnas_alone))%nat
    with false.
  now rewrite andb_false_r.
Qed.

Lemma aggregate_arnas_cogny :
  @_aggregate_zones demo_utils zone_arnas_cogny
  = [@agg_zone demo_utils 0 zone_arnas_cogny].
Proof.
  unfold _aggregate_zones.
  change (@aggregated demo_utils zone_arnas_cogny)
    with [@agg_zone demo_utils 0 zone_arnas_cogny].
  cbn [filter].
  replace (@zone_criteria (@agg_zone demo_utils 0 zone_arnas_cogny)) with true;
    [reflexivity|].
  symmetry. apply zone_criteria_true. unfold meets_zone_criteria.
  unfold agg_zone, zone_arnas_cogny, series_mean, arnas, cogny, demo_commune. simpl.
  repeat split; try lia; lra.
Qed.

Lemma create_zones_arnas_cogny_10 :
  @create_zones demo_utils (Some 10) (__init__ arnas_cogny)
  = Ok ([], set_zones (__init__ arnas_cogny) []).
Proof.
  rewrite create_zones_eq, assignments_arnas_cogny by lra.
  destruct dist_cogny_arnas as [_ [Hlo _]].
  rewrite (proj2 (Rle_bool_false 15 10)) by lra.
  rewrite (proj2 (Rle_bool_false (dist cogny arnas) 10)) by lra.
  fold zone_arnas_alone. now rewrite aggregate_arnas_alone.
Qed.

Lemma create_zones_arnas_cogny_default :
  @create_zones demo_utils None (__init__ arnas_cogny)
  = Ok ([@agg_zone demo_utils 0 zone_arnas_cogny],
        set_zones (__init__ arnas_cogny) [@agg_zone demo_utils 0 zone_arnas_cogny]).
Proof.
  rewrite create_zones_eq.
  change (assignments None (__init__ arnas_cogny))
    with (assignments (Some 15) (__init__ arnas_cogny)).
  rewrite assignments_arnas_cogny by lra.
  rewrite (proj2 (Rle_bool_true 15 15)) by lra.
  fold zone_arnas_cogny. now rewrite aggregate_arnas_cogny.
Qed.

(** With the slider at 10 km Cogny is out of reach of Arnas and no zone of
    two communes exists; the table shown is the one of the 15 km radius,
    with the zone of Arnas and Cogny.  Once stored, it is also the table
    shown at 10 km for a commune table that has no zone at all. *)
Lemma analyze_zones_radius_10_shows_radius_15 :
  exists row,
    cache_lookup 10 [] = None /\
    10 < dist cogny arnas /\
    @create_zones demo_utils (Some 10) (__init__ arnas_cogny)
      = Ok ([], set_zones (__init__ arnas_cogny) []) /\
    @analyze_zones demo_config demo_utils pandas_stable [] arnas_cogny 10
      = Ok ([row], [(10%Z, [row])]) /\
    @analyze_zones demo_config demo_utils pandas_stable [] arnas_cogny 15
      = Ok ([row], [(15%Z, [row])]) /\
    @analyze_zones demo_config demo_utils pandas_stable [(10%Z, [row])] [hamlet] 10
      = Ok ([row], [(10%Z, [row])]) /\
    Zone.nb_communes (Scored.zone (Ranked.scored row)) = 2%nat.
Proof.
  destruct (@analyze_zones_falls_back_to_default_radius
              demo_config demo_utils pandas_stable [] arnas_cogny 10 eq_refl)
    as [zs [st [zs15 [st15 [out [H1 [H2 [H3 [H4 [H5 H6]]]]]]]]]].
  change (IZR 10) with 10 in H1.
  rewrite create_zones_arnas_cogny_10 in H1.
  rewrite create_zones_arnas_cogny_default in H2.
  inversion H1; subst zs. inversion H2; subst zs15.
  cbn [scored_or_empty] in H3, H5.
  rewrite score_and_rank_eq in H3, H5. subst out.
  eexists. split; [reflexivity|].
  split; [apply dist_cogny_arnas|].
  split; [exact create_zones_arnas_cogny_10|].
  split; [exact H4|]. split; [exact (H5 eq_refl)|].
  split; [exact (H6 [hamlet])|]. reflexivity.
Defined.
